(** * CodeChrono / Miss-Minutes editor extension: activity tracking and sync

    A shallow embedding of the extension's tracking core:
    - [Logger]            src/utils/logger.ts (first part)
    - [ApiClient]         src/utils/logger.ts (second part, the GraphQL client)
    - [StatusBarManager]  src/sync/statusBarManger.ts
    - [GitTracker]        the git tracker (getCurrentCommit, getCommitDetails,
                          trackCommitChange, initializeProject)
    - [Tracker]           src/sync/tracker.ts (handleActivity, syncLoop,
                          startTracking, stopTracking)
    - [CoreTracker]       the later revision of the tracker (src/core/tracker.ts),
                          whose handleActivity resolves the project by git root
                          and whose syncLoop logs what it sends

    All objects of the running extension live in one [World]: the logger is a
    process-wide singleton, the database is shared by the tracker and the git
    tracker, and the tracker reads the git tracker's maps.  Everything the
    extension cannot decide itself (the clock, the active editor, the output
    of git, the network, failures of the SQLite store) is an explicit input
    of the operation that consults it.

    Numbers: every number of the source that is an integer count or a
    millisecond clock reading is a [Z]; the one place where the source can
    produce NaN (parseInt) uses [Js.number].  Strings are sequences of 8-bit
    characters.

    Asynchronous functions are state-passing functions that either resolve
    or reject; a function modelled this way runs from its call to its return
    with nothing in between.  Where a claim is about what happens in between
    (tracking stopped while an iteration of the sync loop is awaiting), the
    iteration is cut at its suspension points.

    Not modelled: what the source writes to the debug console, the ISO time
    that starts each log line, [watchGitChanges] (which only registers
    [trackCommitChange] and [initializeProject] with the file watcher), and
    the delay of a timer (a timer is armed until it fires or is cleared). *)

From stdpp Require Import gmap strings list pretty sorting.
From Stdlib Require Import ZArith Lia Ascii.

Local Open Scope Z_scope.

(** ** JavaScript built-ins used by the source *)

Module Js.

(** A JS number that is either an integer or NaN. *)
Inductive number : Type :=
| Num (z : Z)
| NaN.

(** [x * k] *)
Definition times (x : number) (k : Z) : number :=
  match x with
  | Num z => Num (z * k)
  | NaN => NaN
  end.

(** [x || 0] on a number: 0 and NaN are falsy. *)
Definition or_zero (x : number) : Z :=
  match x with
  | Num z => z
  | NaN => 0
  end.

(** [s || d] on a string: the empty string is falsy. *)
Definition truthy (s : string) : bool :=
  match s with
  | EmptyString => false
  | String _ _ => true
  end.

(** WhiteSpace and LineTerminator code points below 128. *)
Definition is_white_space (c : ascii) : bool :=
  let n := N_of_ascii c in
  ((9 <=? n) && (n <=? 13))%N || (n =? 32)%N.

(** The characters [.] does not match. *)
Definition is_line_terminator (c : ascii) : bool :=
  let n := N_of_ascii c in
  ((n =? 10) || (n =? 13))%N.

Definition is_digit (c : ascii) : bool :=
  let n := N_of_ascii c in
  ((48 <=? n) && (n <=? 57))%N.

Definition digit_value (c : ascii) : Z := Z.of_N (N_of_ascii c) - 48.

Fixpoint trimStart (s : string) : string :=
  match s with
  | EmptyString => EmptyString
  | String c s' => if is_white_space c then trimStart s' else s
  end.

Definition trimEnd (s : string) : string :=
  String.rev (trimStart (String.rev s)).

(** [s.trim()], on strings whose characters are below 128 (the white space
    JavaScript knows above that, U+00A0 and U+FEFF among it, is not
    stripped). *)
Definition trim (s : string) : string := trimEnd (trimStart s).

(** The value of the longest prefix of decimal digits, if there is one. *)
Fixpoint digits_value (acc : option Z) (s : string) : option Z :=
  match s with
  | EmptyString => acc
  | String c s' =>
      if is_digit c
      then digits_value (Some (10 * default 0 acc + digit_value c)) s'
      else acc
  end.

Definition of_digits (s : string) : number :=
  match digits_value None s with
  | Some z => Num z
  | None => NaN
  end.

(** [parseInt(s, 10)]: leading white space, an optional sign, then the
    longest run of digits; NaN when there is no digit.  The value is the
    exact integer; the source's number is the nearest double, which is the
    same up to 2^53. *)
Definition parseInt (s : string) : number :=
  match trimStart s with
  | String "-" s' => times (of_digits s') (-1)
  | String "+" s' => of_digits s'
  | s' => of_digits s'
  end.

(** [(s.match(/\n/g) || []).length] *)
Fixpoint count_newlines (s : string) : Z :=
  match s with
  | EmptyString => 0
  | String c s' =>
      (if (N_of_ascii c =? 10)%N then 1 else 0) + count_newlines s'
  end.

(** The longest prefix of digits and what follows it. *)
Fixpoint span_digits (s : string) : string * string :=
  match s with
  | EmptyString => (EmptyString, EmptyString)
  | String c s' =>
      if is_digit c
      then let '(ds, rest) := span_digits s' in (String c ds, rest)
      else (EmptyString, s)
  end.

Fixpoint strip_prefix (p s : string) : option string :=
  match p, s with
  | EmptyString, _ => Some s
  | String a p', String b s' =>
      if Ascii.eqb a b then strip_prefix p' s' else None
  | String _ _, EmptyString => None
  end.

(** [(\d+)lit] anchored at the start of [s]: the digits and the rest.
    The greedy [\d+] has to stop where the digits stop, since [lit] starts
    with a space. *)
Definition digits_then (lit : string) (s : string) : option (string * string) :=
  let '(ds, rest) := span_digits s in
  match ds with
  | EmptyString => None
  | String _ _ =>
      match strip_prefix lit rest with
      | Some r => Some (ds, r)
      | None => None
      end
  end.

(** [.*?(\d+) deletion] anchored at the start of [s]: the lazy [.*?] skips
    as few characters as possible and never a line terminator. *)
Fixpoint lazy_deletion (s : string) : option string :=
  match digits_then " deletion" s with
  | Some (d, _) => Some d
  | None =>
      match s with
      | EmptyString => None
      | String c s' => if is_line_terminator c then None else lazy_deletion s'
      end
  end.

Definition stats_at (s : string) : option (string * string) :=
  match digits_then " insertion" s with
  | Some (d1, rest) =>
      match lazy_deletion rest with
      | Some d2 => Some (d1, d2)
      | None => None
      end
  | None => None
  end.

(** [s.match(/(\d+) insertion.*?(\d+) deletion/)]: the two groups of the
    leftmost match. *)
Fixpoint match_stats (s : string) : option (string * string) :=
  match stats_at s with
  | Some r => Some r
  | None =>
      match s with
      | EmptyString => None
      | String _ s' => match_stats s'
      end
  end.

(** The double quote character, as a string. *)
Definition dquote : string := String (ascii_of_nat 34) EmptyString.

End Js.

(** ** Thrown values and asynchronous results *)

(** A thrown value; every value the modelled code throws is an [Error]
    object with a message and, possibly, a stack. *)
Record Error : Type := mkError {
  error_message : string;
  error_stack : option string;
}.

(** How a call ends: it returns (a promise resolves) or it throws (a promise
    rejects). *)
Inductive outcome (A : Type) : Type :=
| Resolved (a : A)
| Rejected (e : Error).
Arguments Resolved {A} a.
Arguments Rejected {A} e.

(** ** Logger (src/utils/logger.ts) *)

Module Logger.

Inductive LogLevel : Type := DEBUG | INFO | WARN | ERROR.

Definition level (l : LogLevel) : Z :=
  match l with
  | DEBUG => 0
  | INFO => 1
  | WARN => 2
  | ERROR => 3
  end.

(** One line of the output channel.  The source formats a line as the ISO
    time, the message and the JSON of the extra arguments; the model keeps
    the message and the arguments and leaves the time out. *)
Record LogLine : Type := mkLine {
  line_message : string;
  line_args : list string;
}.

Record t : Type := mk {
  logLevel : LogLevel;
  outputChannel : list LogLine;
}.

(** The instance [getInstance] creates on its first call. *)
Definition getInstance : t := mk INFO [].

Definition setLogLevel (l : LogLevel) (lg : t) : t :=
  mk l (outputChannel lg).

Definition log (message : string) (args : list string) (lg : t) : t :=
  mk (logLevel lg) (outputChannel lg ++ [mkLine message args]).

Definition debug (message : string) (lg : t) : t :=
  if level (logLevel lg) <=? level DEBUG
  then log ("[DEBUG] " +:+ message) [] lg else lg.

Definition info (message : string) (lg : t) : t :=
  if level (logLevel lg) <=? level INFO
  then log ("[INFO] " +:+ message) [] lg else lg.

Definition warn (message : string) (lg : t) : t :=
  if level (logLevel lg) <=? level WARN
  then log ("[WARN] " +:+ message) [] lg else lg.

Definition error (message : string) (err : Error) (lg : t) : t :=
  if level (logLevel lg) <=? level ERROR
  then
    let lg1 := log ("[ERROR] " +:+ message) [error_message err] lg in
    match error_stack err with
    | Some st => if Js.truthy st then log st [] lg1 else lg1
    | None => lg1
    end
  else lg.

End Logger.

(** ** StatusBarManager (src/sync/statusBarManger.ts) *)

Module StatusBarManager.

Record t : Type := mk {
  text : string;
  tooltip : option string;
}.

Definition constructor : t :=
  mk "$(clock) Miss-Minutes: Initializing..." None.

Definition updateStatus (message : string) (tip : option string) (sb : t) : t :=
  mk ("$(clock) " +:+ message)
     (match tip with
      | Some s => if Js.truthy s then Some s else tooltip sb
      | None => tooltip sb
      end).

End StatusBarManager.

(** ** Records of the store (declared in src/storage/database.ts) *)

(** Modelled from the spec: the declaration of ActivityLog is not among the
    sources; the fields are those of the spec's ActivityRecord under the
    names the tracker uses when it builds one. *)
Module ActivityLog.

Record t : Type := mk {
  projectPath : string;
  filePath : string;
  language : string;
  timestamp : Z;
  duration : Z;
  editor : string;
  commitHash : option string;
  id : option Z;
}.

Definition with_id (i : option Z) (l : t) : t :=
  mk (projectPath l) (filePath l) (language l) (timestamp l) (duration l)
     (editor l) (commitHash l) i.

End ActivityLog.

(** Modelled from the spec: the declaration of GitCommit is not among the
    sources; the fields are those of the spec's RevisionRecord under the
    names the git tracker uses when it builds one. *)
Module GitCommit.

Record t : Type := mk {
  projectPath : string;
  commitHash : string;
  message : string;
  author : string;
  authorEmail : string;
  timestamp : Js.number;
  filesChanged : Z;
  linesAdded : Z;
  linesDeleted : Z;
  branch : option string;
  id : option Z;
}.

Definition with_id (i : option Z) (c : t) : t :=
  mk (projectPath c) (commitHash c) (message c) (author c) (authorEmail c)
     (timestamp c) (filesChanged c) (linesAdded c) (linesDeleted c)
     (branch c) i.

End GitCommit.

(** ** The record store *)

(** Modelled from the spec: the Database class (src/storage/database.ts) is
    not among the sources.  Section 6 of the spec gives its contract:
    insertActivity(record) -> id, insertRevision(record) -> id,
    unsyncedActivities(limit) -> list, unsyncedRevisions(limit) -> list,
    deleteActivities(ids), deleteRevisions(ids); an insert allocates the
    identifier, the unsynced query returns the oldest records first, and a
    record leaves the store only through a delete, which the sync loop
    issues once the record is acknowledged: every record in the store is an
    unsynced one.  Any call may fail: the caller supplies, per call, whether
    the store throws. *)
Module Database.

Record t : Type := mk {
  activity_logs : list ActivityLog.t;
  git_commits : list GitCommit.t;
  activity_seq : Z;
  commit_seq : Z;
}.

Definition empty : t := mk [] [] 0 0.

(** Which calls of the store throw, and what. *)
Record Faults : Type := mkFaults {
  insertActivity_fault : ActivityLog.t -> option Error;
  getUnsyncedLogs_fault : option Error;
  deleteLogs_fault : option Error;
  insertCommit_fault : GitCommit.t -> option Error;
  getUnsyncedCommits_fault : option Error;
  deleteCommits_fault : option Error;
}.

Definition no_faults : Faults :=
  mkFaults (fun _ => None) None None (fun _ => None) None None.

Definition insertActivity (f : Faults) (log : ActivityLog.t) (d : t)
  : outcome Z * t :=
  match insertActivity_fault f log with
  | Some e => (Rejected e, d)
  | None =>
      let i := activity_seq d + 1 in
      (Resolved i,
       mk (activity_logs d ++ [ActivityLog.with_id (Some i) log])
          (git_commits d) i (commit_seq d))
  end.

Definition insertCommit (f : Faults) (c : GitCommit.t) (d : t)
  : outcome Z * t :=
  match insertCommit_fault f c with
  | Some e => (Rejected e, d)
  | None =>
      let i := commit_seq d + 1 in
      (Resolved i,
       mk (activity_logs d)
          (git_commits d ++ [GitCommit.with_id (Some i) c])
          (activity_seq d) i)
  end.

Definition getUnsyncedLogs (f : Faults) (limit : nat) (d : t)
  : outcome (list ActivityLog.t) * t :=
  match getUnsyncedLogs_fault f with
  | Some e => (Rejected e, d)
  | None => (Resolved (take limit (activity_logs d)), d)
  end.

Definition getUnsyncedCommits (f : Faults) (limit : nat) (d : t)
  : outcome (list GitCommit.t) * t :=
  match getUnsyncedCommits_fault f with
  | Some e => (Rejected e, d)
  | None => (Resolved (take limit (git_commits d)), d)
  end.

(** Does a row with this identifier survive the deletion of [ids]? *)
Definition kept (ids : list Z) (i : option Z) : bool :=
  match i with
  | Some n => negb (bool_decide (n ∈ ids))
  | None => true
  end.

Definition deleteLogs (f : Faults) (ids : list Z) (d : t)
  : outcome unit * t :=
  match deleteLogs_fault f with
  | Some e => (Rejected e, d)
  | None =>
      (Resolved tt,
       mk (List.filter (fun l => kept ids (ActivityLog.id l)) (activity_logs d))
          (git_commits d) (activity_seq d) (commit_seq d))
  end.

Definition deleteCommits (f : Faults) (ids : list Z) (d : t)
  : outcome unit * t :=
  match deleteCommits_fault f with
  | Some e => (Rejected e, d)
  | None =>
      (Resolved tt,
       mk (activity_logs d)
          (List.filter (fun c => kept ids (GitCommit.id c)) (git_commits d))
          (activity_seq d) (commit_seq d))
  end.

End Database.

(** ** The world: every object of the running extension *)

(** The private maps of the GitTracker object. *)
Record GitTrackerFields : Type := mkGit {
  currentCommit : gmap string string;   (* projectPath -> commitHash *)
  commitStartTime : gmap string Z;      (* commitHash -> startTime *)
}.

(** The private fields of the Tracker object.  [gitTracker] tells whether
    the constructor was given the git tracker; [disposable] and [syncTimer]
    hold the handle of the listener group and of the timer, when set. *)
Record TrackerFields : Type := mkTracker {
  gitTracker : bool;
  disposable : option nat;
  isTracking : bool;
  queue : list ActivityLog.t;
  syncTimer : option nat;
  lastActivityTime : Z;
}.

(** The part of the editor host the tracker acts on: the timers that are
    armed and have not fired, and the listener groups that are subscribed. *)
Record Host : Type := mkHost {
  timers : list nat;
  timer_seq : nat;
  listeners : list nat;
  listener_seq : nat;
}.

Record World : Type := mkWorld {
  logger : Logger.t;
  statusBarManager : StatusBarManager.t;
  db : Database.t;
  git : GitTrackerFields;
  tracker : TrackerFields;
  host : Host;
}.

Definition with_logger (x : Logger.t) (w : World) : World :=
  mkWorld x (statusBarManager w) (db w) (git w) (tracker w) (host w).
Definition with_statusBarManager (x : StatusBarManager.t) (w : World) : World :=
  mkWorld (logger w) x (db w) (git w) (tracker w) (host w).
Definition with_db (x : Database.t) (w : World) : World :=
  mkWorld (logger w) (statusBarManager w) x (git w) (tracker w) (host w).
Definition with_git (x : GitTrackerFields) (w : World) : World :=
  mkWorld (logger w) (statusBarManager w) (db w) x (tracker w) (host w).
Definition with_tracker (x : TrackerFields) (w : World) : World :=
  mkWorld (logger w) (statusBarManager w) (db w) (git w) x (host w).
Definition with_host (x : Host) (w : World) : World :=
  mkWorld (logger w) (statusBarManager w) (db w) (git w) (tracker w) x.

Definition set_disposable (x : option nat) (t : TrackerFields) : TrackerFields :=
  mkTracker (gitTracker t) x (isTracking t) (queue t) (syncTimer t)
            (lastActivityTime t).
Definition set_isTracking (x : bool) (t : TrackerFields) : TrackerFields :=
  mkTracker (gitTracker t) (disposable t) x (queue t) (syncTimer t)
            (lastActivityTime t).
Definition set_queue (x : list ActivityLog.t) (t : TrackerFields) : TrackerFields :=
  mkTracker (gitTracker t) (disposable t) (isTracking t) x (syncTimer t)
            (lastActivityTime t).
Definition set_syncTimer (x : option nat) (t : TrackerFields) : TrackerFields :=
  mkTracker (gitTracker t) (disposable t) (isTracking t) (queue t) x
            (lastActivityTime t).
Definition set_lastActivityTime (x : Z) (t : TrackerFields) : TrackerFields :=
  mkTracker (gitTracker t) (disposable t) (isTracking t) (queue t)
            (syncTimer t) x.

(** The world right after the extension has constructed its objects. *)
Definition initial_world (withGit : bool) : World :=
  mkWorld Logger.getInstance StatusBarManager.constructor Database.empty
          (mkGit ∅ ∅)
          (mkTracker withGit None false [] None 0)
          (mkHost [] 0 [] 0).

(** ** Asynchronous code: state passing with rejection *)

Definition Async (A : Type) : Type := World -> outcome A * World.

Definition ret {A : Type} (a : A) : Async A :=
  fun w => (Resolved a, w).

(** [const x = await m; k x] *)
Definition bind {A B : Type} (m : Async A) (k : A -> Async B) : Async B :=
  fun w =>
    match m w with
    | (Resolved a, w') => k a w'
    | (Rejected e, w') => (Rejected e, w')
    end.

Declare Scope async_scope.
Delimit Scope async_scope with async.
Bind Scope async_scope with Async.
Notation "'let*' x ':=' m 'in' k" := (bind m (fun x => k))
  (at level 10, x name, m at level 100, k at level 200) : async_scope.
Notation "'await' m 'in' k" := (bind m (fun _ => k))
  (at level 10, m at level 100, k at level 200) : async_scope.
Local Open Scope async_scope.

(** [try { m } catch (e) { h e }] *)
Definition try_catch {A : Type} (m : Async A) (h : Error -> Async A) : Async A :=
  fun w =>
    match m w with
    | (Resolved a, w') => (Resolved a, w')
    | (Rejected e, w') => h e w'
    end.

(** A synchronous, non-throwing statement. *)
Definition exec_ (f : World -> World) : Async unit :=
  fun w => (Resolved tt, f w).

(** A call of the store. *)
Definition on_db {A : Type} (f : Database.t -> outcome A * Database.t) : Async A :=
  fun w => let '(r, d) := f (db w) in (r, with_db d w).

(** [this.logger.<level>(...)] *)
Definition log_ (f : Logger.t -> Logger.t) : World -> World :=
  fun w => with_logger (f (logger w)) w.

(** [this.statusBarManager.updateStatus(message)] *)
Definition updateStatus (message : string) : World -> World :=
  fun w => with_statusBarManager
             (StatusBarManager.updateStatus message None (statusBarManager w)) w.

(** ** ApiClient (src/utils/logger.ts, second part) *)

(** What the tracker needs of an API client: the two submit calls.  A client
    talks to the network and writes to the logger, and to nothing else: a
    call gives its result and what it appends to the log. *)
Record ApiClientI : Type := mkApi {
  api_syncActivities :
    list ActivityLog.t -> outcome bool * (Logger.t -> Logger.t);
  api_syncCommits :
    list GitCommit.t -> outcome bool * (Logger.t -> Logger.t);
}.

Module ApiClient.

(** The GraphQL client: what [this.client.request] does with each of the two
    mutations ([None]: the request succeeds; [Some e]: it throws [e]). *)
Record GraphQLClient : Type := mkClient {
  request_SyncActivity : list ActivityLog.t -> option Error;
  request_SyncCommits : list GitCommit.t -> option Error;
}.

Definition endpoint : string := "https://codechrono.mukulrai.me/api/graphql".

Definition activity_input (log : ActivityLog.t) : ActivityLog.t :=
  ActivityLog.mk (ActivityLog.projectPath log) (ActivityLog.filePath log)
    (ActivityLog.language log) (ActivityLog.timestamp log)
    (ActivityLog.duration log)
    (if Js.truthy (ActivityLog.editor log) then ActivityLog.editor log
     else "vscode")
    (ActivityLog.commitHash log) None.

Definition commit_input (c : GitCommit.t) : GitCommit.t :=
  GitCommit.with_id None c.

Definition syncActivities (client : GraphQLClient) (logs : list ActivityLog.t)
  : outcome bool * (Logger.t -> Logger.t) :=
  match logs with
  | [] => (Resolved true, fun lg => lg)
  | _ :: _ =>
      let input := map activity_input logs in
      match request_SyncActivity client input with
      | None =>
          (Resolved true,
           Logger.info ("Synced " +:+ pretty (length logs) +:+
                        " activities to " +:+ endpoint))
      | Some error =>
          (Resolved false, Logger.error "Failed to sync activities" error)
      end
  end.

Definition syncCommits (client : GraphQLClient) (commits : list GitCommit.t)
  : outcome bool * (Logger.t -> Logger.t) :=
  match commits with
  | [] => (Resolved true, fun lg => lg)
  | _ :: _ =>
      let input := map commit_input commits in
      match request_SyncCommits client input with
      | None =>
          (Resolved true,
           Logger.info ("Synced " +:+ pretty (length commits) +:+
                        " commits to " +:+ endpoint))
      | Some error =>
          (Resolved false, Logger.error "Failed to sync commits" error)
      end
  end.

(** The object the extension passes to the tracker. *)
Definition constructor (client : GraphQLClient) : ApiClientI :=
  mkApi (syncActivities client) (syncCommits client).

End ApiClient.

(** ** GitTracker *)

Module GitTracker.

(** The git executable: the standard output of a command run in a working
    directory, or the error [execAsync] rejects with. *)
Definition Git : Type := string -> string -> outcome string.

(** [await execAsync(command, { cwd })] *)
Definition execAsync (g : Git) (command cwd : string) : Async string :=
  fun w => (g command cwd, w).

(** [await Promise.all([a, b, c, d])] of four commands that were all started:
    it rejects as soon as one of them does (the model reports the first
    rejection in array order). *)
Definition Promise_all4 (a b c d : outcome string)
  : Async (string * string * string * string) :=
  fun w =>
    match a, b, c, d with
    | Resolved x, Resolved y, Resolved z, Resolved u => (Resolved (x, y, z, u), w)
    | Rejected e, _, _, _ => (Rejected e, w)
    | _, Rejected e, _, _ => (Rejected e, w)
    | _, _, Rejected e, _ => (Rejected e, w)
    | _, _, _, Rejected e => (Rejected e, w)
    end.

(** The fields [getCommitDetails] fills of its Partial<GitCommit>. *)
Record CommitDetails : Type := mkDetails {
  message : string;
  author : string;
  authorEmail : string;
  timestamp : Js.number;
  filesChanged : Z;
  linesAdded : Z;
  linesDeleted : Z;
}.

(** [`${x}`] of a string that may be undefined. *)
Definition show (x : option string) : string := default "undefined" x.

Definition getCurrentCommit (g : Git) (projectPath : string)
  : Async (option string) :=
  try_catch
    (let* stdout := execAsync g "git rev-parse HEAD" projectPath in
     ret (Some (Js.trim stdout)))
    (fun _ =>
       await exec_ (log_ (Logger.debug
         ("Not a git repository or error getting commit: " +:+ projectPath))) in
       ret None).

Definition getCurrentBranch (g : Git) (projectPath : string)
  : Async (option string) :=
  try_catch
    (let* stdout := execAsync g "git branch --show-current" projectPath in
     ret (Some (Js.trim stdout)))
    (fun _ => ret None).

Definition getCommitDetails (g : Git) (projectPath commitHash : string)
  : Async (option CommitDetails) :=
  try_catch
    (let* results := Promise_all4
       (g ("git log -1 --format=%s " +:+ commitHash) projectPath)
       (g ("git log -1 --format=%an " +:+ commitHash) projectPath)
       (g ("git log -1 --format=%ae " +:+ commitHash) projectPath)
       (g ("git log -1 --format=%at " +:+ commitHash) projectPath) in
     let '(messageResult, authorResult, emailResult, timestampResult) :=
       results in
     let message := Js.trim messageResult in
     let author := Js.trim authorResult in
     let authorEmail := Js.trim emailResult in
     let timestamp := Js.times (Js.parseInt (Js.trim timestampResult)) 1000 in
     let* diffStats := execAsync g
       ("git show --stat --format=" +:+ Js.dquote +:+ Js.dquote +:+ " "
        +:+ commitHash) projectPath in
     let filesChanged := Js.count_newlines diffStats in
     let '(linesAdded, linesDeleted) :=
       match Js.match_stats diffStats with
       | Some (g1, g2) =>
           (Js.or_zero (Js.parseInt g1), Js.or_zero (Js.parseInt g2))
       | None => (0, 0)
       end in
     ret (Some (mkDetails message author authorEmail timestamp
                           filesChanged linesAdded linesDeleted)))
    (fun error =>
       await exec_ (log_ (Logger.error "Error getting commit details" error)) in
       ret None).

(** [this.currentCommit.set(projectPath, commit);
     this.commitStartTime.set(commit, Date.now());] *)
Definition set_commit (projectPath commit : string) (now : Z) (w : World) : World :=
  with_git (mkGit (<[projectPath := commit]> (currentCommit (git w)))
                  (<[commit := now]> (commitStartTime (git w)))) w.

(** The GitCommit both callers build from the details and the branch;
    [branch || undefined] drops an empty branch name. *)
Definition make_commit (projectPath commit : string) (d : CommitDetails)
    (branch : option string) : GitCommit.t :=
  GitCommit.mk projectPath commit (message d) (author d) (authorEmail d)
    (timestamp d) (filesChanged d) (linesAdded d) (linesDeleted d)
    (match branch with
     | Some b => if Js.truthy b then Some b else None
     | None => None
     end)
    None.

(** [if (!commit)]: null and the empty string are falsy. *)
Definition falsy (commit : option string) : bool :=
  match commit with
  | Some c => negb (Js.truthy c)
  | None => true
  end.

(** [now] is what [Date.now()] returns when the maps are updated. *)
Definition trackCommitChange (g : Git) (f : Database.Faults) (now : Z)
    (projectPath : string) : Async unit :=
  let* newCommit := getCurrentCommit g projectPath in
  if falsy newCommit then ret tt
  else
    let newCommit := default EmptyString newCommit in
    fun w =>
      let oldCommit := currentCommit (git w) !! projectPath in
      (if bool_decide (oldCommit = Some newCommit) then ret tt
       else
         await exec_ (log_ (Logger.info
           ("Commit changed for " +:+ projectPath +:+ ": " +:+ show oldCommit
            +:+ " -> " +:+ newCommit))) in
         let* commitDetails := getCommitDetails g projectPath newCommit in
         let* branch := getCurrentBranch g projectPath in
         await
           match commitDetails with
           | Some d =>
               await on_db (Database.insertCommit f
                              (make_commit projectPath newCommit d branch)) in
               exec_ (log_ (Logger.info
                 ("Stored git commit: " +:+ String.substring 0 8 newCommit)))
           | None => ret tt
           end in
         exec_ (set_commit projectPath newCommit now)) w.

(** [getActiveCommit(projectPath)] *)
Definition getActiveCommit (projectPath : string) (w : World) : option string :=
  currentCommit (git w) !! projectPath.

(** [now] is what [Date.now()] returns when the maps are updated. *)
Definition initializeProject (g : Git) (f : Database.Faults) (now : Z)
    (projectPath : string) : Async unit :=
  let* commit := getCurrentCommit g projectPath in
  if falsy commit then ret tt
  else
    let commit := default EmptyString commit in
    await exec_ (set_commit projectPath commit now) in
    let* commitDetails := getCommitDetails g projectPath commit in
    let* branch := getCurrentBranch g projectPath in
    match commitDetails with
    | Some d =>
        await on_db (Database.insertCommit f
                       (make_commit projectPath commit d branch)) in
        ret tt
    | None => ret tt
    end.

End GitTracker.

(** ** The editor host, as far as the tracker uses it *)

Record TextDocument : Type := mkDocument {
  fileName : string;
  languageId : string;
  uri : string;
}.

Record TextEditor : Type := mkEditor {
  document : TextDocument;
}.

(** What the [vscode] namespace answers while one event is handled:
    [vscode.window.activeTextEditor] and, for a document uri, the [fsPath]
    of [vscode.workspace.getWorkspaceFolder(uri)]. *)
Record VsCode : Type := mkVsCode {
  activeTextEditor : option TextEditor;
  getWorkspaceFolder : string -> option string;
}.

(** [setTimeout(callback, delay)]: arms a timer and returns its handle. *)
Definition setTimeout (delay : Z) (w : World) : nat * World :=
  let h := host w in
  (timer_seq h,
   with_host (mkHost (timers h ++ [timer_seq h]) (S (timer_seq h))
                     (listeners h) (listener_seq h)) w).

(** [clearTimeout(handle)]: disarms the timer if it has not fired. *)
Definition clearTimeout (handle : nat) (w : World) : World :=
  let h := host w in
  with_host (mkHost (List.filter (fun t => negb (Nat.eqb t handle)) (timers h))
                    (timer_seq h) (listeners h) (listener_seq h)) w.

(** The three event subscriptions of [startTracking], collected in one
    disposable by [vscode.Disposable.from]. *)
Definition subscribe (w : World) : nat * World :=
  let h := host w in
  (listener_seq h,
   with_host (mkHost (timers h) (timer_seq h)
                     (listeners h ++ [listener_seq h]) (S (listener_seq h))) w).

(** [disposable.dispose()] *)
Definition dispose (handle : nat) (w : World) : World :=
  let h := host w in
  with_host (mkHost (timers h) (timer_seq h)
                    (List.filter (fun l => negb (Nat.eqb l handle)) (listeners h))
                    (listener_seq h)) w.

(** ** Tracker (src/sync/tracker.ts) *)

(** What one iteration of the sync loop meets outside the tracker: the
    failures of the store and the API client. *)
Record SyncEnv : Type := mkEnv {
  env_faults : Database.Faults;
  env_api : ApiClientI;
}.

(** [await this.apiClient.<call>(...)] *)
Definition api_call {A : Type} (call : outcome A * (Logger.t -> Logger.t))
  : Async A :=
  fun w => (fst call, log_ (snd call) w).

Module Tracker.

Definition debounceInterval : Z := 2000.
Definition maxIdleTime : Z := 5 * 60 * 1000.
Definition syncInterval : Z := 60000.

(** [now] is what [Date.now()] returns. *)
Definition handleActivity (vs : VsCode) (now : Z) (w : World) : World :=
  let timeDiff := now - lastActivityTime (tracker w) in
  if timeDiff <? debounceInterval then w
  else
    let duration :=
      if negb (lastActivityTime (tracker w) =? 0) && (timeDiff <? maxIdleTime)
      then timeDiff else 0 in
    let w := with_tracker (set_lastActivityTime now (tracker w)) w in
    match activeTextEditor vs with
    | None => w
    | Some editor =>
        let doc := document editor in
        let filePath := fileName doc in
        let projectPath :=
          match getWorkspaceFolder vs (uri doc) with
          | Some fsPath => if Js.truthy fsPath then fsPath else EmptyString
          | None => EmptyString
          end in
        let language := languageId doc in
        let commitHash :=
          if gitTracker (tracker w)
          then GitTracker.getActiveCommit projectPath w else None in
        let log :=
          ActivityLog.mk projectPath filePath language now duration "vscode"
                         commitHash None in
        let w := with_tracker (set_queue (queue (tracker w) ++ [log]) (tracker w)) w in
        updateStatus "CodeChrono: Tracking..." w
    end.

Definition onDocumentChange := handleActivity.
Definition onSelectionChange := handleActivity.
Definition onDocumentSave := handleActivity.

(** [for (const log of logsToSave) { try { await insertActivity(log) }
     catch (err) { logger.error(...) } }] *)
Fixpoint save_logs (f : Database.Faults) (logsToSave : list ActivityLog.t)
    (w : World) : World :=
  match logsToSave with
  | [] => w
  | log :: rest =>
      save_logs f rest
        (snd (try_catch
                (await on_db (Database.insertActivity f log) in ret tt)
                (fun err =>
                   exec_ (log_ (Logger.error "Failed to save activity to DB" err)))
                w))
  end.

(** Flush queue to DB *)
Definition syncLoop_flush (f : Database.Faults) (w : World) : World :=
  match queue (tracker w) with
  | [] => w
  | _ :: _ =>
      let logsToSave := queue (tracker w) in
      let w := with_tracker (set_queue [] (tracker w)) w in
      save_logs f logsToSave w
  end.

(** [xs.map((x) => x.id!).filter((id) => id !== undefined)] *)
Definition ids_of {A : Type} (id : A -> option Z) (xs : list A) : list Z :=
  omap id xs.

(** Sync activity logs *)
Definition sync_activity_logs (env : SyncEnv) : Async unit :=
  let f := env_faults env in
  let* logs := on_db (Database.getUnsyncedLogs f 50) in
  match logs with
  | [] => ret tt
  | _ :: _ =>
      let* success := api_call (api_syncActivities (env_api env) logs) in
      if success : bool then
        let ids := ids_of ActivityLog.id logs in
        await on_db (Database.deleteLogs f ids) in
        exec_ (updateStatus "CodeChrono: Synced")
      else
        exec_ (updateStatus "CodeChrono: Offline")
  end.

(** Sync git commits *)
Definition sync_git_commits (env : SyncEnv) : Async unit :=
  let f := env_faults env in
  let* commits := on_db (Database.getUnsyncedCommits f 20) in
  match commits with
  | [] => ret tt
  | _ :: _ =>
      let* success := api_call (api_syncCommits (env_api env) commits) in
      if success : bool then
        let ids := ids_of GitCommit.id commits in
        await on_db (Database.deleteCommits f ids) in
        exec_ (log_ (Logger.info
          ("Synced " +:+ pretty (length commits) +:+ " commits")))
      else ret tt
  end.

(** The body of the [try] block. *)
Definition syncLoop_push (env : SyncEnv) : Async unit :=
  await sync_activity_logs env in
  sync_git_commits env.

(** Sync DB to API *)
Definition syncLoop_sync (env : SyncEnv) (w : World) : World :=
  snd (try_catch (syncLoop_push env)
         (fun err => exec_ (log_ (Logger.error "Sync loop error" err))) w).

(** [this.syncTimer = setTimeout(() => this.syncLoop(), this.syncInterval)] *)
Definition syncLoop_reschedule (w : World) : World :=
  let '(handle, w) := setTimeout syncInterval w in
  with_tracker (set_syncTimer (Some handle) (tracker w)) w.

(** Where an iteration of the sync loop can be suspended: it has passed the
    guard and still has to flush, to push, or only to re-arm the timer. *)
Inductive Suspended : Type := BeforeFlush | BeforePush | BeforeReschedule.

(** The rest of an iteration from a suspension point. *)
Definition syncLoop_resume (env : SyncEnv) (p : Suspended) (w : World) : World :=
  match p with
  | BeforeFlush =>
      syncLoop_reschedule (syncLoop_sync env (syncLoop_flush (env_faults env) w))
  | BeforePush => syncLoop_reschedule (syncLoop_sync env w)
  | BeforeReschedule => syncLoop_reschedule w
  end.

(** The part of an iteration that has run when it is suspended at [p]. *)
Definition syncLoop_until (env : SyncEnv) (p : Suspended) (w : World) : World :=
  match p with
  | BeforeFlush => w
  | BeforePush => syncLoop_flush (env_faults env) w
  | BeforeReschedule => syncLoop_sync env (syncLoop_flush (env_faults env) w)
  end.

(** One iteration that nothing interrupts. *)
Definition syncLoop (env : SyncEnv) (w : World) : World :=
  if negb (isTracking (tracker w)) then w
  else syncLoop_resume env BeforeFlush w.

Definition stopTracking (w : World) : World :=
  if negb (isTracking (tracker w)) then w
  else
    let w := with_tracker (set_isTracking false (tracker w)) w in
    let w := log_ (Logger.info "Tracking stopped") w in
    let w := updateStatus "CodeChrono: Paused" w in
    let w :=
      match disposable (tracker w) with
      | Some d => dispose d w
      | None => w
      end in
    match syncTimer (tracker w) with
    | Some handle => clearTimeout handle w
    | None => w
    end.

(** [startTracking] up to its last statement, the call of [syncLoop]. *)
Definition startTracking_subscribe (w : World) : World :=
  let w := with_tracker (set_isTracking true (tracker w)) w in
  let w := log_ (Logger.info "Tracking started") w in
  let w := updateStatus "CodeChrono: Active" w in
  let '(d, w) := subscribe w in
  with_tracker (set_disposable (Some d) (tracker w)) w.

(** [startTracking] with a first iteration that nothing interrupts. *)
Definition startTracking (env : SyncEnv) (w : World) : World :=
  if isTracking (tracker w) then w
  else syncLoop env (startTracking_subscribe w).

(** The host fires the timer [handle]: the timer is no longer armed and its
    callback calls [syncLoop]. *)
Definition fire_timer (env : SyncEnv) (handle : nat) (w : World) : World :=
  if bool_decide (handle ∈ timers (host w))
  then syncLoop env (clearTimeout handle w)
  else w.

(** The host delivers one editor event: every subscribed listener group
    calls its handler, and each handler calls [handleActivity]. *)
Definition deliver (vs : VsCode) (now : Z) (w : World) : World :=
  fold_left (fun w _ => handleActivity vs now w) (listeners (host w)) w.

(** A raw event: what the clock and the editor say when it arrives. *)
Record RawEvent : Type := mkEvent {
  ev_now : Z;
  ev_vscode : VsCode;
}.

(** The handler called on each event of a sequence, in order. *)
Definition handleAll (events : list RawEvent) (w : World) : World :=
  fold_left (fun w e => handleActivity (ev_vscode e) (ev_now e) w) events w.

End Tracker.

(** ** The later revision of the tracker (src/core/tracker.ts) *)

Module CoreTracker.

Definition debounceInterval : Z := 2000.
Definition maxIdleTime : Z := 5 * 60 * 1000.
Definition syncInterval : Z := 60000.

Section HandleActivity.

(** The two lookups this revision asks of the git tracker; the revision of
    the git tracker that defines them is not among the sources. *)
Variable getGitRootForPath : string -> World -> option string.
Variable getActiveCommitForPath : string -> World -> option string.

(** [if (x)] on a string that may be undefined or null. *)
Definition truthy_opt (x : option string) : bool :=
  match x with
  | Some s => Js.truthy s
  | None => false
  end.

(** [now] is what [Date.now()] returns. *)
Definition handleActivity (vs : VsCode) (now : Z) (w : World) : World :=
  let timeDiff := now - lastActivityTime (tracker w) in
  (* Debounce very rapid events *)
  if timeDiff <? debounceInterval then w
  else
    let duration :=
      if negb (lastActivityTime (tracker w) =? 0) && (timeDiff <? maxIdleTime)
      then timeDiff else 0 in
    let w := with_tracker (set_lastActivityTime now (tracker w)) w in
    match activeTextEditor vs with
    | None => w
    | Some editor =>
        let doc := document editor in
        let filePath := fileName doc in
        let language := languageId doc in
        let gitRoot :=
          if gitTracker (tracker w) then getGitRootForPath filePath w else None in
        let projectPath :=
          if truthy_opt gitRoot then default EmptyString gitRoot
          else
            match getWorkspaceFolder vs (uri doc) with
            | Some fsPath => if Js.truthy fsPath then fsPath else EmptyString
            | None => EmptyString
            end in
        let commitHash :=
          if gitTracker (tracker w) then getActiveCommitForPath filePath w
          else None in
        let w := log_ (Logger.debug
          ("Tracking activity: " +:+ filePath +:+ " | " +:+ language +:+ " | "
           +:+ pretty duration +:+ "ms | commitHash: "
           +:+ GitTracker.show commitHash)) w in
        let w :=
          if negb (truthy_opt commitHash) && Js.truthy projectPath
          then log_ (Logger.debug
                 ("No active commit found for file: " +:+ filePath
                  +:+ " (project: " +:+ projectPath +:+ ")")) w
          else w in
        let log :=
          ActivityLog.mk projectPath filePath language now duration "vscode"
                         commitHash None in
        let w := with_tracker (set_queue (queue (tracker w) ++ [log]) (tracker w)) w in
        updateStatus "CodeChrono: Tracking..." w
    end.

End HandleActivity.

(** The flush block of this revision's [syncLoop] is, word for word, the one
    of src/sync/tracker.ts. *)
Definition syncLoop_flush : Database.Faults -> World -> World :=
  Tracker.syncLoop_flush.

(** Sync activity logs: this revision logs at debug level and deletes only
    when there is an identifier to delete. *)
Definition sync_activity_logs (env : SyncEnv) : Async unit :=
  let f := env_faults env in
  let* logs := on_db (Database.getUnsyncedLogs f 50) in
  match logs with
  | [] => ret tt
  | _ :: _ =>
      await exec_ (log_ (Logger.debug
        ("Syncing " +:+ pretty (length logs) +:+ " activity logs"))) in
      let* success := api_call (api_syncActivities (env_api env) logs) in
      if success : bool then
        let ids := Tracker.ids_of ActivityLog.id logs in
        await
          match ids with
          | [] => ret tt
          | _ :: _ => on_db (Database.deleteLogs f ids)
          end in
        exec_ (updateStatus "CodeChrono: Synced")
      else
        exec_ (updateStatus "CodeChrono: Offline")
  end.

(** Sync git commits *)
Definition sync_git_commits (env : SyncEnv) : Async unit :=
  let f := env_faults env in
  let* commits := on_db (Database.getUnsyncedCommits f 20) in
  match commits with
  | [] => ret tt
  | _ :: _ =>
      await exec_ (log_ (Logger.debug
        ("Syncing " +:+ pretty (length commits) +:+ " commits"))) in
      let* success := api_call (api_syncCommits (env_api env) commits) in
      if success : bool then
        let ids := Tracker.ids_of GitCommit.id commits in
        await
          match ids with
          | [] => ret tt
          | _ :: _ => on_db (Database.deleteCommits f ids)
          end in
        exec_ (log_ (Logger.info
          ("Synced " +:+ pretty (length commits) +:+ " commits")))
      else ret tt
  end.

(** The body of the [try] block. *)
Definition syncLoop_push (env : SyncEnv) : Async unit :=
  await sync_activity_logs env in
  sync_git_commits env.

(** Sync DB to API *)
Definition syncLoop_sync (env : SyncEnv) (w : World) : World :=
  snd (try_catch (syncLoop_push env)
         (fun err => exec_ (log_ (Logger.error "Sync loop error" err))) w).

(** [this.syncTimer = setTimeout(() => this.syncLoop(), this.syncInterval)] *)
Definition syncLoop_reschedule (w : World) : World :=
  let '(handle, w) := setTimeout syncInterval w in
  with_tracker (set_syncTimer (Some handle) (tracker w)) w.

(** One iteration that nothing interrupts. *)
Definition syncLoop (env : SyncEnv) (w : World) : World :=
  if negb (isTracking (tracker w)) then w
  else syncLoop_reschedule (syncLoop_sync env (syncLoop_flush (env_faults env) w)).

End CoreTracker.

(** ** Notions used in the statements *)

(** What the debounce engine's output shows of a record: its time stamp and
    the duration attributed to it. *)
Definition stamp (r : ActivityLog.t) : Z * Z :=
  (ActivityLog.timestamp r, ActivityLog.duration r).

(** The three ways one call of the handler can go, read off the state before
    and after: the event is discarded by the debounce check; it passes the
    check and there is no active editor; it passes and a record is pushed. *)
Inductive handled (vs : VsCode) (now : Z) (w w' : World) : Prop :=
| handled_discard :
    now - lastActivityTime (tracker w) < Tracker.debounceInterval ->
    w' = w ->
    handled vs now w w'
| handled_no_editor :
    Tracker.debounceInterval <= now - lastActivityTime (tracker w) ->
    activeTextEditor vs = None ->
    lastActivityTime (tracker w') = now ->
    queue (tracker w') = queue (tracker w) ->
    handled vs now w w'
| handled_emit (r : ActivityLog.t) :
    Tracker.debounceInterval <= now - lastActivityTime (tracker w) ->
    is_Some (activeTextEditor vs) ->
    lastActivityTime (tracker w') = now ->
    queue (tracker w') = queue (tracker w) ++ [r] ->
    ActivityLog.timestamp r = now ->
    ActivityLog.duration r =
      (if negb (lastActivityTime (tracker w) =? 0)
          && (now - lastActivityTime (tracker w) <? Tracker.maxIdleTime)
       then now - lastActivityTime (tracker w) else 0) ->
    handled vs now w w'.

(** Sample surroundings for the examples: an editor showing a TypeScript
    file of the workspace folder /p, and no editor at all. *)
Definition editor_open : VsCode :=
  mkVsCode (Some (mkEditor (mkDocument "/p/a.ts" "typescript" "file:///p/a.ts")))
           (fun _ => Some "/p").

Definition editor_closed : VsCode :=
  mkVsCode None (fun _ => None).

(** Raw events at the given clock readings, all in the same surroundings. *)
Definition events_at (vs : VsCode) (times : list Z) : list Tracker.RawEvent :=
  map (fun t => Tracker.mkEvent t vs) times.

(** The records of the pending batch, as time stamp and duration. *)
Definition pending (w : World) : list (Z * Z) :=
  map stamp (queue (tracker w)).

(** The same run of events through the later revision's handler. *)
Definition CoreTracker_handleAll (root commit : string -> World -> option string)
    (events : list Tracker.RawEvent) (w : World) : World :=
  fold_left (fun w e =>
               CoreTracker.handleActivity root commit
                 (Tracker.ev_vscode e) (Tracker.ev_now e) w) events w.

(** The spec's rule for the duration of a record (section 4.1, step 3):
    0 for the first-ever event ([lastActivityTime] is 0) or after a gap of at
    least [maxIdleTime], the gap otherwise. *)
Definition spec_duration (last gap : Z) : Z :=
  if (last =? 0) || (Tracker.maxIdleTime <=? gap) then 0 else gap.

(** Records in the order they were pushed, each at least [debounceInterval]
    after the one before. *)
Definition spaced (q : list ActivityLog.t) : Prop :=
  forall (i j : nat) (r1 r2 : ActivityLog.t),
    (i < j)%nat -> q !! i = Some r1 -> q !! j = Some r2 ->
    Tracker.debounceInterval <= ActivityLog.timestamp r2 - ActivityLog.timestamp r1.

(** The invariant of the engine: the pending batch is spaced and none of its
    records is later than [lastActivityTime]. *)
Definition spaced_upto (w : World) : Prop :=
  spaced (queue (tracker w))
  /\ forall r, r ∈ queue (tracker w) ->
               ActivityLog.timestamp r <= lastActivityTime (tracker w).

(** Does the store accept this record when the flush inserts it? *)
Definition stored (f : Database.Faults) (log : ActivityLog.t) : bool :=
  match Database.insertActivity_fault f log with
  | None => true
  | Some _ => false
  end.

(** A record without its store identifier. *)
Definition payload (log : ActivityLog.t) : ActivityLog.t :=
  ActivityLog.with_id None log.

(** The logger after an error line for each of the given failures. *)
Definition logged_failures (errs : list Error) (lg : Logger.t) : Logger.t :=
  fold_left (fun lg e => Logger.error "Failed to save activity to DB" e lg) errs lg.

(** The rows of a table carry distinct identifiers that the table's counter
    has already passed. *)
Definition rows_wf {A : Type} (id : A -> option Z) (rows : list A) (seq : Z) : Prop :=
  NoDup (map id rows)
  /\ forall r, r ∈ rows -> exists i, id r = Some i /\ i <= seq.

(** The invariant of the store. *)
Definition store_wf (d : Database.t) : Prop :=
  rows_wf ActivityLog.id (Database.activity_logs d) (Database.activity_seq d)
  /\ rows_wf GitCommit.id (Database.git_commits d) (Database.commit_seq d).

(** The remote collector acknowledged the batch: the submit call returned
    true (it neither returned false nor threw). *)
Definition acknowledged (res : outcome bool) : Prop := res = Resolved true.

(** The submit call threw. *)
Definition threw {A : Type} (res : outcome A) : Prop :=
  match res with
  | Rejected _ => True
  | Resolved _ => False
  end.

(** The store answers its queries and deletions (an insert may still fail). *)
Definition store_answers (f : Database.Faults) : Prop :=
  Database.getUnsyncedLogs_fault f = None
  /\ Database.deleteLogs_fault f = None
  /\ Database.getUnsyncedCommits_fault f = None
  /\ Database.deleteCommits_fault f = None.

(** Sample state for the examples: tracking is on and three records, made
    at 10000, 13000 and 16000, wait in the pending batch. *)
Definition three_pending : World :=
  Tracker.handleAll (events_at editor_open [10000; 13000; 16000])
    (Tracker.startTracking_subscribe (initial_world true)).

(** An API client whose every request fails: both submit calls return false. *)
Definition offline_api : ApiClientI :=
  ApiClient.constructor
    (ApiClient.mkClient (fun _ => Some (mkError "fetch failed" None))
                        (fun _ => Some (mkError "fetch failed" None))).

(** An API client whose every request succeeds. *)
Definition online_api : ApiClientI :=
  ApiClient.constructor (ApiClient.mkClient (fun _ => None) (fun _ => None)).

(** A store that rejects the record stamped 13000 and accepts the others. *)
Definition rejects_13000 : Database.Faults :=
  Database.mkFaults
    (fun log => if ActivityLog.timestamp log =? 13000
                then Some (mkError "SQLITE_CONSTRAINT" None) else None)
    None None (fun _ => None) None None.

(** The commands the git tracker runs. *)
Definition head_query : string := "git rev-parse HEAD".

Definition detail_queries (commitHash : string) : list string :=
  [ "git log -1 --format=%s " +:+ commitHash;
    "git log -1 --format=%an " +:+ commitHash;
    "git log -1 --format=%ae " +:+ commitHash;
    "git log -1 --format=%at " +:+ commitHash ].

(** The inspector reports HEAD of [projectPath] and it is [commit]. *)
Definition head_is (g : GitTracker.Git) (projectPath commit : string) : Prop :=
  exists stdout,
    g head_query projectPath = Resolved stdout
    /\ Js.trim stdout = commit
    /\ Js.truthy commit = true.

(** One of the four concurrent detail sub-queries (message, author, email,
    timestamp) fails. *)
Definition detail_query_fails (g : GitTracker.Git) (projectPath commit : string)
  : Prop :=
  exists q, q ∈ detail_queries commit /\ threw (g q projectPath).

(** The revision records stored for a project and a revision hash. *)
Definition revisions_of (projectPath commit : string) (d : Database.t)
  : list GitCommit.t :=
  List.filter
    (fun c => bool_decide (GitCommit.projectPath c = projectPath)
              && bool_decide (GitCommit.commitHash c = commit))
    (Database.git_commits d).

(** The details [getCommitDetails] returns for a revision; they depend on
    the inspector only. *)
Definition details_of (g : GitTracker.Git) (projectPath commit : string)
  : option GitTracker.CommitDetails :=
  match fst (GitTracker.getCommitDetails g projectPath commit (initial_world false)) with
  | Resolved d => d
  | Rejected _ => None
  end.

(** Sample inspectors for the examples.  A repository whose HEAD is b2 and
    which answers every query of the git tracker: *)
Definition newline : string := String (ascii_of_nat 10) EmptyString.

Definition repo_at_b2 : GitTracker.Git :=
  fun command cwd =>
    if String.eqb command head_query then Resolved ("b2" +:+ newline)
    else if String.eqb command "git branch --show-current"
    then Resolved ("main" +:+ newline)
    else if String.eqb command "git log -1 --format=%s b2"
    then Resolved ("Fix the sync loop" +:+ newline)
    else if String.eqb command "git log -1 --format=%an b2"
    then Resolved ("Ada" +:+ newline)
    else if String.eqb command "git log -1 --format=%ae b2"
    then Resolved ("ada@example.org" +:+ newline)
    else if String.eqb command "git log -1 --format=%at b2"
    then Resolved ("1700000000" +:+ newline)
    else if String.eqb command
              ("git show --stat --format=" +:+ Js.dquote +:+ Js.dquote +:+ " b2")
    then Resolved (" a.ts | 4 ++--" +:+ newline +:+
                   " 1 file changed, 3 insertions(+), 1 deletion(-)" +:+ newline)
    else Rejected (mkError "Command failed" None).

(** the same repository when the query for the subject line fails, *)
Definition repo_subject_fails : GitTracker.Git :=
  fun command cwd =>
    if String.eqb command "git log -1 --format=%s b2"
    then Rejected (mkError "Command failed" None)
    else repo_at_b2 command cwd.

(** and a directory that is not a repository. *)
Definition not_a_repo : GitTracker.Git :=
  fun _ _ => Rejected (mkError "fatal: not a git repository" None).

(** Sample state: the project /p was last seen at revision a1. *)
Definition seen_at_a1 : World :=
  GitTracker.set_commit "/p" "a1" 1000 (initial_world true).

(** No iteration of the sync loop is in flight: while tracking exactly one
    timer is armed, the one [syncTimer] holds; while stopped none is. *)
Definition settled (w : World) : Prop :=
  if isTracking (tracker w)
  then exists t, timers (host w) = [t] /\ syncTimer (tracker w) = Some t
  else timers (host w) = [].

(** What can happen to the tracker when every sync iteration runs to its end
    before anything else happens. *)
Inductive Op : Type :=
| OpStart (env : SyncEnv)
| OpStop
| OpTimer (env : SyncEnv) (handle : nat)
| OpEvent (vs : VsCode) (now : Z).

Definition run_op (op : Op) (w : World) : World :=
  match op with
  | OpStart env => Tracker.startTracking env w
  | OpStop => Tracker.stopTracking w
  | OpTimer env handle => Tracker.fire_timer env handle w
  | OpEvent vs now => Tracker.deliver vs now w
  end.

Definition run_ops (ops : list Op) (w : World) : World :=
  fold_left (fun w op => run_op op w) ops w.




(** Every pending record is still without a store identifier and names the
    editor that made it. *)
Definition unpersisted (w : World) : Prop :=
  Forall (fun r => ActivityLog.id r = None /\ ActivityLog.editor r = "vscode")
         (queue (tracker w)).

(** Every stored activity record carries its identifier. *)
Definition persisted (w : World) : Prop :=
  Forall (fun r => is_Some (ActivityLog.id r)) (Database.activity_logs (db w)).

(** While tracking exactly one listener group is subscribed, the one
    [disposable] holds; while stopped none is. *)
Definition subscribed (w : World) : Prop :=
  if isTracking (tracker w)
  then exists d, listeners (host w) = [d] /\ disposable (tracker w) = Some d
  else listeners (host w) = [].

(** Two worlds that differ in the log only. *)
Definition same_but_log (a b : World) : Prop :=
  db a = db b /\ statusBarManager a = statusBarManager b /\ git a = git b
  /\ tracker a = tracker b /\ host a = host b.

(** What holds of the extension between two operations. *)
Definition steady (w : World) : Prop :=
  settled w /\ subscribed w /\ unpersisted w /\ store_wf (db w).

(** The command [getCommitDetails] runs for the diff statistics. *)
Definition stat_query (commitHash : string) : string :=
  "git show --stat --format=" +:+ Js.dquote +:+ Js.dquote +:+ " " +:+ commitHash.

(** Does [sub] occur in [s]? *)
Fixpoint mentions (sub s : string) : bool :=
  match Js.strip_prefix sub s with
  | Some _ => true
  | None =>
      match s with
      | EmptyString => false
      | String _ s' => mentions sub s'
      end
  end.

(** A call of the logger's method for a level. *)
Definition Logger_call (l : Logger.LogLevel) (message : string) (err : Error)
  : Logger.t -> Logger.t :=
  match l with
  | Logger.DEBUG => Logger.debug message
  | Logger.INFO => Logger.info message
  | Logger.WARN => Logger.warn message
  | Logger.ERROR => Logger.error message err
  end.

(** A store that accepts every revision record. *)
Definition accepts_commits (f : Database.Faults) : Prop :=
  forall c, Database.insertCommit_fault f c = None.

(** What a call of the git tracker may do to the world: at most one record
    appended, for the project [p]; nothing else of the store, nothing of the
    tracker and the host; no other project's entry. *)
Definition git_footprint (p : string) (w w' : World) : Prop :=
  tracker w' = tracker w /\ host w' = host w
  /\ Database.activity_logs (db w') = Database.activity_logs (db w)
  /\ Database.activity_seq (db w') = Database.activity_seq (db w)
  /\ (forall q, q <> p ->
        GitTracker.getActiveCommit q w' = GitTracker.getActiveCommit q w)
  /\ (db w' = db w
      \/ exists c,
           GitCommit.projectPath c = p
           /\ GitCommit.id c = Some (Database.commit_seq (db w) + 1)
           /\ Database.git_commits (db w')
              = Database.git_commits (db w) ++ [c]
           /\ Database.commit_seq (db w') = Database.commit_seq (db w) + 1).

(** More sample inspectors: the repository at b2 when the revision only
    adds lines (git then prints no deletion count), *)
Definition repo_only_insertions : GitTracker.Git :=
  fun command cwd =>
    if String.eqb command (stat_query "b2")
    then Resolved (" a.ts | 3 +++" +:+ newline +:+
                   " 1 file changed, 3 insertions(+)" +:+ newline)
    else repo_at_b2 command cwd.

(** and an inspector that answers the HEAD query with an empty line. *)
Definition repo_blank_head : GitTracker.Git :=
  fun command cwd =>
    if String.eqb command head_query then Resolved newline
    else repo_at_b2 command cwd.

(** Sample stores: one that refuses every revision record, *)
Definition refuses_commits : Database.Faults :=
  Database.mkFaults (fun _ => None) None None
    (fun _ => Some (mkError "SQLITE_FULL" None)) None None.

(** one that cannot be read, *)
Definition unreadable_store : Database.Faults :=
  Database.mkFaults (fun _ => None) (Some (mkError "SQLITE_BUSY" None)) None
    (fun _ => None) None None.

(** and one that cannot delete activity records. *)
Definition undeletable_logs : Database.Faults :=
  Database.mkFaults (fun _ => None) None (Some (mkError "SQLITE_BUSY" None))
    (fun _ => None) None None.

(** Sample state: the three pending records and, in the store, the record
    of revision b2 that a detection has just written. *)
Definition three_pending_one_commit : World :=
  snd (GitTracker.trackCommitChange repo_at_b2 Database.no_faults 5000 "/p"
         three_pending).

(** Two activity records that agree in everything but the names of the
    project and of the revision. *)
Definition same_activity (a b : ActivityLog.t) : Prop :=
  ActivityLog.filePath a = ActivityLog.filePath b
  /\ ActivityLog.language a = ActivityLog.language b
  /\ ActivityLog.timestamp a = ActivityLog.timestamp b
  /\ ActivityLog.duration a = ActivityLog.duration b
  /\ ActivityLog.editor a = ActivityLog.editor b
  /\ ActivityLog.id a = ActivityLog.id b.

(** Two worlds that differ only in those two names of their pending records
    and in the log, where the second has the lines of the first and may have
    more after them. *)
Definition same_but_naming (a b : World) : Prop :=
  statusBarManager a = statusBarManager b
  /\ db a = db b /\ git a = git b /\ host a = host b
  /\ gitTracker (tracker a) = gitTracker (tracker b)
  /\ disposable (tracker a) = disposable (tracker b)
  /\ isTracking (tracker a) = isTracking (tracker b)
  /\ syncTimer (tracker a) = syncTimer (tracker b)
  /\ lastActivityTime (tracker a) = lastActivityTime (tracker b)
  /\ Forall2 same_activity (queue (tracker a)) (queue (tracker b))
  /\ Logger.logLevel (logger a) = Logger.logLevel (logger b)
  /\ Logger.outputChannel (logger a) `prefix_of` Logger.outputChannel (logger b).

(** * Properties *)

(** ** The built-ins on the outputs of git *)

Example trim_stdout : Js.trim ("  b2 " +:+ newline) = "b2".
Proof. reflexivity. Qed.

Example parseInt_timestamp :
  Js.times (Js.parseInt "1700000000") 1000 = Js.Num 1700000000000
  /\ Js.parseInt "12 files" = Js.Num 12
  /\ Js.parseInt "-7" = Js.Num (-7)
  /\ Js.parseInt "files" = Js.NaN
  /\ Js.times (Js.parseInt EmptyString) 1000 = Js.NaN.
Proof. repeat split. Qed.

Example match_stats_summary :
  Js.match_stats (" a.ts | 14 ++++--" +:+ newline +:+
                  " 2 files changed, 10 insertions(+), 4 deletions(-)" +:+ newline)
  = Some ("10", "4")
  /\ Js.match_stats " 1 file changed, 5 insertions(+)" = None
  /\ Js.match_stats (" 1 insertion(+)" +:+ newline +:+ " 3 deletions(-)") = None.
Proof. repeat split. Qed.

Example getCommitDetails_b2 :
  details_of repo_at_b2 "/p" "b2"
  = Some (GitTracker.mkDetails "Fix the sync loop" "Ada" "ada@example.org"
            (Js.Num 1700000000000) 2 3 1).
Proof. reflexivity. Qed.

(** ** The debounce engine: [handleActivity] *)

Lemma Tracker_handleActivity_handled (vs : VsCode) (now : Z) (w : World) :
  handled vs now w (Tracker.handleActivity vs now w).
Proof.
  unfold Tracker.handleActivity.
  destruct (Z.ltb_spec (now - lastActivityTime (tracker w))
              Tracker.debounceInterval) as [Hlt | Hge].
  - now apply handled_discard.
  - destruct (activeTextEditor vs) as [editor |] eqn:Hed.
    + eapply handled_emit; simpl; eauto.
    + now apply handled_no_editor.
Qed.

Lemma CoreTracker_handleActivity_handled
    (root commit : string -> World -> option string)
    (vs : VsCode) (now : Z) (w : World) :
  handled vs now w (CoreTracker.handleActivity root commit vs now w).
Proof.
  unfold CoreTracker.handleActivity.
  change CoreTracker.debounceInterval with Tracker.debounceInterval.
  change CoreTracker.maxIdleTime with Tracker.maxIdleTime.
  destruct (Z.ltb_spec (now - lastActivityTime (tracker w))
              Tracker.debounceInterval) as [Hlt | Hge].
  - now apply handled_discard.
  - destruct (activeTextEditor vs) as [editor |] eqn:Hed.
    + eapply handled_emit; eauto.
      * simpl. now destruct (_ && _).
      * simpl. destruct (_ && _); reflexivity.
      * reflexivity.
      * reflexivity.
    + now apply handled_no_editor.
Qed.

(** A call leaves the world as it was exactly when the debounce check
    discards the event. *)
Lemma handled_unchanged_iff (vs : VsCode) (now : Z) (w w' : World) :
  handled vs now w w' ->
  w' = w <-> now - lastActivityTime (tracker w) < Tracker.debounceInterval.
Proof.
  intros [Hlt Heq | Hge _ Hlast _ | r Hge _ Hlast _ _ _]; split; intros H;
    unfold Tracker.debounceInterval in *; try assumption; try lia.
  - rewrite H in Hlast. lia.
  - rewrite H in Hlast. lia.
Qed.

(** The gate below [debounceInterval] on the clock: a first-ever event
    ([lastActivityTime] is 0) at a clock reading under [debounceInterval] is
    discarded like any other, so the events at 0, 1000 and 2500 leave the
    single record (2500, 0).  [Date.now()] is epoch time and never that
    small; the statements below that name [lastActivityTime <> 0] take the
    clock to be at least [debounceInterval]. *)
Example debounce_gate_below_interval :
  let w0 := initial_world true in
  lastActivityTime (tracker w0) = 0
  /\ Tracker.handleActivity editor_open 0 w0 = w0
  /\ pending (Tracker.handleAll (events_at editor_open [0; 1000; 2500]) w0)
     = [(2500, 0)]
  /\ pending (CoreTracker_handleAll (fun _ _ => None) (fun _ _ => None)
                (events_at editor_open [0; 1000; 2500]) w0)
     = [(2500, 0)].
Proof. repeat split. Qed.

Lemma handled_discarded (vs : VsCode) (now : Z) (w w' : World) :
  handled vs now w w' ->
  now - lastActivityTime (tracker w) < Tracker.debounceInterval ->
  w' = w.
Proof.
  intros H Hlt. now apply (handled_unchanged_iff vs now w w' H).
Qed.

(** An event that passes the check while an editor is active pushes one
    record, stamped [now]. *)
Lemma handled_accepted (vs : VsCode) (now : Z) (w w' : World) :
  handled vs now w w' ->
  is_Some (activeTextEditor vs) ->
  Tracker.debounceInterval <= now - lastActivityTime (tracker w) ->
  lastActivityTime (tracker w') = now
  /\ pending w' =
     pending w ++
       [(now,
         if negb (lastActivityTime (tracker w) =? 0)
            && (now - lastActivityTime (tracker w) <? Tracker.maxIdleTime)
         then now - lastActivityTime (tracker w) else 0)].
Proof.
  intros [Hlt _ | _ Hnone _ _ | r _ _ Hlast Hq Hts Hdur] Hed Hge.
  - lia.
  - rewrite Hnone in Hed. now destruct Hed.
  - split; [assumption |].
    unfold pending. rewrite Hq, map_app. simpl. unfold stamp.
    now rewrite Hts, Hdur.
Qed.

(** With an editor active, no record is pushed exactly when the check
    discards the event. *)
Lemma handled_silent_iff (vs : VsCode) (now : Z) (w w' : World) :
  handled vs now w w' ->
  is_Some (activeTextEditor vs) ->
  pending w' = pending w
  <-> now - lastActivityTime (tracker w) < Tracker.debounceInterval.
Proof.
  intros H Hed. split.
  - intros Hsame.
    destruct (Z.lt_ge_cases (now - lastActivityTime (tracker w))
                Tracker.debounceInterval) as [Hlt | Hge]; [assumption |].
    destruct (handled_accepted vs now w w' H Hed Hge) as [_ Hp].
    rewrite Hsame in Hp. apply (f_equal length) in Hp.
    rewrite length_app in Hp. simpl in Hp. lia.
  - intros Hlt. now rewrite (handled_discarded vs now w w' H Hlt).
Qed.

(** The spec's scenario, shifted to a clock reading [t0] of at least
    [debounceInterval]: three events through any handler that behaves as
    [handled] says. *)
Lemma handled_scenario (vs : VsCode) (h : Z -> World -> World) (t0 : Z) (w : World) :
  (forall now w, handled vs now w (h now w)) ->
  is_Some (activeTextEditor vs) ->
  lastActivityTime (tracker w) = 0 ->
  queue (tracker w) = [] ->
  Tracker.debounceInterval <= t0 ->
  pending (h (t0 + 2500) (h (t0 + 1000) (h t0 w))) = [(t0, 0); (t0 + 2500, 2500)].
Proof.
  intros Hh Hed Hlast Hq Ht0.
  unfold Tracker.debounceInterval in Ht0.
  destruct (handled_accepted vs t0 w _ (Hh t0 w) Hed) as [Hl1 Hp1].
  { rewrite Hlast. unfold Tracker.debounceInterval. lia. }
  rewrite Hlast in Hp1. simpl in Hp1.
  unfold pending at 2 in Hp1. rewrite Hq in Hp1. simpl in Hp1.
  rewrite (handled_discarded vs (t0 + 1000) (h t0 w) _ (Hh _ _)).
  2: { rewrite Hl1. unfold Tracker.debounceInterval. lia. }
  destruct (handled_accepted vs (t0 + 2500) (h t0 w) _ (Hh _ _) Hed) as [_ Hp3].
  { rewrite Hl1. unfold Tracker.debounceInterval. lia. }
  rewrite Hp3, Hp1, Hl1. simpl. repeat f_equal.
  replace (t0 + 2500 - t0) with 2500 by lia.
  destruct (Z.eqb_spec t0 0) as [-> | _]; [lia | reflexivity].
Qed.

(** A call changes the world whenever the gap is at least
    [debounceInterval]: it moves [lastActivityTime]. *)
Lemma handled_first_event (vs : VsCode) (now : Z) (w w' : World) :
  handled vs now w w' ->
  Tracker.debounceInterval <= now ->
  lastActivityTime (tracker w) = 0 ->
  w' <> w.
Proof.
  intros H Hclock Hlast Heq.
  apply (handled_unchanged_iff vs now w w' H) in Heq.
  rewrite Hlast in Heq. lia.
Qed.

(** C1: the debounce check of both revisions of the handler is the test
    [now - lastActivityTime < debounceInterval]; an event it discards changes
    no state and pushes no record.  At a clock reading of at least
    [debounceInterval] (every [Date.now()]) the discarded events are exactly
    those with [lastActivityTime <> 0] and a gap below [debounceInterval]; the
    first-ever event is not discarded; with an editor active the discarded
    events are exactly the ones that push no record; and the events at t0,
    t0+1000, t0+2500 from the initial state leave exactly the records (t0, 0)
    and (t0+2500, 2500). *)
Theorem debounce_gate (root commit : string -> World -> option string)
    (vs : VsCode) (now : Z) (w : World) (withGit : bool) :
  let last := lastActivityTime (tracker w) in
  let w1 := Tracker.handleActivity vs now w in
  let w2 := CoreTracker.handleActivity root commit vs now w in
  (w1 = w <-> now - last < Tracker.debounceInterval)
  /\ (w2 = w <-> now - last < Tracker.debounceInterval)
  /\ (Tracker.debounceInterval <= now ->
      (w1 = w <-> last <> 0 /\ now - last < Tracker.debounceInterval)
      /\ (w2 = w <-> last <> 0 /\ now - last < Tracker.debounceInterval)
      /\ (last = 0 -> w1 <> w /\ w2 <> w)
      /\ (is_Some (activeTextEditor vs) ->
          (pending w1 = pending w
           <-> last <> 0 /\ now - last < Tracker.debounceInterval)
          /\ (pending w2 = pending w
              <-> last <> 0 /\ now - last < Tracker.debounceInterval)
          /\ pending (Tracker.handleAll
                        (events_at vs [now; now + 1000; now + 2500])
                        (initial_world withGit))
             = [(now, 0); (now + 2500, 2500)]
          /\ pending (CoreTracker_handleAll root commit
                        (events_at vs [now; now + 1000; now + 2500])
                        (initial_world withGit))
             = [(now, 0); (now + 2500, 2500)])).
Proof.
  intros last w1 w2.
  pose proof (Tracker_handleActivity_handled vs now w) as H1.
  pose proof (CoreTracker_handleActivity_handled root commit vs now w) as H2.
  fold w1 in H1. fold w2 in H2.
  pose proof (handled_unchanged_iff vs now w w1 H1) as U1.
  pose proof (handled_unchanged_iff vs now w w2 H2) as U2.
  fold last in U1, U2.
  split; [exact U1 |]. split; [exact U2 |].
  intros Hclock.
  assert (Hgap : now - last < Tracker.debounceInterval
                 <-> last <> 0 /\ now - last < Tracker.debounceInterval).
  { unfold Tracker.debounceInterval in *. lia. }
  split; [tauto |]. split; [tauto |]. split.
  - intros Hlast. split.
    + exact (handled_first_event vs now w w1 H1 Hclock Hlast).
    + exact (handled_first_event vs now w w2 H2 Hclock Hlast).
  - intros Hed.
    pose proof (handled_silent_iff vs now w w1 H1 Hed) as S1.
    pose proof (handled_silent_iff vs now w w2 H2 Hed) as S2.
    fold last in S1, S2.
    split; [tauto |]. split; [tauto |]. split.
    + apply (handled_scenario vs (Tracker.handleActivity vs)); auto.
      intros; apply Tracker_handleActivity_handled.
    + apply (handled_scenario vs (CoreTracker.handleActivity root commit vs));
        auto.
      intros; apply CoreTracker_handleActivity_handled.
Qed.

(** The spec's scenario with the clock at 5000 when the first event
    arrives: the first event is kept, the second discarded, and the records
    are (5000, 0) and (7500, 2500). *)
Lemma debounce_gate_witness :
  let w := initial_world true in
  let w1 := Tracker.handleActivity editor_open 5000 w in
  Tracker.debounceInterval <= 5000
  /\ is_Some (activeTextEditor editor_open)
  /\ lastActivityTime (tracker w) = 0
  /\ w1 <> w
  /\ Tracker.handleActivity editor_open 6000 w1 = w1
  /\ pending (Tracker.handleAll (events_at editor_open [5000; 6000; 7500]) w)
     = [(5000, 0); (7500, 2500)].
Proof.
  intros w w1.
  assert (H1 : Tracker.debounceInterval <= 5000)
    by (unfold Tracker.debounceInterval; lia).
  assert (H2 : is_Some (activeTextEditor editor_open)) by (simpl; eauto).
  destruct (debounce_gate (fun _ _ => None) (fun _ _ => None)
              editor_open 5000 w true) as (_ & _ & H).
  destruct (H H1) as (_ & _ & Hfirst & Hed).
  destruct (Hed H2) as (_ & _ & Hs & _).
  destruct (debounce_gate (fun _ _ => None) (fun _ _ => None)
              editor_open 6000 w1 true) as (Hgate & _).
  split; [exact H1 |]. split; [exact H2 |]. split; [reflexivity |].
  split; [exact (proj1 (Hfirst eq_refl)) |].
  split; [apply Hgate; vm_compute; reflexivity | exact Hs].
Defined.

(** The duration the source computes is the one the spec's rule gives. *)
Lemma duration_rule (last gap : Z) :
  (if negb (last =? 0) && (gap <? Tracker.maxIdleTime) then gap else 0)
  = spec_duration last gap.
Proof.
  unfold spec_duration.
  destruct (Z.eqb_spec last 0); simpl; [reflexivity |].
  destruct (Z.ltb_spec gap Tracker.maxIdleTime), (Z.leb_spec Tracker.maxIdleTime gap);
    try reflexivity; lia.
Qed.

(** The record a call pushed, if the pending batch grew by [r]. *)
Lemma handled_pushed (vs : VsCode) (now : Z) (w w' : World) (r : ActivityLog.t) :
  handled vs now w w' ->
  queue (tracker w') = queue (tracker w) ++ [r] ->
  Tracker.debounceInterval <= now - lastActivityTime (tracker w)
  /\ is_Some (activeTextEditor vs)
  /\ lastActivityTime (tracker w') = now
  /\ ActivityLog.timestamp r = now
  /\ ActivityLog.duration r =
     spec_duration (lastActivityTime (tracker w))
                   (now - lastActivityTime (tracker w)).
Proof.
  intros [_ Heq | _ _ _ Hq | r0 Hge Hed Hlast Hq Hts Hdur] Hpush.
  - subst w'. apply (f_equal length) in Hpush.
    rewrite length_app in Hpush. simpl in Hpush. lia.
  - rewrite Hq in Hpush. apply (f_equal length) in Hpush.
    rewrite length_app in Hpush. simpl in Hpush. lia.
  - rewrite Hq in Hpush. apply app_inv_head in Hpush.
    injection Hpush as ->.
    rewrite <- duration_rule. auto.
Qed.

(** C2: every record [handleActivity] pushes has duration 0 if it is the
    first-ever event ([lastActivityTime] is 0 when it arrives) or if the gap
    since the previous accepted event is at least [maxIdleTime]; otherwise
    the duration is the gap, which then lies between [debounceInterval] and
    [maxIdleTime]; the duration is never negative. *)
Theorem handleActivity_duration (vs : VsCode) (now : Z) (w : World)
    (r : ActivityLog.t) :
  queue (tracker (Tracker.handleActivity vs now w)) = queue (tracker w) ++ [r] ->
  let last := lastActivityTime (tracker w) in
  let gap := now - last in
  (last = 0 \/ Tracker.maxIdleTime <= gap -> ActivityLog.duration r = 0)
  /\ (last <> 0 /\ gap < Tracker.maxIdleTime ->
      ActivityLog.duration r = gap
      /\ Tracker.debounceInterval <= gap < Tracker.maxIdleTime)
  /\ ActivityLog.duration r = spec_duration last gap
  /\ 0 <= ActivityLog.duration r.
Proof.
  intros Hpush last gap.
  destruct (handled_pushed vs now w _ r
              (Tracker_handleActivity_handled vs now w) Hpush)
    as (Hge & _ & _ & _ & Hdur).
  fold last in Hge, Hdur. fold gap in Hge, Hdur.
  rewrite Hdur. unfold spec_duration.
  unfold Tracker.debounceInterval, Tracker.maxIdleTime in *.
  destruct (Z.eqb_spec last 0), (Z.leb_spec (5 * 60 * 1000) gap); simpl;
    repeat split; intros; lia.
Qed.

Lemma handleActivity_duration_witness :
  let w := Tracker.handleActivity editor_open 10000 (initial_world true) in
  exists r,
    queue (tracker (Tracker.handleActivity editor_open 14000 w))
    = queue (tracker w) ++ [r]
    /\ ActivityLog.duration r = spec_duration 10000 4000
    /\ ActivityLog.duration r = 4000.
Proof.
  intros w.
  eexists. split; [reflexivity |].
  split; [| reflexivity].
  exact (proj1 (proj2 (proj2
    (handleActivity_duration editor_open 14000 w _ eq_refl)))).
Defined.

(** An event that passes the check with no active editor moves the clock of
    the engine and pushes nothing. *)
Lemma handled_dropped (vs : VsCode) (now : Z) (w w' : World) :
  handled vs now w w' ->
  activeTextEditor vs = None ->
  Tracker.debounceInterval <= now - lastActivityTime (tracker w) ->
  queue (tracker w') = queue (tracker w)
  /\ lastActivityTime (tracker w') = now.
Proof.
  intros [Hlt _ | _ _ Hlast Hq | r _ Hed _ _ _ _] Hnone Hge.
  - lia.
  - now split.
  - rewrite Hnone in Hed. now destruct Hed.
Qed.

(** C10: an event that passes the debounce check while no text editor is
    active pushes no record and still sets [lastActivityTime] to [now]; the
    gap, and so the duration, of the next record is then measured from this
    dropped event.  Both revisions of the handler behave so. *)
Theorem dropped_event_restarts_gap
    (root commit : string -> World -> option string)
    (vs vs' : VsCode) (now now' : Z) (w : World) (r r' : ActivityLog.t) :
  activeTextEditor vs = None ->
  Tracker.debounceInterval <= now - lastActivityTime (tracker w) ->
  let w1 := Tracker.handleActivity vs now w in
  let w2 := CoreTracker.handleActivity root commit vs now w in
  queue (tracker (Tracker.handleActivity vs' now' w1)) = queue (tracker w1) ++ [r] ->
  queue (tracker (CoreTracker.handleActivity root commit vs' now' w2))
    = queue (tracker w2) ++ [r'] ->
  (queue (tracker w1) = queue (tracker w)
   /\ lastActivityTime (tracker w1) = now
   /\ ActivityLog.duration r = spec_duration now (now' - now))
  /\ (queue (tracker w2) = queue (tracker w)
      /\ lastActivityTime (tracker w2) = now
      /\ ActivityLog.duration r' = spec_duration now (now' - now)).
Proof.
  intros Hnone Hge w1 w2 Hr Hr'.
  destruct (handled_dropped vs now w w1
              (Tracker_handleActivity_handled vs now w) Hnone Hge) as [Hq1 Hl1].
  destruct (handled_dropped vs now w w2
              (CoreTracker_handleActivity_handled root commit vs now w) Hnone Hge)
    as [Hq2 Hl2].
  destruct (handled_pushed vs' now' w1 _ r
              (Tracker_handleActivity_handled vs' now' w1) Hr)
    as (_ & _ & _ & _ & Hd1).
  destruct (handled_pushed vs' now' w2 _ r'
              (CoreTracker_handleActivity_handled root commit vs' now' w2) Hr')
    as (_ & _ & _ & _ & Hd2).
  rewrite Hl1 in Hd1. rewrite Hl2 in Hd2. auto.
Qed.

(** A record at 10000, an event at 13000 that finds no editor, a record at
    16000: the last record is credited 3000 ms, the time since the dropped
    event, and not the 6000 ms since the record before it. *)
Lemma dropped_event_restarts_gap_witness :
  let w := Tracker.handleActivity editor_open 10000 (initial_world true) in
  let w1 := Tracker.handleActivity editor_closed 13000 w in
  pending w1 = [(10000, 0)]
  /\ lastActivityTime (tracker w1) = 13000
  /\ pending (Tracker.handleActivity editor_open 16000 w1)
     = [(10000, 0); (16000, 3000)]
  /\ exists r, ActivityLog.duration r = spec_duration 13000 (16000 - 13000)
               /\ ActivityLog.duration r = 3000.
Proof.
  intros w w1.
  repeat split.
  eexists. split.
  - refine (proj2 (proj2 (proj1
      (dropped_event_restarts_gap (fun _ _ => None) (fun _ _ => None)
         editor_closed editor_open 13000 16000 w _ _ eq_refl _ eq_refl eq_refl)))).
    unfold Tracker.debounceInterval. simpl. lia.
  - reflexivity.
Defined.

(** The engine's invariant survives every call of the handler, whatever the
    clock reads (it need not even be monotone). *)
Lemma handled_spaced_upto (vs : VsCode) (now : Z) (w w' : World) :
  handled vs now w w' -> spaced_upto w -> spaced_upto w'.
Proof.
  intros [_ -> | Hge _ Hlast Hq | r Hge _ Hlast Hq Hts _] [Hsp Hle];
    [now split | |].
  - split; rewrite Hq; [assumption |].
    intros r Hr. specialize (Hle r Hr).
    unfold Tracker.debounceInterval in Hge. lia.
  - unfold Tracker.debounceInterval in Hge.
    split; rewrite Hq.
    + intros i j r1 r2 Hij H1 H2.
      apply lookup_snoc_Some in H2 as [[Hj H2] | [Hj <-]].
      * apply lookup_snoc_Some in H1 as [[_ H1] | [Hi _]]; [| lia].
        exact (Hsp i j r1 r2 Hij H1 H2).
      * apply lookup_snoc_Some in H1 as [[_ H1] | [Hi _]]; [| lia].
        assert (Hin : r1 ∈ queue (tracker w))
          by (apply list_elem_of_lookup; eauto).
        specialize (Hle r1 Hin).
        unfold Tracker.debounceInterval. lia.
    + intros r0 Hr0. apply elem_of_app in Hr0 as [Hr0 | Hr0].
      * specialize (Hle r0 Hr0). lia.
      * apply list_elem_of_singleton in Hr0 as ->. lia.
Qed.

Lemma handleAll_spaced_upto (events : list Tracker.RawEvent) (w : World) :
  spaced_upto w -> spaced_upto (Tracker.handleAll events w).
Proof.
  revert w. induction events as [| e events IH]; intros w Hw; [exact Hw |].
  simpl. apply IH.
  eapply handled_spaced_upto; [apply Tracker_handleActivity_handled | exact Hw].
Qed.

(** C6: whatever the sequence of raw events, two records [handleActivity]
    pushed are never less than [debounceInterval] apart in time stamp: the
    later one is at least [debounceInterval] after the earlier one. *)
Theorem handleActivity_spacing (events : list Tracker.RawEvent) (w : World)
    (i j : nat) (r1 r2 : ActivityLog.t) :
  queue (tracker w) = [] ->
  i <> j ->
  queue (tracker (Tracker.handleAll events w)) !! i = Some r1 ->
  queue (tracker (Tracker.handleAll events w)) !! j = Some r2 ->
  Tracker.debounceInterval
    <= Z.abs (ActivityLog.timestamp r2 - ActivityLog.timestamp r1)
  /\ ((i < j)%nat ->
      Tracker.debounceInterval
        <= ActivityLog.timestamp r2 - ActivityLog.timestamp r1).
Proof.
  intros Hq Hij H1 H2.
  assert (Hinv : spaced_upto w).
  { split; rewrite Hq.
    - intros ? ? ? ? _ H. now rewrite lookup_nil in H.
    - intros r Hr. now apply not_elem_of_nil in Hr. }
  destruct (handleAll_spaced_upto events w Hinv) as [Hsp _].
  destruct (Nat.lt_total i j) as [Hlt | [Heq | Hgt]]; [| contradiction |].
  - pose proof (Hsp i j r1 r2 Hlt H1 H2) as H.
    unfold Tracker.debounceInterval in *. split; lia.
  - pose proof (Hsp j i r2 r1 Hgt H2 H1) as H.
    unfold Tracker.debounceInterval in *. split; lia.
Qed.

(** Five events, one of them with the clock set back: the two records that
    remain are 4000 ms apart. *)
Lemma handleActivity_spacing_witness :
  let events := events_at editor_open [10000; 10500; 11999; 9000; 14000] in
  let w := Tracker.handleAll events (initial_world true) in
  pending w = [(10000, 0); (14000, 4000)]
  /\ exists r1 r2,
       queue (tracker w) !! 0%nat = Some r1
       /\ queue (tracker w) !! 1%nat = Some r2
       /\ Tracker.debounceInterval
          <= Z.abs (ActivityLog.timestamp r2 - ActivityLog.timestamp r1).
Proof.
  intros events w. split; [reflexivity |].
  eexists. eexists.
  split; [reflexivity |]. split; [reflexivity |].
  refine (proj1 (handleActivity_spacing events (initial_world true)
                   0 1 _ _ eq_refl _ eq_refl eq_refl)).
  lia.
Defined.

(** ** The sync loop: flush *)

Lemma payload_with_id (i : option Z) (log : ActivityLog.t) :
  payload (ActivityLog.with_id i log) = payload log.
Proof. reflexivity. Qed.

(** Saving a batch touches the store and the logger only: every record the
    store accepts is appended, in order, and every failure is logged. *)
Lemma save_logs_spec (f : Database.Faults) (logs : list ActivityLog.t) (w : World) :
  let w' := Tracker.save_logs f logs w in
  tracker w' = tracker w /\ git w' = git w /\ host w' = host w
  /\ statusBarManager w' = statusBarManager w
  /\ logger w' =
     logged_failures (omap (Database.insertActivity_fault f) logs) (logger w)
  /\ Database.git_commits (db w') = Database.git_commits (db w)
  /\ Database.commit_seq (db w') = Database.commit_seq (db w)
  /\ exists rows,
       Database.activity_logs (db w') = Database.activity_logs (db w) ++ rows
       /\ map payload rows = map payload (List.filter (stored f) logs).
Proof.
  revert w. induction logs as [| log logs IH]; intros w; simpl.
  - repeat split. exists []. split; [now rewrite app_nil_r | reflexivity].
  - specialize (IH (snd (try_catch
        (await on_db (Database.insertActivity f log) in ret tt)
        (fun err =>
           exec_ (log_ (Logger.error "Failed to save activity to DB" err)))
        w))).
    revert IH.
    unfold try_catch, bind, on_db, Database.insertActivity, stored.
    destruct (Database.insertActivity_fault f log) as [e |] eqn:Hf; simpl;
      intros (Ht & Hg & Hh & Hs & Hl & Hc & Hcs & rows & Hrows & Hpay);
      repeat (split; [assumption |]).
    + exists rows. now split.
    + exists (ActivityLog.with_id (Some (Database.activity_seq (db w) + 1)) log
              :: rows).
      split.
      * rewrite Hrows. now rewrite <- app_assoc.
      * simpl. now rewrite Hpay.
Qed.

(** ** Deleting a batch by identifier *)

Section DeleteById.

Context {A : Type} (id : A -> option Z).

Lemma NoDup_map_eq (rows : list A) (x y : A) :
  NoDup (map id rows) -> x ∈ rows -> y ∈ rows -> id x = id y -> x = y.
Proof.
  induction rows as [| r rows IH]; intros Hnd Hx Hy Heq.
  - now apply not_elem_of_nil in Hx.
  - simpl in Hnd. apply NoDup_cons in Hnd as [Hnotin Hnd].
    apply elem_of_cons in Hx as [-> | Hx], Hy as [-> | Hy].
    + reflexivity.
    + exfalso. apply Hnotin. rewrite Heq.
      apply list_elem_of_In, in_map, list_elem_of_In, Hy.
    + exfalso. apply Hnotin. rewrite <- Heq.
      apply list_elem_of_In, in_map, list_elem_of_In, Hx.
    + now apply IH.
Qed.

Lemma elem_of_kept (ids : list Z) (rows : list A) (r : A) :
  r ∈ List.filter (fun x => Database.kept ids (id x)) rows
  <-> r ∈ rows /\ forall i, id r = Some i -> i ∉ ids.
Proof.
  rewrite !list_elem_of_In, filter_In. unfold Database.kept.
  split; intros [Hin Hk]; (split; [assumption |]).
  - intros i Hi. rewrite Hi in Hk.
    apply negb_true_iff, bool_decide_eq_false in Hk. exact Hk.
  - destruct (id r) as [i |]; [| reflexivity].
    apply negb_true_iff, bool_decide_eq_false. now apply Hk.
Qed.

(** After the deletion of the identifiers of a batch read from the table,
    exactly the rows of the batch are gone. *)
Lemma delete_batch (rows : list A) (seq : Z) (n : nat) (r : A) :
  rows_wf id rows seq ->
  r ∈ List.filter
        (fun x => Database.kept (Tracker.ids_of id (take n rows)) (id x)) rows
  <-> r ∈ rows /\ r ∉ take n rows.
Proof.
  intros [Hnd Hids]. rewrite elem_of_kept. unfold Tracker.ids_of.
  split; intros [Hin H]; (split; [assumption |]).
  - intros Hbatch. destruct (Hids r Hin) as (i & Hi & _).
    apply (H i Hi). apply list_elem_of_omap. eauto.
  - intros i Hi Hmem. apply list_elem_of_omap in Hmem as (r' & Hr' & Hi').
    assert (Hr'in : r' ∈ rows).
    { apply elem_of_take in Hr' as (k & Hk & _).
      apply list_elem_of_lookup. eauto. }
    assert (r = r') by (apply (NoDup_map_eq rows); congruence).
    subst r'. contradiction.
Qed.

Lemma rows_wf_nil (seq : Z) : rows_wf id [] seq.
Proof.
  split; [constructor |]. intros r Hr. now apply not_elem_of_nil in Hr.
Qed.

Lemma rows_wf_filter (p : A -> bool) (rows : list A) (seq : Z) :
  rows_wf id rows seq -> rows_wf id (List.filter p rows) seq.
Proof.
  intros [Hnd Hids]. split.
  - clear Hids. induction rows as [| r rows IH]; simpl; [constructor |].
    simpl in Hnd. apply NoDup_cons in Hnd as [Hnotin Hnd].
    destruct (p r); simpl; [| now apply IH].
    apply NoDup_cons. split; [| now apply IH].
    intros Hin. apply Hnotin.
    apply list_elem_of_In, in_map_iff in Hin as (x & Hx & Hin).
    apply filter_In in Hin as [Hin _].
    apply list_elem_of_In, in_map_iff. eauto.
  - intros r Hr. apply Hids.
    apply list_elem_of_In, filter_In in Hr as [Hr _].
    now apply list_elem_of_In.
Qed.

End DeleteById.

(** ** The invariant of the store *)

Lemma rows_wf_snoc {A : Type} (id : A -> option Z) (rows : list A) (seq : Z) (r : A) :
  rows_wf id rows seq -> id r = Some (seq + 1) ->
  rows_wf id (rows ++ [r]) (seq + 1).
Proof.
  intros [Hnd Hids] Hr. split.
  - rewrite map_app. apply NoDup_app. split; [assumption |]. split.
    + intros x Hx Hx'. simpl in Hx'. apply list_elem_of_singleton in Hx'.
      subst x. rewrite Hr in Hx.
      apply list_elem_of_In, in_map_iff in Hx as (y & Hy & Hin).
      apply list_elem_of_In in Hin.
      destruct (Hids y Hin) as (i & Hi & Hle). rewrite Hi in Hy.
      injection Hy as ->. lia.
    + simpl. apply NoDup_singleton.
  - intros x Hx. apply elem_of_app in Hx as [Hx | Hx].
    + destruct (Hids x Hx) as (i & Hi & Hle). exists i. split; [assumption | lia].
    + apply list_elem_of_singleton in Hx as ->. exists (seq + 1).
      split; [assumption | lia].
Qed.

Lemma store_wf_empty : store_wf Database.empty.
Proof. split; apply rows_wf_nil. Qed.

Lemma store_wf_insertActivity (f : Database.Faults) (log : ActivityLog.t)
    (d : Database.t) :
  store_wf d -> store_wf (snd (Database.insertActivity f log d)).
Proof.
  intros [Ha Hc]. unfold Database.insertActivity.
  destruct (Database.insertActivity_fault f log); [now split |].
  split; simpl; [| assumption]. now apply rows_wf_snoc.
Qed.

Lemma store_wf_insertCommit (f : Database.Faults) (c : GitCommit.t)
    (d : Database.t) :
  store_wf d -> store_wf (snd (Database.insertCommit f c d)).
Proof.
  intros [Ha Hc]. unfold Database.insertCommit.
  destruct (Database.insertCommit_fault f c); [now split |].
  split; simpl; [assumption |]. now apply rows_wf_snoc.
Qed.

Lemma store_wf_deleteLogs (f : Database.Faults) (ids : list Z) (d : Database.t) :
  store_wf d -> store_wf (snd (Database.deleteLogs f ids d)).
Proof.
  intros [Ha Hc]. unfold Database.deleteLogs.
  destruct (Database.deleteLogs_fault f); [now split |].
  split; simpl; [| assumption]. now apply rows_wf_filter.
Qed.

Lemma store_wf_deleteCommits (f : Database.Faults) (ids : list Z) (d : Database.t) :
  store_wf d -> store_wf (snd (Database.deleteCommits f ids d)).
Proof.
  intros [Ha Hc]. unfold Database.deleteCommits.
  destruct (Database.deleteCommits_fault f); [now split |].
  split; simpl; [assumption |]. now apply rows_wf_filter.
Qed.

Lemma store_wf_save_logs (f : Database.Faults) (logs : list ActivityLog.t)
    (w : World) :
  store_wf (db w) -> store_wf (db (Tracker.save_logs f logs w)).
Proof.
  revert w. induction logs as [| log logs IH]; intros w Hwf; [exact Hwf |].
  simpl. apply IH.
  pose proof (store_wf_insertActivity f log (db w) Hwf) as H.
  unfold try_catch, bind, on_db.
  destruct (Database.insertActivity f log (db w)) as [[i | e] d]; exact H.
Qed.

Lemma store_wf_flush (f : Database.Faults) (w : World) :
  store_wf (db w) -> store_wf (db (Tracker.syncLoop_flush f w)).
Proof.
  intros Hwf. unfold Tracker.syncLoop_flush.
  destruct (queue (tracker w)); [exact Hwf |].
  now apply store_wf_save_logs.
Qed.

(** ** The sync loop: pushing to the remote collector *)

Ltac async_unfold :=
  unfold Tracker.syncLoop_push, Tracker.sync_activity_logs,
    Tracker.sync_git_commits, bind, ret, on_db, exec_, api_call, try_catch,
    Database.getUnsyncedLogs, Database.getUnsyncedCommits,
    Database.deleteLogs, Database.deleteCommits.

Lemma sync_activity_logs_frame (env : SyncEnv) (w : World) :
  let w' := snd (Tracker.sync_activity_logs env w) in
  tracker w' = tracker w /\ git w' = git w /\ host w' = host w
  /\ Database.git_commits (db w') = Database.git_commits (db w).
Proof.
  async_unfold.
  destruct (Database.getUnsyncedLogs_fault (env_faults env)); simpl; [auto |].
  destruct (take 50 (Database.activity_logs (db w))) as [| l logs]; simpl; [auto |].
  destruct (api_syncActivities (env_api env) (l :: logs)) as [[[|] | e] lf]; simpl; auto.
  destruct (Database.deleteLogs_fault (env_faults env)); simpl; auto.
Qed.

Lemma sync_activity_logs_nack (env : SyncEnv) (w : World) :
  let logs := take 50 (Database.activity_logs (db w)) in
  ~ acknowledged (fst (api_syncActivities (env_api env) logs)) ->
  Database.activity_logs (db (snd (Tracker.sync_activity_logs env w)))
  = Database.activity_logs (db w).
Proof.
  intros logs. subst logs. unfold acknowledged. async_unfold.
  destruct (Database.getUnsyncedLogs_fault (env_faults env)); simpl; [auto |].
  destruct (take 50 (Database.activity_logs (db w))) as [| l logs]; simpl; [auto |].
  destruct (api_syncActivities (env_api env) (l :: logs)) as [[[|] | e] lf]; simpl; auto.
  intros H. now contradiction H.
Qed.

Lemma sync_activity_logs_ack (env : SyncEnv) (w : World) :
  let f := env_faults env in
  let logs := take 50 (Database.activity_logs (db w)) in
  Database.getUnsyncedLogs_fault f = None ->
  Database.deleteLogs_fault f = None ->
  acknowledged (fst (api_syncActivities (env_api env) logs)) ->
  fst (Tracker.sync_activity_logs env w) = Resolved tt
  /\ Database.activity_logs (db (snd (Tracker.sync_activity_logs env w)))
     = List.filter
         (fun x => Database.kept (Tracker.ids_of ActivityLog.id logs) (ActivityLog.id x))
         (Database.activity_logs (db w)).
Proof.
  intros f logs Hread Hdel. subst f logs. unfold acknowledged. async_unfold.
  rewrite Hread. simpl.
  destruct (take 50 (Database.activity_logs (db w))) as [| l logs] eqn:Hb; simpl.
  - intros _. split; [reflexivity |].
    destruct (Database.activity_logs (db w)); [reflexivity | discriminate Hb].
  - destruct (api_syncActivities (env_api env) (l :: logs)) as [res lf]; simpl.
    intros ->. rewrite Hdel. simpl. auto.
Qed.

Lemma sync_activity_logs_completes (env : SyncEnv) (w : World) :
  let f := env_faults env in
  let logs := take 50 (Database.activity_logs (db w)) in
  store_answers f ->
  logs = [] \/ ~ threw (fst (api_syncActivities (env_api env) logs)) ->
  fst (Tracker.sync_activity_logs env w) = Resolved tt.
Proof.
  intros f logs (Hread & Hdel & _ & _). subst f logs. async_unfold.
  rewrite Hread. simpl.
  destruct (take 50 (Database.activity_logs (db w))) as [| l logs]; simpl;
    [reflexivity |].
  intros [Hnil | Hthrew]; [discriminate Hnil |].
  destruct (api_syncActivities (env_api env) (l :: logs)) as [[[|] | e] lf]; simpl;
    [| reflexivity | now contradiction Hthrew].
  now rewrite Hdel.
Qed.

Lemma sync_activity_logs_rejects (env : SyncEnv) (w : World) :
  let logs := take 50 (Database.activity_logs (db w)) in
  logs <> [] ->
  threw (fst (api_syncActivities (env_api env) logs)) ->
  threw (fst (Tracker.sync_activity_logs env w)).
Proof.
  intros logs. subst logs. async_unfold.
  destruct (Database.getUnsyncedLogs_fault (env_faults env)); simpl; [auto |].
  destruct (take 50 (Database.activity_logs (db w))) as [| l logs]; simpl;
    [intros H; now contradiction H |].
  intros _.
  destruct (api_syncActivities (env_api env) (l :: logs)) as [[[|] | e] lf]; simpl;
    auto; intros [].
Qed.

Lemma sync_git_commits_frame (env : SyncEnv) (w : World) :
  let w' := snd (Tracker.sync_git_commits env w) in
  tracker w' = tracker w /\ git w' = git w /\ host w' = host w
  /\ Database.activity_logs (db w') = Database.activity_logs (db w).
Proof.
  async_unfold.
  destruct (Database.getUnsyncedCommits_fault (env_faults env)); simpl; [auto |].
  destruct (take 20 (Database.git_commits (db w))) as [| c cs]; simpl; [auto |].
  destruct (api_syncCommits (env_api env) (c :: cs)) as [[[|] | e] lf]; simpl; auto.
  destruct (Database.deleteCommits_fault (env_faults env)); simpl; auto.
Qed.

Lemma sync_git_commits_nack (env : SyncEnv) (w : World) :
  let commits := take 20 (Database.git_commits (db w)) in
  ~ acknowledged (fst (api_syncCommits (env_api env) commits)) ->
  Database.git_commits (db (snd (Tracker.sync_git_commits env w)))
  = Database.git_commits (db w).
Proof.
  intros commits. subst commits. unfold acknowledged. async_unfold.
  destruct (Database.getUnsyncedCommits_fault (env_faults env)); simpl; [auto |].
  destruct (take 20 (Database.git_commits (db w))) as [| c cs]; simpl; [auto |].
  destruct (api_syncCommits (env_api env) (c :: cs)) as [[[|] | e] lf]; simpl; auto.
  intros H. now contradiction H.
Qed.

Lemma sync_git_commits_ack (env : SyncEnv) (w : World) :
  let f := env_faults env in
  let commits := take 20 (Database.git_commits (db w)) in
  Database.getUnsyncedCommits_fault f = None ->
  Database.deleteCommits_fault f = None ->
  acknowledged (fst (api_syncCommits (env_api env) commits)) ->
  Database.git_commits (db (snd (Tracker.sync_git_commits env w)))
  = List.filter
      (fun x => Database.kept (Tracker.ids_of GitCommit.id commits) (GitCommit.id x))
      (Database.git_commits (db w)).
Proof.
  intros f commits Hread Hdel. subst f commits. unfold acknowledged. async_unfold.
  rewrite Hread. simpl.
  destruct (take 20 (Database.git_commits (db w))) as [| c cs] eqn:Hb; simpl.
  - intros _.
    destruct (Database.git_commits (db w)); [reflexivity | discriminate Hb].
  - destruct (api_syncCommits (env_api env) (c :: cs)) as [res lf]; simpl.
    intros ->. now rewrite Hdel.
Qed.

(** The sync step as a whole: the commits are synced when, and only when,
    syncing the activity logs did not throw; the catch block only logs. *)
Lemma syncLoop_sync_db (env : SyncEnv) (w : World) :
  let r1 := Tracker.sync_activity_logs env w in
  db (Tracker.syncLoop_sync env w)
  = match fst r1 with
    | Resolved _ => db (snd (Tracker.sync_git_commits env (snd r1)))
    | Rejected _ => db (snd r1)
    end.
Proof.
  unfold Tracker.syncLoop_sync, Tracker.syncLoop_push, try_catch, bind.
  destruct (Tracker.sync_activity_logs env w) as [[[] | e] w1]; simpl;
    [| reflexivity].
  destruct (Tracker.sync_git_commits env w1) as [[[] | e] w2]; reflexivity.
Qed.

Lemma syncLoop_sync_frame (env : SyncEnv) (w : World) :
  let w' := Tracker.syncLoop_sync env w in
  tracker w' = tracker w /\ git w' = git w /\ host w' = host w.
Proof.
  unfold Tracker.syncLoop_sync, Tracker.syncLoop_push, try_catch, bind.
  pose proof (sync_activity_logs_frame env w) as (Ht & Hg & Hh & _).
  destruct (Tracker.sync_activity_logs env w) as [[[] | e] w1]; simpl in *;
    [| auto].
  pose proof (sync_git_commits_frame env w1) as (Ht2 & Hg2 & Hh2 & _).
  destruct (Tracker.sync_git_commits env w1) as [[[] | e] w2]; simpl in *;
    repeat split; congruence.
Qed.

Lemma syncLoop_db (env : SyncEnv) (w : World) :
  isTracking (tracker w) = true ->
  db (Tracker.syncLoop env w)
  = db (Tracker.syncLoop_sync env (Tracker.syncLoop_flush (env_faults env) w)).
Proof.
  intros Hon. unfold Tracker.syncLoop. rewrite Hon. reflexivity.
Qed.

Lemma syncLoop_sync_activity_logs (env : SyncEnv) (w : World) :
  Database.activity_logs (db (Tracker.syncLoop_sync env w))
  = Database.activity_logs (db (snd (Tracker.sync_activity_logs env w))).
Proof.
  rewrite syncLoop_sync_db.
  destruct (fst (Tracker.sync_activity_logs env w)); [| reflexivity].
  apply sync_git_commits_frame.
Qed.

Lemma syncLoop_sync_git_commits (env : SyncEnv) (w : World) :
  let r1 := Tracker.sync_activity_logs env w in
  Database.git_commits (db (Tracker.syncLoop_sync env w))
  = match fst r1 with
    | Resolved _ =>
        Database.git_commits (db (snd (Tracker.sync_git_commits env (snd r1))))
    | Rejected _ => Database.git_commits (db w)
    end.
Proof.
  intros r1. rewrite syncLoop_sync_db. fold r1.
  destruct (fst r1); [reflexivity |].
  apply sync_activity_logs_frame.
Qed.

(** A batch that is not empty cannot have all its rows missing from a table
    it was read from. *)
Lemma batch_not_gone {A : Type} (rows : list A) (n : nat) :
  take n rows <> [] ->
  ~ (forall r, r ∈ take n rows -> r ∉ rows).
Proof.
  intros Hne H. destruct (take n rows) as [| r rest] eqn:Hb; [now apply Hne |].
  apply (H r); [left |].
  assert (Hr : r ∈ take n rows) by (rewrite Hb; left).
  apply elem_of_take in Hr as (k & Hk & _).
  apply list_elem_of_lookup. eauto.
Qed.

Lemma acknowledged_dec (res : outcome bool) :
  acknowledged res \/ ~ acknowledged res.
Proof.
  unfold acknowledged. destruct res as [[|] | e]; [now left | |];
    right; discriminate.
Qed.

Lemma threw_dec {A : Type} (res : outcome A) : threw res \/ ~ threw res.
Proof. destruct res; simpl; auto. Qed.

(** An iteration over a store that answers its queries and deletions: each
    batch is deleted, by identifier, if and only if its submit call returned
    true.  The batch of commits is read once the activity logs have been
    dealt with without an exception. *)
Lemma sync_answering_store (env : SyncEnv) (w0 : World) :
  isTracking (tracker w0) = true ->
  store_wf (db w0) ->
  store_answers (env_faults env) ->
  let w := Tracker.syncLoop_flush (env_faults env) w0 in
  let w' := Tracker.syncLoop env w0 in
  let logs := take 50 (Database.activity_logs (db w)) in
  let commits := take 20 (Database.git_commits (db w)) in
  let sent_logs := fst (api_syncActivities (env_api env) logs) in
  let sent_commits := fst (api_syncCommits (env_api env) commits) in
  let reached := logs = [] \/ ~ threw sent_logs in
  (logs <> [] ->
   (forall r, r ∈ logs -> r ∉ Database.activity_logs (db w'))
   <-> acknowledged sent_logs)
  /\ (acknowledged sent_logs ->
      forall r, r ∈ Database.activity_logs (db w')
                <-> r ∈ Database.activity_logs (db w) /\ r ∉ logs)
  /\ (~ acknowledged sent_logs ->
      Database.activity_logs (db w') = Database.activity_logs (db w))
  /\ (commits <> [] -> reached ->
      (forall c, c ∈ commits -> c ∉ Database.git_commits (db w'))
      <-> acknowledged sent_commits)
  /\ (acknowledged sent_commits -> reached ->
      forall c, c ∈ Database.git_commits (db w')
                <-> c ∈ Database.git_commits (db w) /\ c ∉ commits)
  /\ (~ acknowledged sent_commits \/ ~ reached ->
      Database.git_commits (db w') = Database.git_commits (db w)).
Proof.
  intros Hon Hwf0 Hup w w' logs commits sent_logs sent_commits reached.
  assert (Hwf : store_wf (db w)) by now apply store_wf_flush.
  destruct Hwf as [Hwa Hwc].
  pose proof Hup as (Hread & Hdel & Hreadc & Hdelc).
  assert (HL : Database.activity_logs (db w')
               = Database.activity_logs (db (snd (Tracker.sync_activity_logs env w)))).
  { unfold w'. rewrite (syncLoop_db env w0 Hon). apply syncLoop_sync_activity_logs. }
  assert (HC : Database.git_commits (db w')
               = match fst (Tracker.sync_activity_logs env w) with
                 | Resolved _ =>
                     Database.git_commits
                       (db (snd (Tracker.sync_git_commits env
                                   (snd (Tracker.sync_activity_logs env w)))))
                 | Rejected _ => Database.git_commits (db w)
                 end).
  { unfold w'. rewrite (syncLoop_db env w0 Hon). apply syncLoop_sync_git_commits. }
  assert (Hack : acknowledged sent_logs ->
                 forall r, r ∈ Database.activity_logs (db w')
                           <-> r ∈ Database.activity_logs (db w) /\ r ∉ logs).
  { intros Ha r. rewrite HL.
    destruct (sync_activity_logs_ack env w Hread Hdel Ha) as [_ ->].
    apply (delete_batch ActivityLog.id _ _ 50 r Hwa). }
  assert (Hnack : ~ acknowledged sent_logs ->
                  Database.activity_logs (db w') = Database.activity_logs (db w)).
  { intros Hn. rewrite HL. now apply sync_activity_logs_nack. }
  assert (Hcommits1 :
            Database.git_commits (db (snd (Tracker.sync_activity_logs env w)))
            = Database.git_commits (db w)) by apply sync_activity_logs_frame.
  assert (Hcack : acknowledged sent_commits -> reached ->
                  forall c, c ∈ Database.git_commits (db w')
                            <-> c ∈ Database.git_commits (db w) /\ c ∉ commits).
  { intros Ha Hr c. rewrite HC.
    rewrite (sync_activity_logs_completes env w Hup Hr).
    rewrite (sync_git_commits_ack env _ Hreadc Hdelc); rewrite Hcommits1;
      [| exact Ha].
    apply (delete_batch GitCommit.id _ _ 20 c Hwc). }
  assert (Hcnack : ~ acknowledged sent_commits \/ ~ reached ->
                   Database.git_commits (db w') = Database.git_commits (db w)).
  { intros Hn. rewrite HC.
    destruct (fst (Tracker.sync_activity_logs env w)) as [[] | e] eqn:H1;
      [| reflexivity].
    destruct Hn as [Hn | Hn].
    - rewrite sync_git_commits_nack; rewrite Hcommits1; auto.
    - exfalso.
      assert (Hne : logs <> []) by (intros E; apply Hn; now left).
      assert (Hth : threw sent_logs).
      { destruct (threw_dec sent_logs) as [Hth | Hnth]; [exact Hth |].
        exfalso. apply Hn. now right. }
      pose proof (sync_activity_logs_rejects env w Hne Hth) as Hrej.
      rewrite H1 in Hrej. exact Hrej. }
  split; [| split; [exact Hack | split; [exact Hnack |]]].
  { intros Hne. split.
    - intros Hgone.
      destruct (acknowledged_dec sent_logs) as [Ha | Hn]; [exact Ha |].
      exfalso.
      apply (batch_not_gone (Database.activity_logs (db w)) 50 Hne).
      rewrite (Hnack Hn) in Hgone. exact Hgone.
    - intros Ha r Hr Hin. apply (Hack Ha) in Hin as [_ Hnot]. contradiction. }
  split; [| split; [exact Hcack | exact Hcnack]].
  intros Hne Hr. split.
  - intros Hgone.
    destruct (acknowledged_dec sent_commits) as [Ha | Hn]; [exact Ha |].
    exfalso.
    apply (batch_not_gone (Database.git_commits (db w)) 20 Hne).
    rewrite (Hcnack (or_introl Hn)) in Hgone. exact Hgone.
  - intros Ha c Hc Hin. apply (Hcack Ha Hr) in Hin as [_ Hnot]. contradiction.
Qed.

Lemma syncLoop_flush_spec (f : Database.Faults) (w : World) :
  let w1 := Tracker.syncLoop_flush f w in
  tracker w1 = set_queue [] (tracker w) /\ host w1 = host w
  /\ logger w1 =
     logged_failures (omap (Database.insertActivity_fault f) (queue (tracker w)))
                     (logger w)
  /\ exists rows,
       Database.activity_logs (db w1) = Database.activity_logs (db w) ++ rows
       /\ map payload rows = map payload (List.filter (stored f) (queue (tracker w))).
Proof.
  unfold Tracker.syncLoop_flush.
  destruct (queue (tracker w)) as [| log logs] eqn:Hq.
  - repeat split.
    + destruct w as [? ? ? ? [] ?]. simpl in *. now subst.
    + exists []. split; [now rewrite app_nil_r | reflexivity].
  - pose proof (save_logs_spec f (log :: logs)
                  (with_tracker (set_queue [] (tracker w)) w))
      as (Ht & _ & Hh & _ & Hl & _ & _ & Hrows).
    repeat split; assumption.
Qed.

(** C7: the flush step swaps the pending batch for an empty one and inserts
    each swapped-out record; a record whose insertion fails is logged and
    dropped (it is in neither the store nor the pending batch afterwards),
    the remaining records are still inserted, and the iteration goes on to
    the sync step and re-arms the timer. *)
Theorem flush_drops_failed_records (env : SyncEnv) (w : World) :
  isTracking (tracker w) = true ->
  let f := env_faults env in
  let w1 := Tracker.syncLoop_flush f w in
  let w2 := Tracker.syncLoop env w in
  queue (tracker w1) = []
  /\ (exists rows,
        Database.activity_logs (db w1) = Database.activity_logs (db w) ++ rows
        /\ map payload rows = map payload (List.filter (stored f) (queue (tracker w))))
  /\ logger w1 =
     logged_failures (omap (Database.insertActivity_fault f) (queue (tracker w)))
                     (logger w)
  /\ w2 = Tracker.syncLoop_reschedule (Tracker.syncLoop_sync env w1)
  /\ queue (tracker w2) = []
  /\ syncTimer (tracker w2) = Some (timer_seq (host w))
  /\ timer_seq (host w) ∈ timers (host w2).
Proof.
  intros Hon f w1 w2.
  pose proof (syncLoop_flush_spec f w) as (Ht & Hh & Hl & Hrows). fold w1 in Ht, Hh, Hl, Hrows.
  pose proof (syncLoop_sync_frame env w1) as (Ht2 & _ & Hh2).
  assert (Hw2 : w2 = Tracker.syncLoop_reschedule (Tracker.syncLoop_sync env w1)).
  { unfold w2, Tracker.syncLoop. now rewrite Hon. }
  split; [now rewrite Ht |]. split; [exact Hrows |]. split; [exact Hl |].
  split; [exact Hw2 |].
  rewrite Hw2. unfold Tracker.syncLoop_reschedule, setTimeout. simpl.
  rewrite Ht2, Hh2, Ht, Hh. simpl.
  repeat split. apply elem_of_app. right. left.
Qed.

(** The API client of the sources turns a failed request into [false]: its
    submit calls never throw. *)
Lemma ApiClient_never_throws (client : ApiClient.GraphQLClient)
    (logs : list ActivityLog.t) (commits : list GitCommit.t) :
  ~ threw (fst (api_syncActivities (ApiClient.constructor client) logs))
  /\ ~ threw (fst (api_syncCommits (ApiClient.constructor client) commits)).
Proof.
  simpl. unfold ApiClient.syncActivities, ApiClient.syncCommits. split.
  - destruct logs; [auto |].
    destruct (ApiClient.request_SyncActivity client _); auto.
  - destruct commits; [auto |].
    destruct (ApiClient.request_SyncCommits client _); auto.
Qed.

(** Whatever the store does, a batch that was not acknowledged stays. *)
Lemma sync_keeps_unacknowledged (env : SyncEnv) (w0 : World) :
  isTracking (tracker w0) = true ->
  let w := Tracker.syncLoop_flush (env_faults env) w0 in
  let w' := Tracker.syncLoop env w0 in
  (~ acknowledged (fst (api_syncActivities (env_api env)
                          (take 50 (Database.activity_logs (db w))))) ->
   Database.activity_logs (db w') = Database.activity_logs (db w))
  /\ (~ acknowledged (fst (api_syncCommits (env_api env)
                             (take 20 (Database.git_commits (db w))))) ->
      Database.git_commits (db w') = Database.git_commits (db w)).
Proof.
  intros Hon w w'. unfold w'. rewrite (syncLoop_db env w0 Hon). fold w. split.
  - intros Hn. rewrite syncLoop_sync_activity_logs.
    now apply sync_activity_logs_nack.
  - intros Hn. rewrite syncLoop_sync_git_commits.
    pose proof (sync_activity_logs_frame env w) as (_ & _ & _ & Hc).
    destruct (fst (Tracker.sync_activity_logs env w)); [| reflexivity].
    rewrite sync_git_commits_nack; rewrite Hc; auto.
Qed.

(** An acknowledged batch whose deletion throws: the iteration ends in the
    catch block with the store as the flush left it. *)
Lemma sync_failed_delete (env : SyncEnv) (w0 : World) (e : Error) :
  isTracking (tracker w0) = true ->
  Database.getUnsyncedLogs_fault (env_faults env) = None ->
  Database.deleteLogs_fault (env_faults env) = Some e ->
  let w := Tracker.syncLoop_flush (env_faults env) w0 in
  let logs := take 50 (Database.activity_logs (db w)) in
  logs <> [] ->
  acknowledged (fst (api_syncActivities (env_api env) logs)) ->
  db (Tracker.syncLoop env w0) = db w.
Proof.
  intros Hon Hread Hdel w logs Hne Hack.
  rewrite (syncLoop_db env w0 Hon). fold w.
  unfold Tracker.syncLoop_sync. async_unfold. rewrite Hread. simpl.
  fold logs. destruct logs as [| l logs']; [now contradiction Hne |]. simpl.
  unfold acknowledged in Hack.
  destruct (api_syncActivities (env_api env) (l :: logs')) as [res lf].
  simpl in Hack. subst res. simpl. rewrite Hdel. reflexivity.
Qed.

(** C3 (amended): in an iteration of the sync loop that has passed the
    [isTracking] guard, a batch whose submit call returned false or threw is
    left in the store, every record of it, whatever the store does.  When the
    store's rows carry distinct identifiers and its queries and deletions do
    not throw, the batch of unsynced activity logs is deleted, by identifier,
    if and only if its submit call returned true, and then nothing but the
    batch is deleted; the same holds of the batch of unsynced commits, which
    is read once the activity logs have been dealt with without an
    exception.  When the deletion of an acknowledged batch of activity logs
    throws, the store is left as it was. *)
Theorem sync_deletes_iff_acknowledged (env : SyncEnv) (w0 : World) :
  isTracking (tracker w0) = true ->
  let w := Tracker.syncLoop_flush (env_faults env) w0 in
  let w' := Tracker.syncLoop env w0 in
  let logs := take 50 (Database.activity_logs (db w)) in
  let commits := take 20 (Database.git_commits (db w)) in
  let sent_logs := fst (api_syncActivities (env_api env) logs) in
  let sent_commits := fst (api_syncCommits (env_api env) commits) in
  let reached := logs = [] \/ ~ threw sent_logs in
  (~ acknowledged sent_logs ->
   Database.activity_logs (db w') = Database.activity_logs (db w))
  /\ (~ acknowledged sent_commits ->
      Database.git_commits (db w') = Database.git_commits (db w))
  /\ (store_wf (db w0) -> store_answers (env_faults env) ->
      (logs <> [] ->
       (forall r, r ∈ logs -> r ∉ Database.activity_logs (db w'))
       <-> acknowledged sent_logs)
      /\ (acknowledged sent_logs ->
          forall r, r ∈ Database.activity_logs (db w')
                    <-> r ∈ Database.activity_logs (db w) /\ r ∉ logs)
      /\ (commits <> [] -> reached ->
          (forall c, c ∈ commits -> c ∉ Database.git_commits (db w'))
          <-> acknowledged sent_commits)
      /\ (acknowledged sent_commits -> reached ->
          forall c, c ∈ Database.git_commits (db w')
                    <-> c ∈ Database.git_commits (db w) /\ c ∉ commits)
      /\ (~ reached ->
          Database.git_commits (db w') = Database.git_commits (db w)))
  /\ (forall e,
        Database.getUnsyncedLogs_fault (env_faults env) = None ->
        Database.deleteLogs_fault (env_faults env) = Some e ->
        logs <> [] -> acknowledged sent_logs ->
        db w' = db w).
Proof.
  intros Hon w w' logs commits sent_logs sent_commits reached.
  destruct (sync_keeps_unacknowledged env w0 Hon) as [Hlogs Hcommits].
  split; [exact Hlogs |]. split; [exact Hcommits |].
  split.
  2: { intros e Hread Hdel Hne Hack.
       exact (sync_failed_delete env w0 e Hon Hread Hdel Hne Hack). }
  intros Hwf Hup.
  destruct (sync_answering_store env w0 Hon Hwf Hup)
    as (H1 & H2 & _ & H4 & H5 & H6).
  split; [exact H1 |]. split; [exact H2 |]. split; [exact H4 |].
  split; [exact H5 |].
  intros Hn. apply H6. now right.
Qed.

(** C3, as stated, fails when the store cannot delete: three unsynced
    records are read, the submit call returns true, the deletion throws, and
    all three records are still in the store after the iteration. *)
Lemma sync_acknowledged_not_deleted_counterexample :
  let env := mkEnv undeletable_logs online_api in
  let w := Tracker.syncLoop_flush undeletable_logs three_pending in
  let w' := Tracker.syncLoop env three_pending in
  let logs := take 50 (Database.activity_logs (db w)) in
  isTracking (tracker three_pending) = true
  /\ map stamp logs = [(10000, 0); (13000, 3000); (16000, 3000)]
  /\ fst (api_syncActivities online_api logs) = Resolved true
  /\ Database.activity_logs (db w') = Database.activity_logs (db w)
  /\ map stamp (Database.activity_logs (db w'))
     = [(10000, 0); (13000, 3000); (16000, 3000)].
Proof.
  intros env w w' logs.
  split; [reflexivity |]. split; [vm_compute; reflexivity |].
  split; [vm_compute; reflexivity |]. split; vm_compute; reflexivity.
Qed.

Lemma store_wf_three_pending_one_commit : store_wf (db three_pending_one_commit).
Proof.
  exact (store_wf_insertCommit Database.no_faults
           (GitTracker.make_commit "/p" "b2"
              (GitTracker.mkDetails "Fix the sync loop" "Ada" "ada@example.org"
                 (Js.Num 1700000000000) 2 3 1)
              (Some "main"))
           Database.empty store_wf_empty).
Qed.

(** The spec's scenario, with a commit waiting as well: three unsynced
    activity records and one unsynced commit, both submit calls return false,
    and the store still holds all four after the iteration; with a client
    that is online the same four records are deleted. *)
Lemma sync_deletes_iff_acknowledged_witness :
  let env := mkEnv Database.no_faults offline_api in
  let w := Tracker.syncLoop_flush Database.no_faults three_pending_one_commit in
  let w' := Tracker.syncLoop env three_pending_one_commit in
  let v := Tracker.syncLoop (mkEnv Database.no_faults online_api)
             three_pending_one_commit in
  isTracking (tracker three_pending_one_commit) = true
  /\ store_wf (db three_pending_one_commit)
  /\ store_answers Database.no_faults
  /\ map stamp (take 50 (Database.activity_logs (db w)))
     = [(10000, 0); (13000, 3000); (16000, 3000)]
  /\ map GitCommit.commitHash (take 20 (Database.git_commits (db w))) = ["b2"]
  /\ Database.activity_logs (db w') = Database.activity_logs (db w)
  /\ Database.git_commits (db w') = Database.git_commits (db w)
  /\ (forall r, r ∈ take 50 (Database.activity_logs (db w)) ->
        r ∉ Database.activity_logs (db v))
  /\ (forall c, c ∈ take 20 (Database.git_commits (db w)) ->
        c ∉ Database.git_commits (db v)).
Proof.
  intros env w w' v.
  assert (Hon : isTracking (tracker three_pending_one_commit) = true)
    by reflexivity.
  assert (Hup : store_answers Database.no_faults) by (repeat split).
  destruct (sync_deletes_iff_acknowledged env three_pending_one_commit Hon)
    as (Hlogs & Hcommits & _).
  destruct (sync_deletes_iff_acknowledged
              (mkEnv Database.no_faults online_api) three_pending_one_commit Hon)
    as (_ & _ & Honline & _).
  destruct (Honline store_wf_three_pending_one_commit Hup)
    as (Hl & _ & Hc & _).
  split; [exact Hon |]. split; [exact store_wf_three_pending_one_commit |].
  split; [exact Hup |]. split; [reflexivity |]. split; [reflexivity |].
  split; [apply Hlogs; vm_compute; discriminate |].
  split; [apply Hcommits; vm_compute; discriminate |].
  split.
  - apply Hl; [vm_compute; discriminate | vm_compute; reflexivity].
  - apply Hc; [vm_compute; discriminate | right; vm_compute; tauto
              | vm_compute; reflexivity].
Defined.

(** Three pending records, the store rejects the second: the first and the
    third are stored, the failure is logged, the pending batch is empty and
    the timer is armed again. *)
Lemma flush_drops_failed_records_witness :
  let env := mkEnv rejects_13000 offline_api in
  let w1 := Tracker.syncLoop_flush rejects_13000 three_pending in
  let w2 := Tracker.syncLoop env three_pending in
  isTracking (tracker three_pending) = true
  /\ pending three_pending = [(10000, 0); (13000, 3000); (16000, 3000)]
  /\ map stamp (Database.activity_logs (db w1)) = [(10000, 0); (16000, 3000)]
  /\ map Logger.line_message (Logger.outputChannel (logger w1))
     = ["[INFO] Tracking started"; "[ERROR] Failed to save activity to DB"]
  /\ queue (tracker w1) = []
  /\ queue (tracker w2) = []
  /\ syncTimer (tracker w2) = Some 0%nat.
Proof.
  intros env w1 w2.
  pose proof (flush_drops_failed_records env three_pending eq_refl)
    as (Hq1 & _ & _ & _ & Hq2 & Ht & _).
  split; [reflexivity |]. split; [reflexivity |]. split; [reflexivity |].
  split; [reflexivity |]. split; [exact Hq1 |]. split; [exact Hq2 | exact Ht].
Defined.

(** ** The git tracker *)

Lemma getCurrentCommit_rejected (g : GitTracker.Git) (p : string) (w : World) (e : Error) :
  g head_query p = Rejected e ->
  GitTracker.getCurrentCommit g p w
  = (Resolved None,
     log_ (Logger.debug
             ("Not a git repository or error getting commit: " +:+ p)) w).
Proof.
  intros H. unfold GitTracker.getCurrentCommit, try_catch, bind,
    GitTracker.execAsync, exec_, ret.
  unfold head_query in H. now rewrite H.
Qed.

Lemma getCurrentCommit_resolved (g : GitTracker.Git) (p : string) (w : World)
    (stdout : string) :
  g head_query p = Resolved stdout ->
  GitTracker.getCurrentCommit g p w = (Resolved (Some (Js.trim stdout)), w).
Proof.
  intros H. unfold GitTracker.getCurrentCommit, try_catch, bind,
    GitTracker.execAsync, exec_, ret.
  unfold head_query in H. now rewrite H.
Qed.

Lemma getCurrentBranch_returns (g : GitTracker.Git) (p : string) (w : World) :
  exists b, GitTracker.getCurrentBranch g p w = (Resolved b, w).
Proof.
  unfold GitTracker.getCurrentBranch, try_catch, bind, GitTracker.execAsync, ret.
  destruct (g _ p); eauto.
Qed.

(** [getCommitDetails] never throws; it writes to the logger, and only when
    it has no details to return. *)
Lemma getCommitDetails_returns (g : GitTracker.Git) (p h : string) (w : World) :
  (exists d, GitTracker.getCommitDetails g p h w = (Resolved (Some d), w))
  \/ (exists e,
        GitTracker.getCommitDetails g p h w
        = (Resolved None,
           log_ (Logger.error "Error getting commit details" e) w)).
Proof.
  unfold GitTracker.getCommitDetails, try_catch, bind, GitTracker.Promise_all4,
    GitTracker.execAsync, exec_, ret.
  destruct (g _ p) as [m | e1]; [| right; eauto].
  destruct (g _ p) as [a | e2]; [| right; eauto].
  destruct (g _ p) as [ae | e3]; [| right; eauto].
  destruct (g _ p) as [t | e4]; [| right; eauto].
  destruct (g _ p) as [st | e5]; [| right; eauto].
  left. destruct (Js.match_stats st) as [[g1 g2] |]; eauto.
Qed.

Lemma getCommitDetails_fails (g : GitTracker.Git) (p h : string) (w : World) :
  detail_query_fails g p h ->
  fst (GitTracker.getCommitDetails g p h w) = Resolved None.
Proof.
  intros (q & Hq & Hthrew).
  unfold GitTracker.getCommitDetails, try_catch, bind, GitTracker.Promise_all4,
    GitTracker.execAsync, exec_, ret.
  unfold detail_queries in Hq.
  repeat (apply elem_of_cons in Hq as [-> | Hq]);
    [| | | | now apply not_elem_of_nil in Hq].
  all: destruct (g ("git log -1 --format=%s " +:+ h) p) as [m | e1];
    [| reflexivity].
  all: destruct (g ("git log -1 --format=%an " +:+ h) p) as [a | e2];
    [| reflexivity].
  all: destruct (g ("git log -1 --format=%ae " +:+ h) p) as [ae | e3];
    [| reflexivity].
  all: destruct (g ("git log -1 --format=%at " +:+ h) p) as [t | e4];
    [| reflexivity].
  all: now destruct Hthrew.
Qed.

Lemma getCommitDetails_details_of (g : GitTracker.Git) (p h : string) (w : World) :
  fst (GitTracker.getCommitDetails g p h w) = Resolved (details_of g p h)
  /\ db (snd (GitTracker.getCommitDetails g p h w)) = db w
  /\ git (snd (GitTracker.getCommitDetails g p h w)) = git w
  /\ tracker (snd (GitTracker.getCommitDetails g p h w)) = tracker w
  /\ host (snd (GitTracker.getCommitDetails g p h w)) = host w.
Proof.
  unfold details_of.
  unfold GitTracker.getCommitDetails, try_catch, bind, GitTracker.Promise_all4,
    GitTracker.execAsync, exec_, ret.
  destruct (g _ p) as [m | e1]; [| simpl; auto].
  destruct (g _ p) as [a | e2]; [| simpl; auto].
  destruct (g _ p) as [ae | e3]; [| simpl; auto].
  destruct (g _ p) as [t | e4]; [| simpl; auto].
  destruct (g _ p) as [st | e5]; [| simpl; auto].
  destruct (Js.match_stats st) as [[g1 g2] |]; simpl; auto.
Qed.

Lemma details_of_fails (g : GitTracker.Git) (p h : string) :
  detail_query_fails g p h -> details_of g p h = None.
Proof.
  intros H. unfold details_of.
  now rewrite (getCommitDetails_fails g p h _ H).
Qed.

Lemma falsy_truthy (h : string) :
  Js.truthy h = true -> GitTracker.falsy (Some h) = false.
Proof. intros H. simpl. now rewrite H. Qed.

(** A call that finds HEAD where the project's entry already is does nothing. *)
Lemma trackCommitChange_same (g : GitTracker.Git) (f : Database.Faults) (now : Z)
    (p h : string) (w : World) :
  head_is g p h ->
  currentCommit (git w) !! p = Some h ->
  GitTracker.trackCommitChange g f now p w = (Resolved tt, w).
Proof.
  intros (out & Hout & Htrim & Htruthy) Hold.
  unfold GitTracker.trackCommitChange, bind.
  rewrite (getCurrentCommit_resolved g p w out Hout), Htrim.
  rewrite (falsy_truthy h Htruthy). simpl.
  rewrite Hold. now rewrite bool_decide_eq_true_2.
Qed.

(** A call that finds HEAD elsewhere: what it returns and what it leaves. *)
Lemma trackCommitChange_detects (g : GitTracker.Git) (f : Database.Faults) (now : Z)
    (p h : string) (w : World) :
  head_is g p h ->
  currentCommit (git w) !! p <> Some h ->
  let r := GitTracker.trackCommitChange g f now p w in
  tracker (snd r) = tracker w /\ host (snd r) = host w
  /\ match details_of g p h with
     | None =>
         fst r = Resolved tt /\ db (snd r) = db w
         /\ git (snd r) = git (GitTracker.set_commit p h now w)
     | Some d =>
         exists b,
           let c := GitTracker.make_commit p h d b in
           match Database.insertCommit_fault f c with
           | None =>
               fst r = Resolved tt
               /\ db (snd r) = snd (Database.insertCommit f c (db w))
               /\ git (snd r) = git (GitTracker.set_commit p h now w)
           | Some e =>
               fst r = Rejected e /\ db (snd r) = db w /\ git (snd r) = git w
           end
     end.
Proof.
  intros (out & Hout & Htrim & Htruthy) Hold r. subst r.
  unfold GitTracker.trackCommitChange, bind.
  rewrite (getCurrentCommit_resolved g p w out Hout), Htrim.
  rewrite (falsy_truthy h Htruthy). simpl.
  rewrite bool_decide_eq_false_2 by exact Hold.
  unfold exec_ at 1.
  set (w1 := log_ _ w).
  pose proof (getCommitDetails_details_of g p h w1) as (Hd & Hdb & Hgit & Htr & Hh).
  destruct (GitTracker.getCommitDetails g p h w1) as [rd w2]. simpl in *.
  subst rd.
  destruct (getCurrentBranch_returns g p w2) as [b ->].
  destruct (details_of g p h) as [d |].
  - unfold on_db, Database.insertCommit, exec_.
    destruct (Database.insertCommit_fault f (GitTracker.make_commit p h d b))
      as [e |] eqn:Hf; simpl.
    + split; [congruence |]. split; [congruence |].
      exists b. simpl. rewrite Hf. repeat split; congruence.
    + split; [congruence |]. split; [congruence |].
      exists b. simpl. rewrite Hf. repeat split.
      * now rewrite Hdb.
      * unfold GitTracker.set_commit. simpl. now rewrite Hgit.
  - unfold exec_, ret. simpl.
    repeat split;
      first [congruence
            | unfold GitTracker.set_commit; simpl; now rewrite Hgit].
Qed.

Lemma initializeProject_seeds (g : GitTracker.Git) (f : Database.Faults) (now : Z)
    (p h : string) (w : World) :
  head_is g p h ->
  let r := GitTracker.initializeProject g f now p w in
  tracker (snd r) = tracker w /\ host (snd r) = host w
  /\ git (snd r) = git (GitTracker.set_commit p h now w)
  /\ match details_of g p h with
     | None => fst r = Resolved tt /\ db (snd r) = db w
     | Some d =>
         exists b,
           let c := GitTracker.make_commit p h d b in
           match Database.insertCommit_fault f c with
           | None =>
               fst r = Resolved tt
               /\ db (snd r) = snd (Database.insertCommit f c (db w))
           | Some e => fst r = Rejected e /\ db (snd r) = db w
           end
     end.
Proof.
  intros (out & Hout & Htrim & Htruthy) r. subst r.
  unfold GitTracker.initializeProject, bind.
  rewrite (getCurrentCommit_resolved g p w out Hout), Htrim.
  rewrite (falsy_truthy h Htruthy). simpl.
  set (w1 := GitTracker.set_commit p h now w).
  pose proof (getCommitDetails_details_of g p h w1) as (Hd & Hdb & Hgit & Htr & Hh).
  destruct (GitTracker.getCommitDetails g p h w1) as [rd w2]. simpl in *.
  subst rd.
  destruct (getCurrentBranch_returns g p w2) as [b ->].
  destruct (details_of g p h) as [d |].
  - unfold on_db, Database.insertCommit, ret.
    destruct (Database.insertCommit_fault f (GitTracker.make_commit p h d b))
      as [e |] eqn:Hf; simpl.
    + repeat (split; [congruence |]).
      exists b. simpl. rewrite Hf. split; congruence.
    + repeat (split; [congruence |]).
      exists b. simpl. rewrite Hf. split; [reflexivity | now rewrite Hdb].
  - unfold ret. simpl. repeat split; congruence.
Qed.

(** C8: when the inspector's HEAD query fails (the path is not a git
    repository, say), [trackCommitChange] and [initializeProject] both return
    normally, persist no revision record and leave the per-project revision
    state as it was; [getCurrentCommit] reports no revision. *)
Theorem head_failure_is_swallowed (g : GitTracker.Git) (f : Database.Faults)
    (now : Z) (p : string) (w : World) (e : Error) :
  g head_query p = Rejected e ->
  let r1 := GitTracker.trackCommitChange g f now p w in
  let r2 := GitTracker.initializeProject g f now p w in
  fst (GitTracker.getCurrentCommit g p w) = Resolved None
  /\ (fst r1 = Resolved tt /\ db (snd r1) = db w /\ git (snd r1) = git w
      /\ GitTracker.getActiveCommit p (snd r1) = GitTracker.getActiveCommit p w)
  /\ (fst r2 = Resolved tt /\ db (snd r2) = db w /\ git (snd r2) = git w
      /\ GitTracker.getActiveCommit p (snd r2) = GitTracker.getActiveCommit p w).
Proof.
  intros H r1 r2. subst r1 r2.
  unfold GitTracker.trackCommitChange, GitTracker.initializeProject, bind.
  rewrite (getCurrentCommit_rejected g p w e H). simpl.
  repeat split.
Qed.

(** C4 (amended): when one of the concurrent detail sub-queries fails in a
    detection cycle, no revision record is persisted for that revision, and
    the hash [getActiveCommit] reports for the project is overwritten with
    the new HEAD by that same cycle; a later detection that finds the same
    HEAD does nothing.  [initializeProject] behaves alike. *)
Theorem failed_details_advance_revision (g : GitTracker.Git) (f : Database.Faults)
    (now : Z) (p h : string) (w : World) :
  head_is g p h ->
  currentCommit (git w) !! p <> Some h ->
  detail_query_fails g p h ->
  let r1 := GitTracker.trackCommitChange g f now p w in
  let r2 := GitTracker.initializeProject g f now p w in
  (fst r1 = Resolved tt /\ db (snd r1) = db w
   /\ GitTracker.getActiveCommit p (snd r1) = Some h
   /\ forall g' f' now', head_is g' p h ->
        GitTracker.trackCommitChange g' f' now' p (snd r1)
        = (Resolved tt, snd r1))
  /\ (fst r2 = Resolved tt /\ db (snd r2) = db w
      /\ GitTracker.getActiveCommit p (snd r2) = Some h).
Proof.
  intros Hhead Hold Hfail r1 r2.
  pose proof (trackCommitChange_detects g f now p h w Hhead Hold) as (_ & _ & H1).
  pose proof (initializeProject_seeds g f now p h w Hhead) as (_ & _ & Hg2 & H2).
  fold r1 in H1. fold r2 in Hg2, H2.
  rewrite (details_of_fails g p h Hfail) in H1, H2.
  destruct H1 as (Hr1 & Hdb1 & Hg1). destruct H2 as (Hr2 & Hdb2).
  assert (Ha1 : GitTracker.getActiveCommit p (snd r1) = Some h).
  { unfold GitTracker.getActiveCommit. rewrite Hg1. simpl.
    apply lookup_insert_eq. }
  repeat split; try assumption.
  - intros g' f' now' Hhead'.
    now apply (trackCommitChange_same g' f' now' p h).
  - unfold GitTracker.getActiveCommit. rewrite Hg2. simpl.
    apply lookup_insert_eq.
Qed.

(** Once a call has returned, the project's entry is at HEAD. *)
Lemma trackCommitChange_reaches_head (g : GitTracker.Git) (f : Database.Faults)
    (now : Z) (p h : string) (w : World) :
  head_is g p h ->
  fst (GitTracker.trackCommitChange g f now p w) = Resolved tt ->
  currentCommit (git (snd (GitTracker.trackCommitChange g f now p w))) !! p
  = Some h.
Proof.
  intros Hhead Hret.
  destruct (decide (currentCommit (git w) !! p = Some h)) as [Hold | Hold].
  - now rewrite (trackCommitChange_same g f now p h w Hhead Hold).
  - pose proof (trackCommitChange_detects g f now p h w Hhead Hold)
      as (_ & _ & H).
    destruct (details_of g p h) as [d |].
    + destruct H as (b & H). simpl in H.
      destruct (Database.insertCommit_fault f _) as [e |].
      * destruct H as (Hrej & _). rewrite Hrej in Hret. discriminate Hret.
      * destruct H as (_ & _ & ->). simpl. apply lookup_insert_eq.
    + destruct H as (_ & _ & ->). simpl. apply lookup_insert_eq.
Qed.

(** Detecting again with HEAD where it was is a no-op on the whole world. *)
Lemma trackCommitChange_again (g g' : GitTracker.Git) (f f' : Database.Faults)
    (now now' : Z) (p h : string) (w : World) :
  head_is g p h -> head_is g' p h ->
  fst (GitTracker.trackCommitChange g f now p w) = Resolved tt ->
  GitTracker.trackCommitChange g' f' now' p
    (snd (GitTracker.trackCommitChange g f now p w))
  = (Resolved tt, snd (GitTracker.trackCommitChange g f now p w)).
Proof.
  intros Hhead Hhead' Hret.
  apply (trackCommitChange_same g' f' now' p h); [exact Hhead' |].
  now apply (trackCommitChange_reaches_head g f now p h w).
Qed.

Lemma revisions_of_snoc (p h : string) (d : Database.t) (c : GitCommit.t) (i : Z)
    (f : Database.Faults) :
  Database.insertCommit_fault f c = None ->
  GitCommit.projectPath c = p -> GitCommit.commitHash c = h ->
  revisions_of p h (snd (Database.insertCommit f c d))
  = revisions_of p h d ++ [GitCommit.with_id (Some (Database.commit_seq d + 1)) c].
Proof.
  intros Hf Hp Hh. unfold revisions_of, Database.insertCommit. rewrite Hf. simpl.
  rewrite List.filter_app. simpl.
  rewrite Hp, Hh, !bool_decide_eq_true_2 by reflexivity. reflexivity.
Qed.

(** C5 (amended): two calls of [trackCommitChange] in succession for one
    project root, HEAD being [h] at both.  Whenever the first call returns,
    the second changes nothing, neither in the store nor in the per-project
    revision state, which is at [h].  The two calls store exactly one
    revision record for [h] when at the first call the project's entry is
    elsewhere, the details are fetched and the call returns; they store none
    when the project's entry was at [h] already or a detail query fails.
    When the first call throws (the store refused the record) it leaves the
    store and the revision state as they were. *)
Theorem trackCommitChange_idempotent (g g' : GitTracker.Git)
    (f f' : Database.Faults) (now now' : Z) (p h : string) (w : World) :
  head_is g p h ->
  head_is g' p h ->
  let r1 := GitTracker.trackCommitChange g f now p w in
  let w1 := snd r1 in
  let r2 := GitTracker.trackCommitChange g' f' now' p w1 in
  (fst r1 = Resolved tt ->
   r2 = (Resolved tt, w1) /\ GitTracker.getActiveCommit p w1 = Some h)
  /\ (fst r1 = Resolved tt ->
      currentCommit (git w) !! p <> Some h ->
      is_Some (details_of g p h) ->
      exists c,
        GitCommit.projectPath c = p /\ GitCommit.commitHash c = h
        /\ Database.git_commits (db (snd r2)) = Database.git_commits (db w) ++ [c]
        /\ revisions_of p h (db (snd r2)) = revisions_of p h (db w) ++ [c])
  /\ (currentCommit (git w) !! p = Some h \/ details_of g p h = None ->
      fst r1 = Resolved tt /\ db (snd r2) = db w)
  /\ (forall e, fst r1 = Rejected e -> db w1 = db w /\ git w1 = git w).
Proof.
  intros Hhead Hhead' r1 w1 r2.
  assert (Hagain : fst r1 = Resolved tt -> r2 = (Resolved tt, w1))
    by (intros Hret;
        now apply (trackCommitChange_again g g' f f' now now' p h w)).
  assert (Hsame : currentCommit (git w) !! p = Some h -> r1 = (Resolved tt, w))
    by (intros Hold; now apply (trackCommitChange_same g f now p h w)).
  split; [| split; [| split]].
  - intros Hret. split; [now apply Hagain |].
    now apply (trackCommitChange_reaches_head g f now p h w).
  - intros Hret Hold [d Hd]. rewrite (Hagain Hret). simpl.
    pose proof (trackCommitChange_detects g f now p h w Hhead Hold)
      as (_ & _ & H).
    rewrite Hd in H. destruct H as (b & H). simpl in H.
    destruct (Database.insertCommit_fault f (GitTracker.make_commit p h d b))
      as [e |] eqn:Hf.
    + destruct H as (Hrej & _). fold r1 in Hrej. rewrite Hrej in Hret.
      discriminate Hret.
    + destruct H as (_ & Hdb & _).
      exists (GitCommit.with_id (Some (Database.commit_seq (db w) + 1))
                (GitTracker.make_commit p h d b)).
      split; [reflexivity |]. split; [reflexivity |].
      unfold w1, r1. rewrite Hdb. split.
      * unfold Database.insertCommit. now rewrite Hf.
      * now apply revisions_of_snoc.
  - intros Hcase.
    assert (Hnone : fst r1 = Resolved tt /\ db w1 = db w).
    { destruct (decide (currentCommit (git w) !! p = Some h)) as [Hold | Hold].
      - unfold w1. rewrite (Hsame Hold). now split.
      - destruct Hcase as [Hold' | Hd]; [contradiction |].
        pose proof (trackCommitChange_detects g f now p h w Hhead Hold)
          as (_ & _ & H).
        rewrite Hd in H. destruct H as (Hr & Hdb & _). now split. }
    destruct Hnone as [Hret Hdb]. split; [exact Hret |].
    now rewrite (Hagain Hret).
  - intros e Hrej.
    destruct (decide (currentCommit (git w) !! p = Some h)) as [Hold | Hold].
    + rewrite (Hsame Hold) in Hrej. discriminate Hrej.
    + pose proof (trackCommitChange_detects g f now p h w Hhead Hold)
        as (_ & _ & H).
      fold r1 in H.
      destruct (details_of g p h) as [d |].
      * destruct H as (b & H). simpl in H.
        destruct (Database.insertCommit_fault f _) as [e' |].
        -- destruct H as (_ & Hdb & Hg). now split.
        -- destruct H as (Hr & _). rewrite Hr in Hrej. discriminate Hrej.
      * destruct H as (Hr & _). rewrite Hr in Hrej. discriminate Hrej.
Qed.

(** Whatever the inspector and the store do, two detections in a row with
    HEAD unchanged store at most one record, and none for another revision. *)
Lemma trackCommitChange_twice_at_most_one (g g' : GitTracker.Git)
    (f f' : Database.Faults) (now now' : Z) (p h : string) (w : World) :
  head_is g p h ->
  head_is g' p h ->
  fst (GitTracker.trackCommitChange g f now p w) = Resolved tt ->
  let w2 := snd (GitTracker.trackCommitChange g' f' now' p
                   (snd (GitTracker.trackCommitChange g f now p w))) in
  Database.git_commits (db w2) = Database.git_commits (db w)
  \/ exists c,
       GitCommit.projectPath c = p /\ GitCommit.commitHash c = h
       /\ Database.git_commits (db w2) = Database.git_commits (db w) ++ [c].
Proof.
  intros Hhead Hhead' Hret w2. unfold w2.
  rewrite (trackCommitChange_again g g' f f' now now' p h w Hhead Hhead' Hret).
  simpl.
  destruct (decide (currentCommit (git w) !! p = Some h)) as [Hold | Hold].
  - left. now rewrite (trackCommitChange_same g f now p h w Hhead Hold).
  - pose proof (trackCommitChange_detects g f now p h w Hhead Hold)
      as (_ & _ & H).
    destruct (details_of g p h) as [d |].
    + destruct H as (b & H). simpl in H.
      destruct (Database.insertCommit_fault f (GitTracker.make_commit p h d b))
        as [e |] eqn:Hf.
      * destruct H as (Hrej & _). rewrite Hrej in Hret. discriminate Hret.
      * destruct H as (_ & Hdb & _). right.
        exists (GitCommit.with_id (Some (Database.commit_seq (db w) + 1))
                  (GitTracker.make_commit p h d b)).
        split; [reflexivity |]. split; [reflexivity |].
        rewrite Hdb. unfold Database.insertCommit. now rewrite Hf.
    + destruct H as (_ & -> & _). now left.
Qed.

(** C4, as stated, fails: the project /p was last seen at a1, HEAD is now
    b2 and the query for the subject line fails.  The cycle stores no
    record, yet [getActiveCommit] reports b2 afterwards, not the last known
    value a1. *)
Lemma failed_details_counterexample :
  let r := GitTracker.trackCommitChange repo_subject_fails Database.no_faults
             5000 "/p" seen_at_a1 in
  threw (repo_subject_fails "git log -1 --format=%s b2" "/p")
  /\ GitTracker.getActiveCommit "/p" seen_at_a1 = Some "a1"
  /\ fst r = Resolved tt
  /\ Database.git_commits (db (snd r)) = []
  /\ GitTracker.getActiveCommit "/p" (snd r) = Some "b2"
  /\ GitTracker.getActiveCommit "/p" (snd r)
     <> GitTracker.getActiveCommit "/p" seen_at_a1.
Proof.
  vm_compute. repeat split; try reflexivity. discriminate.
Qed.

Lemma head_is_b2 : head_is repo_at_b2 "/p" "b2".
Proof. exists ("b2" +:+ newline). repeat split. Qed.

Lemma head_is_b2_subject_fails : head_is repo_subject_fails "/p" "b2".
Proof. exists ("b2" +:+ newline). repeat split. Qed.

Lemma seen_at_a1_not_b2 : currentCommit (git seen_at_a1) !! "/p" <> Some "b2".
Proof. vm_compute. discriminate. Qed.

Lemma failed_details_advance_revision_witness :
  let r := GitTracker.trackCommitChange repo_subject_fails Database.no_faults
             5000 "/p" seen_at_a1 in
  head_is repo_subject_fails "/p" "b2"
  /\ currentCommit (git seen_at_a1) !! "/p" <> Some "b2"
  /\ detail_query_fails repo_subject_fails "/p" "b2"
  /\ fst r = Resolved tt
  /\ db (snd r) = db seen_at_a1
  /\ GitTracker.getActiveCommit "/p" (snd r) = Some "b2".
Proof.
  intros r.
  assert (Hfail : detail_query_fails repo_subject_fails "/p" "b2").
  { exists "git log -1 --format=%s b2". split; [left | exact I]. }
  pose proof (failed_details_advance_revision repo_subject_fails
                Database.no_faults 5000 "/p" "b2" seen_at_a1
                head_is_b2_subject_fails seen_at_a1_not_b2 Hfail)
    as ((H1 & H2 & H3 & _) & _).
  split; [exact head_is_b2_subject_fails |].
  split; [exact seen_at_a1_not_b2 |].
  split; [exact Hfail |].
  split; [exact H1 |]. split; [exact H2 | exact H3].
Defined.

(** C5, as stated, fails in two ways with HEAD at b2 throughout and the
    project /p last seen at a1.  When the query for the subject line fails,
    both calls return and no record is stored for b2.  When the store
    refuses the record at the first call and takes it at the second, the
    first call throws and it is the second call that stores the record and
    moves the project to b2. *)
Lemma trackCommitChange_twice_counterexample :
  let r1 := GitTracker.trackCommitChange repo_subject_fails Database.no_faults
              5000 "/p" seen_at_a1 in
  let r2 := GitTracker.trackCommitChange repo_subject_fails Database.no_faults
              9000 "/p" (snd r1) in
  let s1 := GitTracker.trackCommitChange repo_at_b2 refuses_commits
              5000 "/p" seen_at_a1 in
  let s2 := GitTracker.trackCommitChange repo_at_b2 Database.no_faults
              9000 "/p" (snd s1) in
  head_is repo_subject_fails "/p" "b2" /\ head_is repo_at_b2 "/p" "b2"
  /\ (fst r1 = Resolved tt /\ fst r2 = Resolved tt
      /\ revisions_of "/p" "b2" (db (snd r2)) = [])
  /\ (fst s1 = Rejected (mkError "SQLITE_FULL" None)
      /\ GitTracker.getActiveCommit "/p" (snd s1) = Some "a1"
      /\ map GitCommit.commitHash (Database.git_commits (db (snd s1))) = []
      /\ fst s2 = Resolved tt
      /\ GitTracker.getActiveCommit "/p" (snd s2) = Some "b2"
      /\ map GitCommit.commitHash (Database.git_commits (db (snd s2))) = ["b2"]).
Proof.
  intros r1 r2 s1 s2.
  split; [exact head_is_b2_subject_fails |]. split; [exact head_is_b2 |].
  split; [split; [| split] | split; [| split; [| split; [| split; [| split]]]]];
    vm_compute; reflexivity.
Qed.

(** The spec's scenario: the revision of /p changes from a1 to b2; the first
    detection stores the record for b2 and leaves the project at b2, the
    second changes nothing. *)
Lemma trackCommitChange_idempotent_witness :
  let r1 := GitTracker.trackCommitChange repo_at_b2 Database.no_faults
              5000 "/p" seen_at_a1 in
  let r2 := GitTracker.trackCommitChange repo_at_b2 Database.no_faults
              9000 "/p" (snd r1) in
  head_is repo_at_b2 "/p" "b2"
  /\ fst r1 = Resolved tt
  /\ currentCommit (git seen_at_a1) !! "/p" <> Some "b2"
  /\ is_Some (details_of repo_at_b2 "/p" "b2")
  /\ r2 = (Resolved tt, snd r1)
  /\ GitTracker.getActiveCommit "/p" (snd r1) = Some "b2"
  /\ map GitCommit.commitHash (Database.git_commits (db (snd r2))) = ["b2"]
  /\ exists c,
       GitCommit.projectPath c = "/p" /\ GitCommit.commitHash c = "b2"
       /\ Database.git_commits (db (snd r2))
          = Database.git_commits (db seen_at_a1) ++ [c]
       /\ revisions_of "/p" "b2" (db (snd r2))
          = revisions_of "/p" "b2" (db seen_at_a1) ++ [c].
Proof.
  intros r1 r2.
  assert (Hd : is_Some (details_of repo_at_b2 "/p" "b2"))
    by (vm_compute; eauto).
  assert (Hret : fst r1 = Resolved tt) by (vm_compute; reflexivity).
  destruct (trackCommitChange_idempotent repo_at_b2 repo_at_b2
              Database.no_faults Database.no_faults 5000 9000 "/p" "b2"
              seen_at_a1 head_is_b2 head_is_b2)
    as (H1 & H2 & _).
  destruct (H1 Hret) as [Hnoop Hactive].
  split; [exact head_is_b2 |]. split; [exact Hret |].
  split; [exact seen_at_a1_not_b2 |]. split; [exact Hd |].
  split; [exact Hnoop |]. split; [exact Hactive |].
  split; [vm_compute; reflexivity |].
  exact (H2 Hret seen_at_a1_not_b2 Hd).
Defined.

Lemma head_failure_is_swallowed_witness :
  let r1 := GitTracker.trackCommitChange not_a_repo Database.no_faults
              5000 "/tmp/notes" seen_at_a1 in
  let r2 := GitTracker.initializeProject not_a_repo Database.no_faults
              5000 "/tmp/notes" seen_at_a1 in
  not_a_repo head_query "/tmp/notes"
  = Rejected (mkError "fatal: not a git repository" None)
  /\ r1 = (Resolved tt, seen_at_a1)
  /\ r2 = (Resolved tt, seen_at_a1)
  /\ GitTracker.getActiveCommit "/tmp/notes" (snd r1) = None
  /\ fst (GitTracker.getCurrentCommit not_a_repo "/tmp/notes" seen_at_a1)
     = Resolved None.
Proof.
  intros r1 r2.
  pose proof (head_failure_is_swallowed not_a_repo Database.no_faults 5000
                "/tmp/notes" seen_at_a1 _ eq_refl) as (H & _).
  split; [reflexivity |]. split; [reflexivity |]. split; [reflexivity |].
  split; [reflexivity | exact H].
Defined.

(** ** Starting, stopping and the timer *)

Lemma handleActivity_frame (vs : VsCode) (now : Z) (w : World) :
  let w' := Tracker.handleActivity vs now w in
  host w' = host w /\ db w' = db w
  /\ isTracking (tracker w') = isTracking (tracker w)
  /\ syncTimer (tracker w') = syncTimer (tracker w).
Proof.
  unfold Tracker.handleActivity.
  destruct (_ <? _); [auto |].
  destruct (activeTextEditor vs); simpl; auto.
Qed.

Lemma deliver_frame (vs : VsCode) (now : Z) (w : World) :
  let w' := Tracker.deliver vs now w in
  host w' = host w /\ db w' = db w
  /\ isTracking (tracker w') = isTracking (tracker w)
  /\ syncTimer (tracker w') = syncTimer (tracker w).
Proof.
  unfold Tracker.deliver.
  generalize (listeners (host w)) as ls. intros ls. revert w.
  induction ls as [| l ls IH]; intros w; simpl; [auto |].
  destruct (IH (Tracker.handleActivity vs now w)) as (H1 & H2 & H3 & H4).
  destruct (handleActivity_frame vs now w) as (G1 & G2 & G3 & G4).
  repeat split; congruence.
Qed.

(** The rest of an iteration, from any suspension point: it arms one timer
    and keeps the tracking flag. *)
Lemma syncLoop_resume_spec (env : SyncEnv) (p : Tracker.Suspended) (w : World) :
  let w' := Tracker.syncLoop_resume env p w in
  timers (host w') = timers (host w) ++ [timer_seq (host w)]
  /\ timer_seq (host w') = S (timer_seq (host w))
  /\ listeners (host w') = listeners (host w)
  /\ syncTimer (tracker w') = Some (timer_seq (host w))
  /\ isTracking (tracker w') = isTracking (tracker w).
Proof.
  pose proof (syncLoop_flush_spec (env_faults env) w) as (Ht & Hh & _).
  pose proof (syncLoop_sync_frame env w) as (Ht1 & _ & Hh1).
  pose proof (syncLoop_sync_frame env (Tracker.syncLoop_flush (env_faults env) w))
    as (Ht2 & _ & Hh2).
  destruct p; unfold Tracker.syncLoop_resume, Tracker.syncLoop_reschedule,
    setTimeout; simpl.
  - rewrite Ht2, Hh2, Ht, Hh. simpl. auto.
  - rewrite Ht1, Hh1. auto.
  - auto.
Qed.

Lemma stopTracking_spec (w : World) :
  isTracking (tracker w) = true ->
  let w' := Tracker.stopTracking w in
  isTracking (tracker w') = false
  /\ db w' = db w
  /\ syncTimer (tracker w') = syncTimer (tracker w)
  /\ timer_seq (host w') = timer_seq (host w)
  /\ timers (host w')
     = match syncTimer (tracker w) with
       | Some h => List.filter (fun t => negb (Nat.eqb t h)) (timers (host w))
       | None => timers (host w)
       end.
Proof.
  destruct w as [lg sb d g [gt disp on q st last] h]. simpl.
  intros ->. unfold Tracker.stopTracking. simpl.
  destruct disp, st; simpl; repeat split; reflexivity.
Qed.

Lemma settled_initial (withGit : bool) : settled (initial_world withGit).
Proof. reflexivity. Qed.

Lemma settled_stopTracking (w : World) :
  settled w -> settled (Tracker.stopTracking w).
Proof.
  intros Hs. destruct (isTracking (tracker w)) eqn:Hon.
  - destruct (stopTracking_spec w Hon) as (Hoff & _ & _ & _ & Ht).
    unfold settled in *. rewrite Hoff. rewrite Hon in Hs.
    destruct Hs as (t & Htimers & Hsync). rewrite Ht, Hsync, Htimers. simpl.
    now rewrite Nat.eqb_refl.
  - unfold Tracker.stopTracking. now rewrite Hon.
Qed.

Lemma stopTracking_settled (w : World) :
  settled w -> timers (host (Tracker.stopTracking w)) = [].
Proof.
  intros Hs. pose proof (settled_stopTracking w Hs) as H.
  unfold settled in *.
  destruct (isTracking (tracker w)) eqn:Hon.
  - destruct (stopTracking_spec w Hon) as (Hoff & _). now rewrite Hoff in H.
  - unfold Tracker.stopTracking in *. rewrite Hon in *. exact Hs.
Qed.

Lemma settled_syncLoop (env : SyncEnv) (w : World) :
  isTracking (tracker w) = true -> timers (host w) = [] ->
  settled (Tracker.syncLoop env w).
Proof.
  intros Hon Hnone. unfold Tracker.syncLoop. rewrite Hon.
  cbn [negb].
  destruct (syncLoop_resume_spec env Tracker.BeforeFlush w)
    as (Ht & _ & _ & Hs & Hi).
  unfold settled. rewrite Hi, Hon. exists (timer_seq (host w)).
  rewrite Ht, Hnone. auto.
Qed.

Lemma settled_startTracking (env : SyncEnv) (w : World) :
  settled w -> settled (Tracker.startTracking env w).
Proof.
  intros Hs. unfold Tracker.startTracking.
  destruct (isTracking (tracker w)) eqn:Hon; [exact Hs |].
  apply settled_syncLoop; [reflexivity |].
  unfold settled in Hs. rewrite Hon in Hs. exact Hs.
Qed.

Lemma settled_fire_timer (env : SyncEnv) (handle : nat) (w : World) :
  settled w -> settled (Tracker.fire_timer env handle w).
Proof.
  intros Hs. unfold Tracker.fire_timer.
  destruct (bool_decide (handle ∈ timers (host w))) eqn:Hin; [| exact Hs].
  apply bool_decide_eq_true in Hin.
  unfold settled in Hs.
  destruct (isTracking (tracker w)) eqn:Hon.
  - destruct Hs as (t & Ht & _). rewrite Ht in Hin.
    apply list_elem_of_singleton in Hin as ->.
    apply settled_syncLoop; [exact Hon |].
    unfold clearTimeout. simpl. rewrite Ht. simpl. now rewrite Nat.eqb_refl.
  - rewrite Hs in Hin. now apply not_elem_of_nil in Hin.
Qed.

Lemma settled_deliver (vs : VsCode) (now : Z) (w : World) :
  settled w -> settled (Tracker.deliver vs now w).
Proof.
  destruct (deliver_frame vs now w) as (Hh & _ & Hi & Hs).
  unfold settled. now rewrite Hh, Hi, Hs.
Qed.

Lemma settled_run_ops (ops : list Op) (w : World) :
  settled w -> settled (run_ops ops w).
Proof.
  revert w. induction ops as [| op ops IH]; intros w Hs; [exact Hs |].
  simpl. apply IH. destruct op; simpl.
  - now apply settled_startTracking.
  - now apply settled_stopTracking.
  - now apply settled_fire_timer.
  - now apply settled_deliver.
Qed.





(** Tracking is started again before that stale timer fires: two timers are
    armed, and each keeps its own loop going. *)
Lemma restart_after_stop_in_flight :
  let env := mkEnv Database.no_faults offline_api in
  let w0 := Tracker.startTracking_subscribe (initial_world true) in
  let ws := Tracker.stopTracking (Tracker.syncLoop_until env Tracker.BeforePush w0) in
  let w' := Tracker.syncLoop_resume env Tracker.BeforePush ws in
  let w2 := Tracker.startTracking env w' in
  let w3 := Tracker.fire_timer env 1 (Tracker.fire_timer env 0 w2) in
  timers (host w2) = [0%nat; 1%nat]
  /\ timers (host w3) = [2%nat; 3%nat].
Proof. repeat split. Qed.

(** X22: from the initial world, however starting, stopping, timers and editor
    events follow each other (every iteration running to its end), no timer
    is armed after a stop, and firing any handle changes nothing. *)
Lemma stopped_means_no_timer (ops : list Op) (withGit : bool) (env : SyncEnv)
    (handle : nat) :
  let w := Tracker.stopTracking (run_ops ops (initial_world withGit)) in
  timers (host w) = [] /\ Tracker.fire_timer env handle w = w.
Proof.
  intros w.
  assert (Hnone : timers (host w) = []).
  { apply stopTracking_settled, settled_run_ops, settled_initial. }
  split; [exact Hnone |].
  unfold Tracker.fire_timer. rewrite Hnone.
  rewrite bool_decide_eq_false_2; [reflexivity | apply not_elem_of_nil].
Qed.


(** ** Spacing across the pipeline *)

Lemma StronglySorted_filter {A : Type} (R : A -> A -> Prop) (p : A -> bool)
    (l : list A) :
  StronglySorted R l -> StronglySorted R (List.filter p l).
Proof.
  induction l as [| x l IH]; intros Hs; simpl; [constructor |].
  apply StronglySorted_inv in Hs as [Hs Hx].
  destruct (p x); [| now apply IH].
  constructor; [now apply IH |].
  rewrite Forall_forall in *. intros y Hy. apply Hx.
  apply list_elem_of_In, filter_In in Hy as [Hy _].
  now apply list_elem_of_In.
Qed.




Lemma filter_true {A : Type} (l : list A) : List.filter (fun _ => true) l = l.
Proof. induction l; simpl; congruence. Qed.















(** ** Retrying a batch *)

Lemma handleAll_db (events : list Tracker.RawEvent) (w : World) :
  db (Tracker.handleAll events w) = db w.
Proof.
  revert w. induction events as [| e events IH]; intros w; [reflexivity |].
  simpl. rewrite IH. apply handleActivity_frame.
Qed.

(** X24: a batch that was not acknowledged is sent again.  Whatever the
    store does, whatever editor events arrive before the next iteration and
    whatever that iteration flushes first, the batch of 50 the next iteration
    reads starts with the records of the batch that was not acknowledged, in
    the same order. *)
Lemma unacknowledged_batch_retried (env env2 : SyncEnv)
    (events : list Tracker.RawEvent) (w0 : World) :
  isTracking (tracker w0) = true ->
  let w := Tracker.syncLoop_flush (env_faults env) w0 in
  let w' := Tracker.syncLoop env w0 in
  let logs := take 50 (Database.activity_logs (db w)) in
  ~ acknowledged (fst (api_syncActivities (env_api env) logs)) ->
  logs `prefix_of`
    take 50 (Database.activity_logs
               (db (Tracker.syncLoop_flush (env_faults env2)
                      (Tracker.handleAll events w')))).
Proof.
  intros Hon w w' logs Hnack.
  destruct (sync_keeps_unacknowledged env w0 Hon) as [Hkeep _].
  specialize (Hkeep Hnack). fold w w' in Hkeep.
  destruct (syncLoop_flush_spec (env_faults env2) (Tracker.handleAll events w'))
    as (_ & _ & _ & rows & Hrows & _).
  rewrite Hrows, handleAll_db, Hkeep, take_app. now eexists.
Qed.

(** * Further properties of the code *)

(** ** The two revisions of the handler *)

Lemma debug_extends (message : string) (lg : Logger.t) :
  Logger.logLevel (Logger.debug message lg) = Logger.logLevel lg
  /\ Logger.outputChannel lg `prefix_of` Logger.outputChannel (Logger.debug message lg).
Proof.
  unfold Logger.debug. destruct (_ <=? _); simpl; split; try reflexivity.
  now eexists.
Qed.

Lemma same_but_naming_refl (w : World) : same_but_naming w w.
Proof.
  unfold same_but_naming. repeat split; try reflexivity.
  apply Forall2_same_length_lookup. split; [reflexivity |].
  intros i x y Hx Hy. rewrite Hx in Hy. injection Hy as <-.
  repeat split.
Qed.

(** One call of each revision, from worlds that differ only so. *)
Lemma handleActivity_same_but_naming
    (root commit : string -> World -> option string)
    (vs : VsCode) (now : Z) (a b : World) :
  same_but_naming a b ->
  same_but_naming (Tracker.handleActivity vs now a)
                  (CoreTracker.handleActivity root commit vs now b).
Proof.
  intros (Hsb & Hdb & Hgit & Hhost & Hgt & Hdisp & Hon & Htimer & Hlast & Hq
          & Hlevel & Hlines).
  unfold Tracker.handleActivity, CoreTracker.handleActivity.
  change CoreTracker.debounceInterval with Tracker.debounceInterval.
  change CoreTracker.maxIdleTime with Tracker.maxIdleTime.
  rewrite <- Hlast.
  destruct (now - lastActivityTime (tracker a) <? Tracker.debounceInterval).
  { unfold same_but_naming. tauto. }
  destruct (activeTextEditor vs) as [editor |].
  2: { unfold same_but_naming. simpl. tauto. }
  set (duration := if negb (lastActivityTime (tracker a) =? 0)
                      && (now - lastActivityTime (tracker a) <? Tracker.maxIdleTime)
                   then now - lastActivityTime (tracker a) else 0).
  cbv zeta.
  match goal with
  | |- same_but_naming _ (updateStatus _ (with_tracker _ ?w2)) =>
      set (W2 := w2)
  end.
  assert (Hw2 : statusBarManager W2 = statusBarManager b /\ db W2 = db b
                /\ git W2 = git b /\ host W2 = host b
                /\ tracker W2 = set_lastActivityTime now (tracker b)
                /\ Logger.logLevel (logger W2) = Logger.logLevel (logger b)
                /\ Logger.outputChannel (logger b)
                   `prefix_of` Logger.outputChannel (logger W2)).
  { subst W2.
    match goal with
    | |- context [if ?c then log_ ?f ?w else ?w] => destruct c
    end.
    - unfold log_. simpl. repeat split.
      + rewrite !(proj1 (debug_extends _ _)). reflexivity.
      + etransitivity; [| apply debug_extends].
        apply debug_extends.
    - unfold log_. simpl. repeat split.
      + apply debug_extends.
      + apply debug_extends. }
  clearbody W2.
  destruct Hw2 as (H1 & H2 & H3 & H4 & H5 & H6 & H7).
  unfold same_but_naming, updateStatus. simpl.
  rewrite H1, H2, H3, H4, H5, H6. simpl.
  rewrite Hsb, Hdb, Hgit, Hhost, Hgt, Hdisp, Hon, Htimer, Hlevel.
  repeat split; try reflexivity.
  - apply Forall2_app; [exact Hq |]. constructor; [| constructor].
    repeat split.
  - etransitivity; [exact Hlines | exact H7].
Qed.

Lemma same_but_naming_pending (a b : World) :
  same_but_naming a b -> pending a = pending b.
Proof.
  intros (_ & _ & _ & _ & _ & _ & _ & _ & _ & Hq & _).
  unfold pending. induction Hq as [| x y xs ys Hxy _ IH]; [reflexivity |].
  simpl. rewrite IH. unfold stamp.
  destruct Hxy as (_ & _ & -> & -> & _). reflexivity.
Qed.

(** X1: on every sequence of raw events, from any state, the two revisions
    of [handleActivity] end in worlds that differ only in how the pending
    records name their project and their revision and in the log, where the
    later revision has the lines of the earlier one and may have added debug
    lines.  The debounce clock, the time stamps and durations of the records
    and all their other fields, the status bar, the store, the git tracker's
    maps, the host and the other fields of the tracker are the same. *)
Theorem handler_revisions_agree (root commit : string -> World -> option string)
    (events : list Tracker.RawEvent) (w : World) :
  same_but_naming (Tracker.handleAll events w)
                  (CoreTracker_handleAll root commit events w)
  /\ lastActivityTime (tracker (Tracker.handleAll events w))
     = lastActivityTime (tracker (CoreTracker_handleAll root commit events w))
  /\ pending (Tracker.handleAll events w)
     = pending (CoreTracker_handleAll root commit events w).
Proof.
  assert (H : forall a b,
             same_but_naming a b ->
             same_but_naming (Tracker.handleAll events a)
                             (CoreTracker_handleAll root commit events b)).
  { induction events as [| e events IH]; intros a b Hab; [exact Hab |].
    simpl. apply IH. now apply handleActivity_same_but_naming. }
  pose proof (H w w (same_but_naming_refl w)) as Hsame.
  split; [exact Hsame |]. split.
  - apply Hsame.
  - now apply same_but_naming_pending.
Qed.

(** ** Identifiers, subscriptions and restarts *)

Lemma store_wf_sync_activity_logs (env : SyncEnv) (w : World) :
  store_wf (db w) -> store_wf (db (snd (Tracker.sync_activity_logs env w))).
Proof.
  intros Hwf. async_unfold.
  destruct (Database.getUnsyncedLogs_fault (env_faults env)); simpl; [exact Hwf |].
  destruct (take 50 (Database.activity_logs (db w))) as [| l logs]; simpl;
    [exact Hwf |].
  destruct (api_syncActivities (env_api env) (l :: logs)) as [[[|] | e] lf]; simpl;
    try exact Hwf.
  pose proof (store_wf_deleteLogs (env_faults env)
                (Tracker.ids_of ActivityLog.id (l :: logs)) (db w) Hwf) as H.
  unfold Database.deleteLogs in H.
  destruct (Database.deleteLogs_fault (env_faults env)); simpl; [exact Hwf | exact H].
Qed.

Lemma store_wf_sync_git_commits (env : SyncEnv) (w : World) :
  store_wf (db w) -> store_wf (db (snd (Tracker.sync_git_commits env w))).
Proof.
  intros Hwf. async_unfold.
  destruct (Database.getUnsyncedCommits_fault (env_faults env)); simpl;
    [exact Hwf |].
  destruct (take 20 (Database.git_commits (db w))) as [| c cs]; simpl;
    [exact Hwf |].
  destruct (api_syncCommits (env_api env) (c :: cs)) as [[[|] | e] lf]; simpl;
    try exact Hwf.
  pose proof (store_wf_deleteCommits (env_faults env)
                (Tracker.ids_of GitCommit.id (c :: cs)) (db w) Hwf) as H.
  unfold Database.deleteCommits in H.
  destruct (Database.deleteCommits_fault (env_faults env)); simpl;
    [exact Hwf | exact H].
Qed.

Lemma store_wf_sync (env : SyncEnv) (w : World) :
  store_wf (db w) -> store_wf (db (Tracker.syncLoop_sync env w)).
Proof.
  intros Hwf. rewrite syncLoop_sync_db.
  pose proof (store_wf_sync_activity_logs env w Hwf) as H1.
  destruct (fst (Tracker.sync_activity_logs env w)); [| exact H1].
  now apply store_wf_sync_git_commits.
Qed.

Lemma store_wf_syncLoop (env : SyncEnv) (w : World) :
  store_wf (db w) -> store_wf (db (Tracker.syncLoop env w)).
Proof.
  intros Hwf. unfold Tracker.syncLoop.
  destruct (isTracking (tracker w)); [| exact Hwf]. simpl.
  now apply store_wf_sync, store_wf_flush.
Qed.

Lemma stopTracking_frame (w : World) :
  let w' := Tracker.stopTracking w in
  db w' = db w /\ git w' = git w
  /\ queue (tracker w') = queue (tracker w)
  /\ lastActivityTime (tracker w') = lastActivityTime (tracker w)
  /\ disposable (tracker w') = disposable (tracker w)
  /\ timer_seq (host w') = timer_seq (host w)
  /\ listener_seq (host w') = listener_seq (host w).
Proof.
  destruct w as [lg sb d g [gt disp on q st last] h].
  unfold Tracker.stopTracking. simpl.
  destruct on, disp, st; repeat split; reflexivity.
Qed.

Lemma startTracking_subscribe_spec (w : World) :
  let w' := Tracker.startTracking_subscribe w in
  db w' = db w /\ git w' = git w
  /\ queue (tracker w') = queue (tracker w)
  /\ lastActivityTime (tracker w') = lastActivityTime (tracker w)
  /\ syncTimer (tracker w') = syncTimer (tracker w)
  /\ isTracking (tracker w') = true
  /\ disposable (tracker w') = Some (listener_seq (host w))
  /\ listeners (host w') = listeners (host w) ++ [listener_seq (host w)]
  /\ timers (host w') = timers (host w)
  /\ timer_seq (host w') = timer_seq (host w).
Proof. repeat split. Qed.

(** What an iteration of the sync loop leaves of the tracker and of the
    host's listeners. *)
Lemma syncLoop_frame (env : SyncEnv) (w : World) :
  let w' := Tracker.syncLoop env w in
  isTracking (tracker w') = isTracking (tracker w)
  /\ disposable (tracker w') = disposable (tracker w)
  /\ lastActivityTime (tracker w') = lastActivityTime (tracker w)
  /\ listeners (host w') = listeners (host w)
  /\ git w' = git w
  /\ (isTracking (tracker w) = true -> queue (tracker w') = []).
Proof.
  unfold Tracker.syncLoop.
  destruct (isTracking (tracker w)) eqn:Hon; simpl.
  2: { repeat split; try assumption. discriminate. }
  destruct (syncLoop_flush_spec (env_faults env) w) as (Ht & Hh & _).
  destruct (syncLoop_sync_frame env (Tracker.syncLoop_flush (env_faults env) w))
    as (Ht2 & Hg2 & Hh2).
  unfold Tracker.syncLoop_reschedule, setTimeout. simpl.
  rewrite Ht2, Hh2, Hg2, Ht, Hh. simpl.
  repeat split; try assumption.
  unfold Tracker.syncLoop_flush.
  destruct (queue (tracker w)) as [| l ls]; [reflexivity |].
  destruct (save_logs_spec (env_faults env) (l :: ls)
              (with_tracker (set_queue [] (tracker w)) w)) as (_ & Hg & _).
  exact Hg.
Qed.

Lemma handleActivity_unpersisted (vs : VsCode) (now : Z) (w : World) :
  unpersisted w -> unpersisted (Tracker.handleActivity vs now w).
Proof.
  unfold unpersisted, Tracker.handleActivity. intros H.
  destruct (_ <? _); [exact H |].
  destruct (activeTextEditor vs); simpl; [| exact H].
  apply Forall_app. split; [exact H |]. repeat constructor.
Qed.

Lemma handleActivity_disposable (vs : VsCode) (now : Z) (w : World) :
  disposable (tracker (Tracker.handleActivity vs now w)) = disposable (tracker w).
Proof.
  unfold Tracker.handleActivity.
  destruct (_ <? _); [reflexivity |].
  destruct (activeTextEditor vs); reflexivity.
Qed.

Lemma subscribed_same (w w' : World) :
  subscribed w ->
  isTracking (tracker w') = isTracking (tracker w) ->
  disposable (tracker w') = disposable (tracker w) ->
  listeners (host w') = listeners (host w) ->
  subscribed w'.
Proof. unfold subscribed. intros H -> -> ->. exact H. Qed.

Lemma subscribed_handleActivity (vs : VsCode) (now : Z) (w : World) :
  subscribed w -> subscribed (Tracker.handleActivity vs now w).
Proof.
  intros H. destruct (handleActivity_frame vs now w) as (Hh & _ & Hi & _).
  apply (subscribed_same w); [exact H | exact Hi | | now rewrite Hh].
  apply handleActivity_disposable.
Qed.

Lemma subscribed_syncLoop (env : SyncEnv) (w : World) :
  subscribed w -> subscribed (Tracker.syncLoop env w).
Proof.
  intros H. destruct (syncLoop_frame env w) as (Hi & Hd & _ & Hl & _).
  now apply (subscribed_same w).
Qed.

Lemma unpersisted_syncLoop (env : SyncEnv) (w : World) :
  unpersisted w -> unpersisted (Tracker.syncLoop env w).
Proof.
  intros H. destruct (syncLoop_frame env w) as (_ & _ & _ & _ & _ & Hq).
  unfold unpersisted.
  destruct (isTracking (tracker w)) eqn:Hon.
  - rewrite (Hq eq_refl). constructor.
  - unfold Tracker.syncLoop. now rewrite Hon.
Qed.

Lemma deliver_subscribed (vs : VsCode) (now : Z) (w : World) :
  subscribed w ->
  Tracker.deliver vs now w
  = if isTracking (tracker w) then Tracker.handleActivity vs now w else w.
Proof.
  unfold subscribed, Tracker.deliver.
  destruct (isTracking (tracker w)).
  - intros (d & -> & _). reflexivity.
  - intros ->. reflexivity.
Qed.

Lemma steady_deliver (vs : VsCode) (now : Z) (w : World) :
  subscribed w -> unpersisted w -> store_wf (db w) ->
  subscribed (Tracker.deliver vs now w)
  /\ unpersisted (Tracker.deliver vs now w)
  /\ store_wf (db (Tracker.deliver vs now w)).
Proof.
  intros Hs Hu Hwf. rewrite (deliver_subscribed vs now w Hs).
  destruct (isTracking (tracker w)); [| auto].
  split; [now apply subscribed_handleActivity |].
  split; [now apply handleActivity_unpersisted |].
  destruct (handleActivity_frame vs now w) as (_ & -> & _). exact Hwf.
Qed.

Lemma subscribed_stopTracking (w : World) :
  subscribed w -> subscribed (Tracker.stopTracking w).
Proof.
  destruct w as [lg sb d g [gt disp on q st last] [ts tseq ls lseq]].
  unfold subscribed, Tracker.stopTracking. simpl.
  destruct on; simpl; [| auto].
  intros (x & -> & ->). simpl.
  destruct st; simpl; now rewrite Nat.eqb_refl.
Qed.

Lemma subscribed_startTracking (env : SyncEnv) (w : World) :
  subscribed w -> subscribed (Tracker.startTracking env w).
Proof.
  intros H. unfold Tracker.startTracking.
  destruct (isTracking (tracker w)) eqn:Hon; [exact H |].
  apply subscribed_syncLoop.
  unfold subscribed in *. rewrite Hon in H.
  destruct (startTracking_subscribe_spec w)
    as (_ & _ & _ & _ & _ & -> & -> & -> & _).
  rewrite H. eauto.
Qed.

Lemma steady_run_ops (ops : list Op) (w : World) :
  steady w -> steady (run_ops ops w).
Proof.
  revert w. induction ops as [| op ops IH]; intros w Hst; [exact Hst |].
  simpl. apply IH. destruct Hst as (H1 & H2 & H3 & H4).
  destruct op as [env | | env h | vs now]; simpl.
  - split; [now apply settled_startTracking |].
    split; [now apply subscribed_startTracking |].
    unfold Tracker.startTracking.
    destruct (isTracking (tracker w)); [auto |].
    split; [now apply unpersisted_syncLoop | now apply store_wf_syncLoop].
  - split; [now apply settled_stopTracking |].
    split; [now apply subscribed_stopTracking |].
    destruct (stopTracking_frame w) as (Hdb & _ & Hq & _).
    unfold unpersisted. now rewrite Hq, Hdb.
  - split; [now apply settled_fire_timer |].
    unfold Tracker.fire_timer.
    destruct (bool_decide _); [| auto].
    split; [| split].
    + apply subscribed_syncLoop. now apply (subscribed_same w).
    + now apply unpersisted_syncLoop.
    + now apply store_wf_syncLoop.
  - split; [now apply settled_deliver |].
    now apply steady_deliver.
Qed.

Lemma steady_initial (withGit : bool) : steady (initial_world withGit).
Proof.
  split; [reflexivity |]. split; [reflexivity |].
  split; [constructor | exact store_wf_empty].
Qed.

(** X2: whatever the extension has done since it started, a record has a
    store identifier exactly where the data model wants one: no record of
    the pending batch has an [id] (and each names the editor vscode), every
    activity record of the store has one. *)
Theorem id_marks_persisted_records (ops : list Op) (withGit : bool) :
  let w := run_ops ops (initial_world withGit) in
  Forall (fun r => ActivityLog.id r = None /\ ActivityLog.editor r = "vscode")
         (queue (tracker w))
  /\ Forall (fun r => is_Some (ActivityLog.id r))
            (Database.activity_logs (db w)).
Proof.
  intros w.
  destruct (steady_run_ops ops _ (steady_initial withGit))
    as (_ & _ & Hu & [[_ Hids] _]).
  split; [exact Hu |].
  apply Forall_forall. intros r Hr.
  destruct (Hids r Hr) as (i & Hi & _). rewrite Hi. eauto.
Qed.

(** X3: an editor event reaches [handleActivity] exactly once while tracking
    is on and not at all while it is off: [startTracking] subscribes one
    listener group and [stopTracking] disposes of it, however often the two
    are called. *)
Theorem events_reach_handler_iff_tracking (ops : list Op) (withGit : bool)
    (vs : VsCode) (now : Z) :
  let w := run_ops ops (initial_world withGit) in
  Tracker.deliver vs now w
  = if isTracking (tracker w) then Tracker.handleActivity vs now w else w.
Proof.
  intros w. apply deliver_subscribed.
  apply (steady_run_ops ops _ (steady_initial withGit)).
Qed.

Lemma startTracking_isTracking (env : SyncEnv) (w : World) :
  isTracking (tracker (Tracker.startTracking env w)) = true.
Proof.
  unfold Tracker.startTracking.
  destruct (isTracking (tracker w)) eqn:Hon; [exact Hon |].
  destruct (syncLoop_frame env (Tracker.startTracking_subscribe w)) as (-> & _).
  reflexivity.
Qed.

Lemma stopTracking_off (w : World) :
  isTracking (tracker w) = false -> Tracker.stopTracking w = w.
Proof. intros H. unfold Tracker.stopTracking. now rewrite H. Qed.

(** X4: starting is idempotent and so is stopping: a second [startTracking]
    changes nothing (no second subscription, no second loop), whatever the
    first iteration met, and a second [stopTracking] changes nothing. *)
Theorem start_stop_idempotent (env env' : SyncEnv) (w : World) :
  Tracker.startTracking env' (Tracker.startTracking env w)
  = Tracker.startTracking env w
  /\ Tracker.stopTracking (Tracker.stopTracking w) = Tracker.stopTracking w.
Proof.
  split.
  - unfold Tracker.startTracking at 1.
    now rewrite startTracking_isTracking.
  - destruct (isTracking (tracker w)) eqn:Hon.
    + destruct (stopTracking_spec w Hon) as (Hoff & _).
      now apply stopTracking_off.
    + now rewrite !(stopTracking_off w Hon).
Qed.

Lemma fire_timer_tracking (env : SyncEnv) (handle : nat) (w : World) :
  isTracking (tracker w) = true ->
  handle ∈ timers (host w) ->
  let w' := Tracker.fire_timer env handle w in
  isTracking (tracker w') = true
  /\ timers (host w')
     = List.filter (fun t => negb (Nat.eqb t handle)) (timers (host w))
       ++ [timer_seq (host w)]
  /\ timer_seq (host w') = S (timer_seq (host w)).
Proof.
  intros Hon Hin. unfold Tracker.fire_timer.
  rewrite bool_decide_eq_true_2 by exact Hin.
  unfold Tracker.syncLoop. simpl. rewrite Hon. simpl.
  destruct (syncLoop_resume_spec env Tracker.BeforeFlush (clearTimeout handle w))
    as (Ht & Hs & _ & _ & Hi).
  simpl in Ht, Hs, Hi. rewrite Hi, Ht, Hs. auto.
Qed.

Lemma cleared_pair (h k : nat) :
  h <> k -> List.filter (fun t => negb (Nat.eqb t h)) [h; k] = [k].
Proof.
  intros Hne. simpl. rewrite Nat.eqb_refl. simpl.
  destruct (Nat.eqb k h) eqn:E; [apply Nat.eqb_eq in E; lia | reflexivity].
Qed.

(** X5: tracking is stopped while an iteration of the sync loop is in flight
    and started again before the timer that iteration armed has fired.  Two
    timers are then armed, the stale one and the new loop's, and each, when
    it fires, runs a full iteration and arms its successor: from then on two
    sync loops run side by side. *)
Theorem restart_keeps_stale_loop (env env2 env3 env4 : SyncEnv)
    (p : Tracker.Suspended) (w : World) :
  isTracking (tracker w) = true ->
  timers (host w) = [] ->
  let t := timer_seq (host w) in
  let w1 := Tracker.syncLoop_resume env p (Tracker.stopTracking w) in
  let w2 := Tracker.startTracking env2 w1 in
  let w3 := Tracker.fire_timer env3 t w2 in
  let w4 := Tracker.fire_timer env4 (S t) w3 in
  timers (host w1) = [t]
  /\ timers (host w2) = [t; S t]
  /\ timers (host w3) = [S t; S (S t)]
  /\ timers (host w4) = [S (S t); S (S (S t))].
Proof.
  intros Hon Hnone t w1 w2 w3 w4.
  destruct (stopTracking_spec w Hon) as (Hoff & _ & _ & Hseq & Htimers).
  assert (Hts : timers (host (Tracker.stopTracking w)) = []).
  { rewrite Htimers, Hnone. now destruct (syncTimer (tracker w)). }
  destruct (syncLoop_resume_spec env p (Tracker.stopTracking w))
    as (Ht1 & Hs1 & _ & _ & Hi1).
  fold w1 in Ht1, Hs1, Hi1. rewrite Hts, Hseq in Ht1. rewrite Hseq in Hs1.
  fold t in Ht1, Hs1. simpl in Ht1. rewrite Hoff in Hi1.
  assert (Hw2 : isTracking (tracker w2) = true /\ timers (host w2) = [t; S t]
                /\ timer_seq (host w2) = S (S t)).
  { unfold w2, Tracker.startTracking. rewrite Hi1.
    unfold Tracker.syncLoop. simpl.
    destruct (syncLoop_resume_spec env2 Tracker.BeforeFlush
                (Tracker.startTracking_subscribe w1)) as (Ha & Hb & _ & _ & Hc).
    simpl in Ha, Hb, Hc. rewrite Ht1, Hs1 in Ha. rewrite Hs1 in Hb.
    auto. }
  destruct Hw2 as (Hi2 & Ht2 & Hs2).
  destruct (fire_timer_tracking env3 t w2 Hi2) as (Hi3 & Ht3 & Hs3).
  { rewrite Ht2. left. }
  fold w3 in Hi3, Ht3, Hs3. rewrite Ht2, Hs2 in Ht3. rewrite Hs2 in Hs3.
  rewrite cleared_pair in Ht3 by lia. cbn [app] in Ht3.
  destruct (fire_timer_tracking env4 (S t) w3 Hi3) as (_ & Ht4 & _).
  { rewrite Ht3. left. }
  fold w4 in Ht4. rewrite Ht3, Hs3 in Ht4.
  rewrite cleared_pair in Ht4 by lia. cbn [app] in Ht4.
  auto.
Qed.

(** ** What one iteration of the sync loop sends and deletes *)

Lemma filter_kept_cons {A : Type} (id : A -> option Z) (i : Z) (ids : list Z)
    (rows : list A) :
  Some i ∉ map id rows ->
  List.filter (fun x => Database.kept (i :: ids) (id x)) rows
  = List.filter (fun x => Database.kept ids (id x)) rows.
Proof.
  intros Hnot. apply List.filter_ext_in. intros x Hx.
  unfold Database.kept. destruct (id x) as [j |] eqn:Hj; [| reflexivity].
  f_equal. apply bool_decide_ext. rewrite elem_of_cons.
  split; [| tauto]. intros [-> | H]; [| exact H].
  exfalso. apply Hnot. rewrite <- Hj.
  apply list_elem_of_In, in_map, Hx.
Qed.

Lemma filter_kept_nil {A : Type} (id : A -> option Z) (rows : list A) :
  List.filter (fun x => Database.kept [] (id x)) rows = rows.
Proof.
  rewrite <- (filter_true rows) at 2. apply List.filter_ext.
  intros x. unfold Database.kept. now destruct (id x).
Qed.

(** Deleting the identifiers of the first [n] rows leaves the rows after
    them. *)
Lemma delete_batch_drop {A : Type} (id : A -> option Z) (rows : list A)
    (seq : Z) (n : nat) :
  rows_wf id rows seq ->
  List.filter
    (fun x => Database.kept (Tracker.ids_of id (take n rows)) (id x)) rows
  = drop n rows.
Proof.
  revert n. induction rows as [| r rows IH]; intros n [Hnd Hids].
  - now destruct n.
  - destruct n as [| n].
    + apply (filter_kept_nil id (r :: rows)).
    + simpl in Hnd. apply NoDup_cons in Hnd as [Hnotin Hnd].
      destruct (Hids r) as (i & Hi & _); [left |].
      assert (Hwf : rows_wf id rows seq).
      { split; [exact Hnd |]. intros x Hx. apply Hids. now right. }
      unfold Tracker.ids_of. simpl. rewrite Hi. simpl.
      unfold Database.kept at 1.
      rewrite bool_decide_eq_true_2 by left. simpl.
      rewrite filter_kept_cons by (rewrite <- Hi; exact Hnotin).
      apply (IH n Hwf).
Qed.

(** X6: an iteration whose two submit calls are acknowledged removes from
    the store exactly the batch it sent: the 50 oldest activity records and
    the 20 oldest commits; everything behind them stays, in order, for the
    next iteration. *)
Theorem acknowledged_iteration_drops_oldest (env : SyncEnv) (w0 : World) :
  isTracking (tracker w0) = true ->
  store_wf (db w0) ->
  store_answers (env_faults env) ->
  let w := Tracker.syncLoop_flush (env_faults env) w0 in
  let w' := Tracker.syncLoop env w0 in
  acknowledged (fst (api_syncActivities (env_api env)
                       (take 50 (Database.activity_logs (db w))))) ->
  acknowledged (fst (api_syncCommits (env_api env)
                       (take 20 (Database.git_commits (db w))))) ->
  Database.activity_logs (db w') = drop 50 (Database.activity_logs (db w))
  /\ Database.git_commits (db w') = drop 20 (Database.git_commits (db w)).
Proof.
  intros Hon Hwf0 Hup w w' Ha Hc.
  assert (Hwf : store_wf (db w)) by now apply store_wf_flush.
  destruct Hwf as [Hwa Hwc].
  pose proof Hup as (Hread & Hdel & Hreadc & Hdelc).
  unfold w'. rewrite (syncLoop_db env w0 Hon). fold w. split.
  - rewrite syncLoop_sync_activity_logs.
    destruct (sync_activity_logs_ack env w Hread Hdel Ha) as [_ ->].
    apply (delete_batch_drop ActivityLog.id _ _ 50 Hwa).
  - rewrite syncLoop_sync_git_commits.
    destruct (sync_activity_logs_ack env w Hread Hdel Ha) as [-> _].
    pose proof (sync_activity_logs_frame env w) as (_ & _ & _ & Hc1).
    rewrite (sync_git_commits_ack env _ Hreadc Hdelc); rewrite Hc1;
      [| exact Hc].
    apply (delete_batch_drop GitCommit.id _ _ 20 Hwc).
Qed.

(** ** The API client of the sources *)

(** X7: the submit calls of the API client never throw.  An empty batch is
    reported as sent without a request and without a log line; otherwise the
    result is [true] exactly when the request succeeds, and a failed request
    is logged as an error whatever the log level. *)
Theorem ApiClient_submit_result (client : ApiClient.GraphQLClient)
    (logs : list ActivityLog.t) (commits : list GitCommit.t) (lg : Logger.t) :
  let a := ApiClient.syncActivities client logs in
  let c := ApiClient.syncCommits client commits in
  (fst a = Resolved true
   <-> logs = []
       \/ ApiClient.request_SyncActivity client (map ApiClient.activity_input logs)
          = None)
  /\ (fst a = Resolved true \/ fst a = Resolved false)
  /\ (logs = [] -> snd a lg = lg)
  /\ (fst a = Resolved false ->
      exists e, snd a lg = Logger.error "Failed to sync activities" e lg
                /\ length (Logger.outputChannel lg)
                   < length (Logger.outputChannel (snd a lg)))%nat
  /\ (fst c = Resolved true
      <-> commits = []
          \/ ApiClient.request_SyncCommits client (map ApiClient.commit_input commits)
             = None)
  /\ (fst c = Resolved true \/ fst c = Resolved false)
  /\ (commits = [] -> snd c lg = lg).
Proof.
  intros a c. subst a c. unfold ApiClient.syncActivities, ApiClient.syncCommits.
  assert (Herr : forall m e,
            (length (Logger.outputChannel lg)
             < length (Logger.outputChannel (Logger.error m e lg)))%nat).
  { intros m e. unfold Logger.error.
    replace (Logger.level (Logger.logLevel lg) <=? Logger.level Logger.ERROR)
      with true by (destruct (Logger.logLevel lg); reflexivity).
    destruct (error_stack e) as [st |]; [destruct (Js.truthy st) |];
      simpl; rewrite ?length_app; simpl; lia. }
  split; [| split; [| split; [| split; [| split; [| split]]]]].
  - destruct logs as [| l logs]; [tauto |].
    destruct (ApiClient.request_SyncActivity client _); simpl; split;
      try tauto; try discriminate.
    intros [H | H]; discriminate H.
  - destruct logs as [| l logs]; [now left |].
    destruct (ApiClient.request_SyncActivity client _); simpl; auto.
  - now intros ->.
  - destruct logs as [| l logs]; [discriminate |].
    destruct (ApiClient.request_SyncActivity client _) as [e |]; simpl;
      [| discriminate].
    intros _. exists e. split; [reflexivity | apply Herr].
  - destruct commits as [| x commits]; [tauto |].
    destruct (ApiClient.request_SyncCommits client _); simpl; split;
      try tauto; try discriminate.
    intros [H | H]; discriminate H.
  - destruct commits as [| x commits]; [now left |].
    destruct (ApiClient.request_SyncCommits client _); simpl; auto.
  - now intros ->.
Qed.

Lemma take_nil_inv {A : Type} (n : nat) (l : list A) :
  take (S n) l = [] -> l = [].
Proof. now destruct l. Qed.

(** X8: one iteration with the API client of the sources, the store
    answering its queries and deletions.  The activity batch (the 50 oldest
    records, sent without their identifiers) is deleted exactly when its
    request succeeds, and the commit batch (the 20 oldest) exactly when its
    own request succeeds: a failed activity request does not keep the
    commits from being sent, and the other way round. *)
Theorem shipped_client_iteration (client : ApiClient.GraphQLClient)
    (f : Database.Faults) (w0 : World) :
  isTracking (tracker w0) = true ->
  store_wf (db w0) ->
  store_answers f ->
  let env := mkEnv f (ApiClient.constructor client) in
  let w := Tracker.syncLoop_flush f w0 in
  let w' := Tracker.syncLoop env w0 in
  let logs := take 50 (Database.activity_logs (db w)) in
  let commits := take 20 (Database.git_commits (db w)) in
  Database.activity_logs (db w')
  = match ApiClient.request_SyncActivity client
            (map ApiClient.activity_input logs) with
    | None => drop 50 (Database.activity_logs (db w))
    | Some _ => Database.activity_logs (db w)
    end
  /\ Database.git_commits (db w')
     = match ApiClient.request_SyncCommits client
               (map ApiClient.commit_input commits) with
       | None => drop 20 (Database.git_commits (db w))
       | Some _ => Database.git_commits (db w)
       end.
Proof.
  intros Hon Hwf0 Hup env w w' logs commits.
  assert (Hwf : store_wf (db w)) by now apply store_wf_flush.
  destruct Hwf as [Hwa Hwc].
  pose proof Hup as (Hread & Hdel & Hreadc & Hdelc).
  destruct (ApiClient_never_throws client logs commits) as [Hnt _].
  unfold w'. rewrite (syncLoop_db env w0 Hon).
  change (Tracker.syncLoop_flush (env_faults env) w0) with w.
  assert (Hdone : fst (Tracker.sync_activity_logs env w) = Resolved tt).
  { apply (sync_activity_logs_completes env w Hup). right. exact Hnt. }
  pose proof (sync_activity_logs_frame env w) as (_ & _ & _ & Hc1).
  split.
  - rewrite syncLoop_sync_activity_logs.
    destruct (acknowledged_dec (fst (api_syncActivities (env_api env) logs)))
      as [Ha | Hn].
    + destruct (sync_activity_logs_ack env w Hread Hdel Ha) as [_ ->].
      rewrite (delete_batch_drop ActivityLog.id _ _ 50 Hwa).
      destruct (ApiClient.request_SyncActivity client _) eqn:Hreq;
        [| reflexivity].
      unfold acknowledged in Ha. simpl in Ha.
      unfold ApiClient.syncActivities in Ha.
      destruct logs as [| l ls] eqn:Hl.
      * apply take_nil_inv in Hl. now rewrite Hl.
      * rewrite Hreq in Ha. discriminate Ha.
    + rewrite (sync_activity_logs_nack env w Hn).
      destruct (ApiClient.request_SyncActivity client _) eqn:Hreq;
        [reflexivity |].
      exfalso. apply Hn. unfold acknowledged. simpl.
      unfold ApiClient.syncActivities.
      destruct logs; [reflexivity | now rewrite Hreq].
  - rewrite syncLoop_sync_git_commits, Hdone.
    destruct (acknowledged_dec (fst (api_syncCommits (env_api env) commits)))
      as [Ha | Hn].
    + rewrite (sync_git_commits_ack env _ Hreadc Hdelc); rewrite Hc1;
        [| exact Ha].
      rewrite (delete_batch_drop GitCommit.id _ _ 20 Hwc).
      destruct (ApiClient.request_SyncCommits client _) eqn:Hreq;
        [| reflexivity].
      unfold acknowledged in Ha. simpl in Ha.
      unfold ApiClient.syncCommits in Ha.
      destruct commits as [| c cs] eqn:Hl.
      * apply take_nil_inv in Hl. now rewrite Hl.
      * rewrite Hreq in Ha. discriminate Ha.
    + rewrite sync_git_commits_nack; rewrite Hc1; [| exact Hn].
      destruct (ApiClient.request_SyncCommits client _) eqn:Hreq;
        [reflexivity |].
      exfalso. apply Hn. unfold acknowledged. simpl.
      unfold ApiClient.syncCommits.
      destruct commits; [reflexivity | now rewrite Hreq].
Qed.

(** ** The two revisions of the sync loop *)

Lemma batch_has_id {A : Type} (id : A -> option Z) (rows : list A) (seq : Z)
    (n : nat) (l : A) (ls : list A) :
  rows_wf id rows seq -> take n rows = l :: ls ->
  exists i, id l = Some i.
Proof.
  intros [_ Hids] Hb.
  assert (Hin : l ∈ rows).
  { assert (Hl : l ∈ take n rows) by (rewrite Hb; left).
    apply elem_of_take in Hl as (k & Hk & _).
    apply list_elem_of_lookup. eauto. }
  destruct (Hids l Hin) as (i & Hi & _). eauto.
Qed.

Lemma same_but_log_refl (w : World) : same_but_log w w.
Proof. repeat split. Qed.

Ltac same_worlds :=
  repeat match goal with
         | H : same_but_log _ _ |- _ =>
             destruct H as (?Hdb & ?Hsb & ?Hg & ?Ht & ?Hh)
         end;
  simpl in *; subst.

Lemma core_sync_activity_logs (env : SyncEnv) (a b : World) :
  same_but_log a b -> store_wf (db a) ->
  match fst (Tracker.sync_activity_logs env a),
        fst (CoreTracker.sync_activity_logs env b) with
  | Resolved _, Resolved _ | Rejected _, Rejected _ => True
  | _, _ => False
  end
  /\ same_but_log (snd (Tracker.sync_activity_logs env a))
                  (snd (CoreTracker.sync_activity_logs env b)).
Proof.
  intros Hs [Hwa _].
  destruct a as [lg1 sb1 d1 g1 t1 h1], b as [lg2 sb2 d2 g2 t2 h2].
  same_worlds.
  unfold CoreTracker.sync_activity_logs. async_unfold. simpl.
  destruct (Database.getUnsyncedLogs_fault (env_faults env)); simpl;
    [split; [exact I | repeat split] |].
  destruct (take 50 (Database.activity_logs d2)) as [| l logs] eqn:Hb; simpl;
    [split; [exact I | repeat split] |].
  destruct (batch_has_id ActivityLog.id _ _ 50 l logs Hwa Hb) as (i & Hids).
  destruct (api_syncActivities (env_api env) (l :: logs)) as [[[|] | e] lf]; simpl;
    try (split; [exact I | repeat split]).
  unfold Tracker.ids_of. simpl. rewrite Hids. simpl.
  destruct (Database.deleteLogs_fault (env_faults env)); simpl;
    split; try exact I; repeat split.
Qed.

Lemma core_sync_git_commits (env : SyncEnv) (a b : World) :
  same_but_log a b -> store_wf (db a) ->
  match fst (Tracker.sync_git_commits env a),
        fst (CoreTracker.sync_git_commits env b) with
  | Resolved _, Resolved _ | Rejected _, Rejected _ => True
  | _, _ => False
  end
  /\ same_but_log (snd (Tracker.sync_git_commits env a))
                  (snd (CoreTracker.sync_git_commits env b)).
Proof.
  intros Hs [_ Hwc].
  destruct a as [lg1 sb1 d1 g1 t1 h1], b as [lg2 sb2 d2 g2 t2 h2].
  same_worlds.
  unfold CoreTracker.sync_git_commits. async_unfold. simpl.
  destruct (Database.getUnsyncedCommits_fault (env_faults env)); simpl;
    [split; [exact I | repeat split] |].
  destruct (take 20 (Database.git_commits d2)) as [| c cs] eqn:Hb; simpl;
    [split; [exact I | repeat split] |].
  destruct (batch_has_id GitCommit.id _ _ 20 c cs Hwc Hb) as (i & Hids).
  destruct (api_syncCommits (env_api env) (c :: cs)) as [[[|] | e] lf]; simpl;
    try (split; [exact I | repeat split]).
  unfold Tracker.ids_of. simpl. rewrite Hids. simpl.
  destruct (Database.deleteCommits_fault (env_faults env)); simpl;
    split; try exact I; repeat split.
Qed.

Lemma core_syncLoop_sync (env : SyncEnv) (w : World) :
  store_wf (db w) ->
  same_but_log (Tracker.syncLoop_sync env w) (CoreTracker.syncLoop_sync env w).
Proof.
  intros Hwf.
  unfold Tracker.syncLoop_sync, CoreTracker.syncLoop_sync,
    Tracker.syncLoop_push, CoreTracker.syncLoop_push, try_catch, bind.
  destruct (core_sync_activity_logs env w w (same_but_log_refl w) Hwf)
    as [Hr Hs].
  pose proof (store_wf_sync_activity_logs env w Hwf) as Hwf1.
  destruct (Tracker.sync_activity_logs env w) as [[[] | e1] a1],
    (CoreTracker.sync_activity_logs env w) as [[[] | e2] b1];
    simpl in *; try contradiction.
  - destruct (core_sync_git_commits env a1 b1 Hs Hwf1) as [Hr2 Hs2].
    destruct (Tracker.sync_git_commits env a1) as [[[] | e3] a2],
      (CoreTracker.sync_git_commits env b1) as [[[] | e4] b2];
      simpl in *; try contradiction; [exact Hs2 |].
    destruct Hs2 as (? & ? & ? & ? & ?). repeat split; assumption.
  - destruct Hs as (? & ? & ? & ? & ?). repeat split; assumption.
Qed.

(** X9: on a store whose rows carry their identifiers, the later revision of
    the sync loop (which writes debug lines and skips a deletion that has no
    identifier to delete) does to the store, the status bar, the tracker and
    the timers exactly what the revision of src/sync/tracker.ts does; the two
    differ in the log only. *)
Theorem sync_revisions_agree (env : SyncEnv) (w : World) :
  store_wf (db w) ->
  same_but_log (Tracker.syncLoop env w) (CoreTracker.syncLoop env w).
Proof.
  intros Hwf. unfold Tracker.syncLoop, CoreTracker.syncLoop.
  destruct (isTracking (tracker w)); simpl; [| apply same_but_log_refl].
  pose proof (core_syncLoop_sync env _ (store_wf_flush (env_faults env) w Hwf))
    as (Hdb & Hsb & Hg & Ht & Hh).
  unfold CoreTracker.syncLoop_flush, CoreTracker.syncLoop_reschedule,
    Tracker.syncLoop_reschedule, setTimeout. simpl.
  repeat split; simpl; congruence.
Qed.

(** ** What the status bar shows after the sync step *)

Lemma sync_git_commits_status (env : SyncEnv) (w : World) :
  statusBarManager (snd (Tracker.sync_git_commits env w)) = statusBarManager w.
Proof.
  async_unfold.
  destruct (Database.getUnsyncedCommits_fault (env_faults env)); simpl; [auto |].
  destruct (take 20 (Database.git_commits (db w))) as [| c cs]; simpl; [auto |].
  destruct (api_syncCommits (env_api env) (c :: cs)) as [[[|] | e] lf]; simpl; auto.
  destruct (Database.deleteCommits_fault (env_faults env)); simpl; auto.
Qed.

(** X10: the status bar after the sync step tells how the activity batch
    fared, and nothing else: "Synced" when the submit call returned true,
    "Offline" when it returned false; when there was no batch to send, or the
    submit call threw, the text is what it was before.  Whatever happens to
    the commit batch leaves it alone. *)
Theorem status_after_sync (env : SyncEnv) (w : World) :
  Database.getUnsyncedLogs_fault (env_faults env) = None ->
  Database.deleteLogs_fault (env_faults env) = None ->
  StatusBarManager.text (statusBarManager (Tracker.syncLoop_sync env w))
  = match take 50 (Database.activity_logs (db w)),
          fst (api_syncActivities (env_api env)
                 (take 50 (Database.activity_logs (db w)))) with
    | _ :: _, Resolved true => "$(clock) CodeChrono: Synced"
    | _ :: _, Resolved false => "$(clock) CodeChrono: Offline"
    | _, _ => StatusBarManager.text (statusBarManager w)
    end.
Proof.
  intros Hread Hdel.
  assert (H1 : StatusBarManager.text
                 (statusBarManager (snd (Tracker.sync_activity_logs env w)))
               = match take 50 (Database.activity_logs (db w)),
                       fst (api_syncActivities (env_api env)
                              (take 50 (Database.activity_logs (db w)))) with
                 | _ :: _, Resolved true => "$(clock) CodeChrono: Synced"
                 | _ :: _, Resolved false => "$(clock) CodeChrono: Offline"
                 | _, _ => StatusBarManager.text (statusBarManager w)
                 end).
  { async_unfold. rewrite Hread. simpl.
    destruct (take 50 (Database.activity_logs (db w))) as [| l ls]; simpl;
      [reflexivity |].
    destruct (api_syncActivities (env_api env) (l :: ls)) as [[[|] | e] lf];
      simpl; try reflexivity.
    rewrite Hdel. reflexivity. }
  unfold Tracker.syncLoop_sync, Tracker.syncLoop_push, try_catch.
  unfold bind at 1.
  etransitivity; [| exact H1]. clear H1.
  destruct (Tracker.sync_activity_logs env w) as [[[] | e] w1]; simpl;
    [| reflexivity].
  pose proof (sync_git_commits_status env w1) as H2.
  destruct (Tracker.sync_git_commits env w1) as [[[] | e] w2]; simpl in *;
    now rewrite H2.
Qed.

(** ** The details of a revision *)

(** X11: [getCommitDetails] never throws.  It returns details exactly when
    all five git queries (the four concurrent ones and the diff statistics)
    succeed, and then leaves the world as it was; when any of them fails it
    returns null and logs an error. *)
Theorem getCommitDetails_all_or_nothing (g : GitTracker.Git) (p h : string)
    (w : World) :
  let r := GitTracker.getCommitDetails g p h w in
  fst r = Resolved (details_of g p h)
  /\ (is_Some (details_of g p h)
      <-> forall q, q ∈ detail_queries h ++ [stat_query h] -> ~ threw (g q p))
  /\ (is_Some (details_of g p h) -> snd r = w)
  /\ (details_of g p h = None ->
      exists e, snd r = log_ (Logger.error "Error getting commit details" e) w).
Proof.
  intros r. subst r.
  split; [apply getCommitDetails_details_of |].
  unfold details_of, detail_queries, stat_query.
  unfold GitTracker.getCommitDetails, try_catch, bind, GitTracker.Promise_all4,
    GitTracker.execAsync, exec_, ret.
  set (q1 := "git log -1 --format=%s " +:+ h).
  set (q2 := "git log -1 --format=%an " +:+ h).
  set (q3 := "git log -1 --format=%ae " +:+ h).
  set (q4 := "git log -1 --format=%at " +:+ h).
  set (q5 := "git show --stat --format=" +:+ Js.dquote +:+ Js.dquote +:+ " " +:+ h).
  assert (Hall : forall P : string -> Prop,
             (forall q, q ∈ [q1; q2; q3; q4] ++ [q5] -> P q)
             <-> P q1 /\ P q2 /\ P q3 /\ P q4 /\ P q5).
  { intros P. simpl. split.
    - intros H. repeat split; apply H; set_solver.
    - intros (H1 & H2 & H3 & H4 & H5) q Hq.
      repeat (apply elem_of_cons in Hq as [-> | Hq]; [assumption |]).
      now apply not_elem_of_nil in Hq. }
  rewrite (Hall (fun q => ~ threw (g q p))).
  destruct (g q1 p) as [m | e1]; simpl.
  2: { split; [| split]; [| intros [d Hd]; discriminate Hd | eauto].
       split; [intros [d Hd]; discriminate Hd | intros (H & _); now destruct H]. }
  destruct (g q2 p) as [a | e2]; simpl.
  2: { split; [| split]; [| intros [d Hd]; discriminate Hd | eauto].
       split; [intros [d Hd]; discriminate Hd | intros (_ & H & _); now destruct H]. }
  destruct (g q3 p) as [ae | e3]; simpl.
  2: { split; [| split]; [| intros [d Hd]; discriminate Hd | eauto].
       split; [intros [d Hd]; discriminate Hd
              | intros (_ & _ & H & _); now destruct H]. }
  destruct (g q4 p) as [t | e4]; simpl.
  2: { split; [| split]; [| intros [d Hd]; discriminate Hd | eauto].
       split; [intros [d Hd]; discriminate Hd
              | intros (_ & _ & _ & H & _); now destruct H]. }
  destruct (g q5 p) as [st | e5]; simpl.
  2: { split; [| split]; [| intros [d Hd]; discriminate Hd | eauto].
       split; [intros [d Hd]; discriminate Hd
              | intros (_ & _ & _ & _ & H); now destruct H]. }
  destruct (Js.match_stats st) as [[g1 g2] |]; simpl;
    (split; [| split]; [| reflexivity | discriminate]);
    (split; [intros _; repeat split; auto | eauto]).
Qed.

(** ** The diff statistics *)

Lemma digit_value_nonneg (c : ascii) : Js.is_digit c = true -> 0 <= Js.digit_value c.
Proof.
  unfold Js.is_digit, Js.digit_value. intros H.
  apply andb_true_iff in H as [H _]. apply N.leb_le in H. lia.
Qed.

Lemma digits_value_nonneg (acc : option Z) (s : string) (z : Z) :
  (forall a, acc = Some a -> 0 <= a) ->
  Js.digits_value acc s = Some z -> 0 <= z.
Proof.
  revert acc. induction s as [| c s IH]; intros acc Hacc; simpl.
  - intros H. now apply Hacc.
  - destruct (Js.is_digit c) eqn:Hc; [| intros H; now apply Hacc].
    apply IH. intros a Ha. injection Ha as <-.
    pose proof (digit_value_nonneg c Hc).
    destruct acc as [a |]; simpl; [specialize (Hacc a eq_refl) |]; lia.
Qed.

Lemma of_digits_nonneg (s : string) : 0 <= Js.or_zero (Js.of_digits s).
Proof.
  unfold Js.of_digits. destruct (Js.digits_value None s) as [z |] eqn:H; simpl;
    [| lia].
  apply (digits_value_nonneg None s z); [discriminate | exact H].
Qed.

(** [parseInt] of a string that starts with a digit. *)
Lemma parseInt_digit_first (c : ascii) (s : string) :
  Js.is_digit c = true ->
  Js.parseInt (String c s) = Js.of_digits (String c s).
Proof.
  intros Hc. unfold Js.parseInt.
  assert (Hws : Js.is_white_space c = false).
  { unfold Js.is_digit, Js.is_white_space in *.
    apply andb_true_iff in Hc as [H1 H2].
    apply N.leb_le in H1. apply N.leb_le in H2.
    apply orb_false_iff. split.
    - apply andb_false_iff. right. apply N.leb_gt. lia.
    - apply N.eqb_neq. lia. }
  simpl. rewrite Hws.
  destruct c as [[] [] [] [] [] [] [] []]; try reflexivity; discriminate Hc.
Qed.

Lemma span_digits_first (s ds rest : string) :
  Js.span_digits s = (ds, rest) ->
  match ds with
  | EmptyString => True
  | String c _ => Js.is_digit c = true
  end.
Proof.
  destruct s as [| c s]; simpl.
  - intros H. injection H as <- _. exact I.
  - destruct (Js.is_digit c) eqn:Hc.
    + destruct (Js.span_digits s) as [ds' rest']. intros H.
      injection H as <- _. exact Hc.
    + intros H. injection H as <- _. exact I.
Qed.

Lemma digits_then_nonneg (lit s ds rest : string) :
  Js.digits_then lit s = Some (ds, rest) ->
  0 <= Js.or_zero (Js.parseInt ds).
Proof.
  unfold Js.digits_then.
  destruct (Js.span_digits s) as [ds' rest'] eqn:Hsp.
  pose proof (span_digits_first s ds' rest' Hsp) as Hfirst.
  destruct ds' as [| c ds']; [discriminate |].
  destruct (Js.strip_prefix lit rest'); [| discriminate].
  intros H. injection H as <- _.
  rewrite (parseInt_digit_first c ds' Hfirst). apply of_digits_nonneg.
Qed.

Lemma lazy_deletion_nonneg (s d : string) :
  Js.lazy_deletion s = Some d -> 0 <= Js.or_zero (Js.parseInt d).
Proof.
  induction s as [| c s IH].
  - discriminate.
  - change (Js.lazy_deletion (String c s))
      with (match Js.digits_then " deletion" (String c s) with
            | Some (d, _) => Some d
            | None => if Js.is_line_terminator c then None
                      else Js.lazy_deletion s
            end).
    destruct (Js.digits_then " deletion" (String c s)) as [[d' r] |] eqn:H.
    + intros E. injection E as <-. now apply (digits_then_nonneg _ _ _ _ H).
    + destruct (Js.is_line_terminator c); [discriminate | exact IH].
Qed.

Lemma match_stats_nonneg (s g1 g2 : string) :
  Js.match_stats s = Some (g1, g2) ->
  0 <= Js.or_zero (Js.parseInt g1) /\ 0 <= Js.or_zero (Js.parseInt g2).
Proof.
  assert (Hat : forall s, Js.stats_at s = Some (g1, g2) ->
            0 <= Js.or_zero (Js.parseInt g1) /\ 0 <= Js.or_zero (Js.parseInt g2)).
  { intros s0. unfold Js.stats_at.
    destruct (Js.digits_then " insertion" s0) as [[d1 rest] |] eqn:H1;
      [| discriminate].
    destruct (Js.lazy_deletion rest) as [d2 |] eqn:H2; [| discriminate].
    intros E. injection E as <- <-. split.
    - now apply (digits_then_nonneg _ _ _ _ H1).
    - now apply (lazy_deletion_nonneg _ _ H2). }
  induction s as [| c s IH].
  - discriminate.
  - change (Js.match_stats (String c s))
      with (match Js.stats_at (String c s) with
            | Some r => Some r
            | None => Js.match_stats s
            end).
    destruct (Js.stats_at (String c s)) eqn:H.
    + intros E. injection E as ->. now apply (Hat (String c s)).
    + exact IH.
Qed.

Lemma count_newlines_nonneg (s : string) : 0 <= Js.count_newlines s.
Proof.
  induction s as [| c s IH]; simpl; [lia |].
  destruct (N_of_ascii c =? 10)%N; lia.
Qed.

(** How [getCommitDetails] reads the three counts off the output of the
    diff statistics query. *)
Lemma details_of_counts (g : GitTracker.Git) (p h : string)
    (d : GitTracker.CommitDetails) :
  details_of g p h = Some d ->
  exists st,
    g (stat_query h) p = Resolved st
    /\ GitTracker.filesChanged d = Js.count_newlines st
    /\ (GitTracker.linesAdded d, GitTracker.linesDeleted d)
       = match Js.match_stats st with
         | Some (g1, g2) =>
             (Js.or_zero (Js.parseInt g1), Js.or_zero (Js.parseInt g2))
         | None => (0, 0)
         end.
Proof.
  unfold details_of, stat_query.
  unfold GitTracker.getCommitDetails, try_catch, bind, GitTracker.Promise_all4,
    GitTracker.execAsync, exec_, ret.
  destruct (g _ p) as [m | e1]; [| discriminate].
  destruct (g _ p) as [a | e2]; [| discriminate].
  destruct (g _ p) as [ae | e3]; [| discriminate].
  destruct (g _ p) as [t | e4]; [| discriminate].
  destruct (g _ p) as [st | e5]; [| discriminate].
  exists st. split; [reflexivity |].
  destruct (Js.match_stats st) as [[g1 g2] |]; simpl in *;
    injection H as <-; auto.
Qed.

(** X12: whatever git prints, the counts [getCommitDetails] returns are not
    negative: files changed, lines added, lines deleted. *)
Theorem commit_counts_nonnegative (g : GitTracker.Git) (p h : string)
    (d : GitTracker.CommitDetails) :
  details_of g p h = Some d ->
  0 <= GitTracker.filesChanged d
  /\ 0 <= GitTracker.linesAdded d
  /\ 0 <= GitTracker.linesDeleted d.
Proof.
  intros Hd. destruct (details_of_counts g p h d Hd) as (st & _ & Hf & Hl).
  split; [rewrite Hf; apply count_newlines_nonneg |].
  destruct (Js.match_stats st) as [[g1 g2] |] eqn:Hm; injection Hl as -> ->.
  - apply (match_stats_nonneg st g1 g2 Hm).
  - lia.
Qed.

Lemma strip_prefix_app (lit s r : string) :
  Js.strip_prefix lit s = Some r -> s = lit +:+ r.
Proof.
  revert s. induction lit as [| a lit IH]; intros s; simpl.
  - intros H. now injection H as ->.
  - destruct s as [| b s]; [discriminate |].
    destruct (Ascii.eqb a b) eqn:Hab; [| discriminate].
    apply Ascii.eqb_eq in Hab as ->. intros H. now rewrite (IH s H).
Qed.

Lemma strip_prefix_of_app (lit r : string) :
  Js.strip_prefix lit (lit +:+ r) = Some r.
Proof.
  induction lit as [| a lit IH]; simpl; [reflexivity |].
  now rewrite Ascii.eqb_refl.
Qed.

Lemma span_digits_app (s ds rest : string) :
  Js.span_digits s = (ds, rest) -> s = ds +:+ rest.
Proof.
  revert ds rest. induction s as [| c s IH]; intros ds rest; simpl.
  - intros H. now injection H as <- <-.
  - destruct (Js.is_digit c).
    + destruct (Js.span_digits s) as [ds' rest']. intros H.
      injection H as <- <-. simpl. now rewrite (IH ds' rest' eq_refl).
    + intros H. now injection H as <- <-.
Qed.

Lemma digits_then_app (lit s ds rest : string) :
  Js.digits_then lit s = Some (ds, rest) -> s = ds +:+ lit +:+ rest.
Proof.
  unfold Js.digits_then.
  destruct (Js.span_digits s) as [ds' rest'] eqn:Hsp.
  destruct ds' as [| c ds']; [discriminate |].
  destruct (Js.strip_prefix lit rest') as [r |] eqn:Hst; [| discriminate].
  intros H. injection H as <- <-.
  rewrite (span_digits_app _ _ _ Hsp). now rewrite (strip_prefix_app _ _ _ Hst).
Qed.

Lemma mentions_cons (sub : string) (c : ascii) (s : string) :
  mentions sub s = true -> mentions sub (String c s) = true.
Proof.
  intros H.
  change (mentions sub (String c s))
    with (match Js.strip_prefix sub (String c s) with
          | Some _ => true
          | None => mentions sub s
          end).
  now destruct (Js.strip_prefix sub (String c s)).
Qed.

Lemma mentions_app (sub a b : string) : mentions sub (a +:+ sub +:+ b) = true.
Proof.
  induction a as [| c a IH].
  - change (EmptyString +:+ sub +:+ b) with (sub +:+ b).
    destruct (sub +:+ b) eqn:E; simpl; rewrite <- E;
      now rewrite strip_prefix_of_app.
  - apply mentions_cons, IH.
Qed.

Lemma lazy_deletion_mentions (s d : string) :
  Js.lazy_deletion s = Some d -> mentions " deletion" s = true.
Proof.
  induction s as [| c s IH]; [discriminate |].
  change (Js.lazy_deletion (String c s))
    with (match Js.digits_then " deletion" (String c s) with
          | Some (d, _) => Some d
          | None => if Js.is_line_terminator c then None
                    else Js.lazy_deletion s
          end).
  destruct (Js.digits_then " deletion" (String c s)) as [[d' r] |] eqn:H.
  - intros _. rewrite (digits_then_app _ _ _ _ H). apply mentions_app.
  - destruct (Js.is_line_terminator c); [discriminate |].
    intros E. apply mentions_cons, IH, E.
Qed.

Lemma mentions_after (sub a b : string) :
  mentions sub b = true -> mentions sub (a +:+ b) = true.
Proof.
  intros H. induction a as [| c a IH]; [exact H |].
  apply mentions_cons, IH.
Qed.

Lemma match_stats_mentions (s g1 g2 : string) :
  Js.match_stats s = Some (g1, g2) ->
  mentions " insertion" s = true /\ mentions " deletion" s = true.
Proof.
  induction s as [| c s IH]; [discriminate |].
  change (Js.match_stats (String c s))
    with (match Js.stats_at (String c s) with
          | Some r => Some r
          | None => Js.match_stats s
          end).
  destruct (Js.stats_at (String c s)) as [r |] eqn:H.
  - intros _. unfold Js.stats_at in H.
    destruct (Js.digits_then " insertion" (String c s)) as [[d1 rest] |] eqn:H1;
      [| discriminate].
    destruct (Js.lazy_deletion rest) as [d2 |] eqn:H2; [| discriminate].
    rewrite (digits_then_app _ _ _ _ H1). split; [apply mentions_app |].
    apply mentions_after, mentions_after, (lazy_deletion_mentions _ _ H2).
  - intros E. destruct (IH E). split; now apply mentions_cons.
Qed.

(** X13: the line counts need both words.  When the diff statistics git
    prints do not contain " insertion" or do not contain " deletion" (git
    leaves out the part whose count is zero), [getCommitDetails] reports no
    line added and no line deleted. *)
Theorem one_sided_commit_counts_nothing (g : GitTracker.Git) (p h st : string)
    (d : GitTracker.CommitDetails) :
  details_of g p h = Some d ->
  g (stat_query h) p = Resolved st ->
  mentions " insertion" st = false \/ mentions " deletion" st = false ->
  GitTracker.linesAdded d = 0 /\ GitTracker.linesDeleted d = 0.
Proof.
  intros Hd Hst Hno.
  destruct (details_of_counts g p h d Hd) as (st' & Hst' & _ & Hl).
  rewrite Hst in Hst'. injection Hst' as <-.
  destruct (Js.match_stats st) as [[g1 g2] |] eqn:Hm.
  - destruct (match_stats_mentions st g1 g2 Hm) as [Hi Hdel].
    destruct Hno as [Hno | Hno]; congruence.
  - now injection Hl as -> ->.
Qed.

(** ** The git tracker: what a detection leaves alone *)

(** What the HEAD query can give. *)
Lemma head_cases (g : GitTracker.Git) (p : string) :
  (exists e, g head_query p = Rejected e)
  \/ (exists out, g head_query p = Resolved out /\ Js.trim out = EmptyString)
  \/ (exists h, head_is g p h).
Proof.
  destruct (g head_query p) as [out | e] eqn:H; [| left; eauto].
  right. destruct (Js.trim out) as [| c s] eqn:Ht; [left; eauto |].
  right. exists (String c s), out. auto.
Qed.

(** X14: when git answers the HEAD query with nothing but white space, both
    [trackCommitChange] and [initializeProject] return without a trace: no
    record, no map entry, no log line. *)
Theorem blank_head_is_ignored (g : GitTracker.Git) (f : Database.Faults)
    (now : Z) (p out : string) (w : World) :
  g head_query p = Resolved out ->
  Js.trim out = EmptyString ->
  GitTracker.trackCommitChange g f now p w = (Resolved tt, w)
  /\ GitTracker.initializeProject g f now p w = (Resolved tt, w).
Proof.
  intros Hout Htrim.
  unfold GitTracker.trackCommitChange, GitTracker.initializeProject, bind.
  rewrite (getCurrentCommit_resolved g p w out Hout), Htrim. split; reflexivity.
Qed.

Lemma trackCommitChange_blank (g : GitTracker.Git) (f : Database.Faults)
    (now : Z) (p out : string) (w : World) :
  g head_query p = Resolved out ->
  Js.trim out = EmptyString ->
  GitTracker.trackCommitChange g f now p w = (Resolved tt, w).
Proof.
  intros Hout Htrim. unfold GitTracker.trackCommitChange, bind.
  now rewrite (getCurrentCommit_resolved g p w out Hout), Htrim.
Qed.

Lemma initializeProject_blank (g : GitTracker.Git) (f : Database.Faults)
    (now : Z) (p out : string) (w : World) :
  g head_query p = Resolved out ->
  Js.trim out = EmptyString ->
  GitTracker.initializeProject g f now p w = (Resolved tt, w).
Proof.
  intros Hout Htrim. unfold GitTracker.initializeProject, bind.
  now rewrite (getCurrentCommit_resolved g p w out Hout), Htrim.
Qed.

Lemma trackCommitChange_no_head (g : GitTracker.Git) (f : Database.Faults)
    (now : Z) (p : string) (w : World) (e : Error) :
  g head_query p = Rejected e ->
  exists w', GitTracker.trackCommitChange g f now p w = (Resolved tt, w')
    /\ db w' = db w /\ git w' = git w /\ tracker w' = tracker w
    /\ host w' = host w.
Proof.
  intros H. unfold GitTracker.trackCommitChange, bind.
  rewrite (getCurrentCommit_rejected g p w e H). simpl. eauto 10.
Qed.

Lemma initializeProject_no_head (g : GitTracker.Git) (f : Database.Faults)
    (now : Z) (p : string) (w : World) (e : Error) :
  g head_query p = Rejected e ->
  exists w', GitTracker.initializeProject g f now p w = (Resolved tt, w')
    /\ db w' = db w /\ git w' = git w /\ tracker w' = tracker w
    /\ host w' = host w.
Proof.
  intros H. unfold GitTracker.initializeProject, bind.
  rewrite (getCurrentCommit_rejected g p w e H). simpl. eauto 10.
Qed.

Lemma git_footprint_same (p : string) (w w' : World) :
  db w' = db w -> git w' = git w -> tracker w' = tracker w -> host w' = host w ->
  git_footprint p w w'.
Proof.
  intros Hdb Hgit Htr Hh. unfold git_footprint, GitTracker.getActiveCommit.
  rewrite Hdb, Hgit. repeat split; auto.
Qed.

Lemma getActiveCommit_set_commit (p q h : string) (now : Z) (w w' : World) :
  git w' = git (GitTracker.set_commit p h now w) -> q <> p ->
  GitTracker.getActiveCommit q w' = GitTracker.getActiveCommit q w.
Proof.
  intros Hg Hq. unfold GitTracker.getActiveCommit. rewrite Hg. simpl.
  now apply lookup_insert_ne.
Qed.

Lemma git_footprint_insert (f : Database.Faults) (p : string) (c : GitCommit.t)
    (w w' : World) :
  Database.insertCommit_fault f c = None ->
  GitCommit.projectPath c = p ->
  db w' = snd (Database.insertCommit f c (db w)) ->
  (db w' = db w
   \/ exists c,
        GitCommit.projectPath c = p
        /\ GitCommit.id c = Some (Database.commit_seq (db w) + 1)
        /\ Database.git_commits (db w') = Database.git_commits (db w) ++ [c]
        /\ Database.commit_seq (db w') = Database.commit_seq (db w) + 1)
  /\ Database.activity_logs (db w') = Database.activity_logs (db w)
  /\ Database.activity_seq (db w') = Database.activity_seq (db w).
Proof.
  intros Hf Hp ->. unfold Database.insertCommit. rewrite Hf. simpl.
  split; [| split; reflexivity].
  right.
  exists (GitCommit.with_id (Some (Database.commit_seq (db w) + 1)) c).
  repeat split. exact Hp.
Qed.

Lemma trackCommitChange_footprint (g : GitTracker.Git) (f : Database.Faults)
    (now : Z) (p : string) (w : World) :
  git_footprint p w (snd (GitTracker.trackCommitChange g f now p w)).
Proof.
  destruct (head_cases g p) as [[e He] | [(out & Ho & Ht) | [h Hh]]].
  - destruct (trackCommitChange_no_head g f now p w e He)
      as (w' & -> & Hdb & Hg & Htr & Hho).
    now apply git_footprint_same.
  - rewrite (trackCommitChange_blank g f now p out w Ho Ht).
    now apply git_footprint_same.
  - destruct (decide (currentCommit (git w) !! p = Some h)) as [Hold | Hold].
    + rewrite (trackCommitChange_same g f now p h w Hh Hold).
      now apply git_footprint_same.
    + pose proof (trackCommitChange_detects g f now p h w Hh Hold)
        as (Htr & Hho & H).
      destruct (details_of g p h) as [d |].
      * destruct H as (b & H). simpl in H.
        destruct (Database.insertCommit_fault f (GitTracker.make_commit p h d b))
          as [e |] eqn:Hf.
        -- destruct H as (_ & Hdb & Hg). now apply git_footprint_same.
        -- destruct H as (_ & Hdb & Hg).
           destruct (git_footprint_insert f p _ _ _ Hf eq_refl Hdb)
             as (Hc & Hl & Hs).
           repeat split; auto.
           intros q Hq. now apply (getActiveCommit_set_commit p q h now w).
      * destruct H as (_ & Hdb & Hg).
        unfold git_footprint. rewrite Hdb. repeat split; auto.
        intros q Hq. now apply (getActiveCommit_set_commit p q h now w).
Qed.

Lemma initializeProject_footprint (g : GitTracker.Git) (f : Database.Faults)
    (now : Z) (p : string) (w : World) :
  git_footprint p w (snd (GitTracker.initializeProject g f now p w)).
Proof.
  destruct (head_cases g p) as [[e He] | [(out & Ho & Ht) | [h Hh]]].
  - destruct (initializeProject_no_head g f now p w e He)
      as (w' & -> & Hdb & Hg & Htr & Hho).
    now apply git_footprint_same.
  - rewrite (initializeProject_blank g f now p out w Ho Ht).
    now apply git_footprint_same.
  - pose proof (initializeProject_seeds g f now p h w Hh)
      as (Htr & Hho & Hg & H).
    assert (Hother : forall q, q <> p ->
              GitTracker.getActiveCommit q
                (snd (GitTracker.initializeProject g f now p w))
              = GitTracker.getActiveCommit q w)
      by (intros q Hq; now apply (getActiveCommit_set_commit p q h now w)).
    destruct (details_of g p h) as [d |].
    + destruct H as (b & H). simpl in H.
      destruct (Database.insertCommit_fault f (GitTracker.make_commit p h d b))
        as [e |] eqn:Hf.
      * destruct H as (_ & Hdb). unfold git_footprint. rewrite Hdb.
        repeat split; auto.
      * destruct H as (_ & Hdb).
        destruct (git_footprint_insert f p _ _ _ Hf eq_refl Hdb)
          as (Hc & Hl & Hs).
        repeat split; auto.
    + destruct H as (_ & Hdb). unfold git_footprint. rewrite Hdb.
      repeat split; auto.
Qed.

(** X15: whatever git and the store answer, a call of [trackCommitChange]
    or of [initializeProject] for a project leaves every other project's
    active revision, the activity records, the tracker and the host as they
    were, and adds at most one revision record, which is for that project and
    goes to the end of the table. *)
Theorem git_calls_touch_one_project (g : GitTracker.Git) (f : Database.Faults)
    (now : Z) (p : string) (w : World) :
  git_footprint p w (snd (GitTracker.trackCommitChange g f now p w))
  /\ git_footprint p w (snd (GitTracker.initializeProject g f now p w)).
Proof.
  split; [apply trackCommitChange_footprint | apply initializeProject_footprint].
Qed.

Lemma store_wf_footprint (p : string) (w w' : World) :
  git_footprint p w w' -> store_wf (db w) -> store_wf (db w').
Proof.
  intros (_ & _ & Hl & Hs & _ & [-> | (c & _ & Hid & Hc & Hseq)]) [Ha Hc0];
    [now split |].
  split; [now rewrite Hl, Hs |].
  rewrite Hc, Hseq. now apply rows_wf_snoc.
Qed.

(** ** The git tracker: a store that refuses the record *)

Lemma trackCommitChange_refused (g : GitTracker.Git) (f : Database.Faults)
    (now : Z) (p h : string) (w : World) (e : Error) :
  head_is g p h ->
  currentCommit (git w) !! p <> Some h ->
  is_Some (details_of g p h) ->
  (forall c, Database.insertCommit_fault f c = Some e) ->
  let r := GitTracker.trackCommitChange g f now p w in
  fst r = Rejected e /\ db (snd r) = db w /\ git (snd r) = git w.
Proof.
  intros Hhead Hold [d Hd] Hf r.
  pose proof (trackCommitChange_detects g f now p h w Hhead Hold) as (_ & _ & H).
  fold r in H. rewrite Hd in H. destruct H as (b & H). simpl in H.
  now rewrite Hf in H.
Qed.

Lemma trackCommitChange_stores (g : GitTracker.Git) (f : Database.Faults)
    (now : Z) (p h : string) (w : World) :
  head_is g p h ->
  currentCommit (git w) !! p <> Some h ->
  is_Some (details_of g p h) ->
  accepts_commits f ->
  let r := GitTracker.trackCommitChange g f now p w in
  fst r = Resolved tt
  /\ GitTracker.getActiveCommit p (snd r) = Some h
  /\ exists c,
       GitCommit.projectPath c = p /\ GitCommit.commitHash c = h
       /\ Database.git_commits (db (snd r)) = Database.git_commits (db w) ++ [c].
Proof.
  intros Hhead Hold [d Hd] Hf r.
  pose proof (trackCommitChange_detects g f now p h w Hhead Hold) as (_ & _ & H).
  fold r in H. rewrite Hd in H. destruct H as (b & H). simpl in H.
  rewrite Hf in H. destruct H as (Hr & Hdb & Hg).
  split; [exact Hr |]. split.
  - unfold GitTracker.getActiveCommit. rewrite Hg. simpl. apply lookup_insert_eq.
  - exists (GitCommit.with_id (Some (Database.commit_seq (db w) + 1))
              (GitTracker.make_commit p h d b)).
    split; [reflexivity |]. split; [reflexivity |].
    rewrite Hdb. unfold Database.insertCommit. now rewrite Hf.
Qed.

(** X16: a detection whose record the store refuses throws the store's
    error and leaves the project's active revision where it was, so the
    revision is not lost: the next detection that finds the same HEAD, with
    the store accepting records again, stores its record and moves the active
    revision to HEAD. *)
Theorem refused_record_is_retried (g g' : GitTracker.Git)
    (f f' : Database.Faults) (now now' : Z) (p h : string) (w : World) (e : Error) :
  head_is g p h ->
  currentCommit (git w) !! p <> Some h ->
  is_Some (details_of g p h) ->
  (forall c, Database.insertCommit_fault f c = Some e) ->
  head_is g' p h ->
  is_Some (details_of g' p h) ->
  accepts_commits f' ->
  let r1 := GitTracker.trackCommitChange g f now p w in
  let r2 := GitTracker.trackCommitChange g' f' now' p (snd r1) in
  (fst r1 = Rejected e
   /\ db (snd r1) = db w
   /\ GitTracker.getActiveCommit p (snd r1) = GitTracker.getActiveCommit p w)
  /\ (fst r2 = Resolved tt
      /\ GitTracker.getActiveCommit p (snd r2) = Some h
      /\ exists c,
           GitCommit.projectPath c = p /\ GitCommit.commitHash c = h
           /\ Database.git_commits (db (snd r2))
              = Database.git_commits (db w) ++ [c]).
Proof.
  intros Hhead Hold Hd Hf Hhead' Hd' Hf' r1 r2.
  destruct (trackCommitChange_refused g f now p h w e Hhead Hold Hd Hf)
    as (Hr1 & Hdb1 & Hg1).
  fold r1 in Hr1, Hdb1, Hg1.
  split.
  - split; [exact Hr1 |]. split; [exact Hdb1 |].
    unfold GitTracker.getActiveCommit. now rewrite Hg1.
  - assert (Hold1 : currentCommit (git (snd r1)) !! p <> Some h)
      by now rewrite Hg1.
    destruct (trackCommitChange_stores g' f' now' p h (snd r1)
                Hhead' Hold1 Hd' Hf') as (Hr2 & Ha2 & c & Hp & Hh & Hrows).
    fold r2 in Hr2, Ha2, Hrows.
    split; [exact Hr2 |]. split; [exact Ha2 |].
    exists c. rewrite Hrows, Hdb1. auto.
Qed.

(** X17: [initializeProject] moves the project's active revision to HEAD
    before it fetches the details and writes the record.  So whatever comes of
    the record (the details fail, the store refuses it and the call throws),
    a detection that follows and finds the same HEAD does nothing: a seed
    record that was not written is not written later. *)
Theorem initializeProject_then_detect (g g' : GitTracker.Git)
    (f f' : Database.Faults) (now now' : Z) (p h : string) (w : World) :
  head_is g p h ->
  head_is g' p h ->
  let w1 := snd (GitTracker.initializeProject g f now p w) in
  GitTracker.getActiveCommit p w1 = Some h
  /\ GitTracker.trackCommitChange g' f' now' p w1 = (Resolved tt, w1).
Proof.
  intros Hhead Hhead' w1.
  pose proof (initializeProject_seeds g f now p h w Hhead) as (_ & _ & Hg & _).
  fold w1 in Hg.
  assert (Ha : currentCommit (git w1) !! p = Some h)
    by (rewrite Hg; simpl; apply lookup_insert_eq).
  split; [exact Ha |].
  now apply (trackCommitChange_same g' f' now' p h).
Qed.

Lemma initializeProject_stores (g : GitTracker.Git) (f : Database.Faults)
    (now : Z) (p h : string) (w : World) :
  head_is g p h ->
  is_Some (details_of g p h) ->
  accepts_commits f ->
  let r := GitTracker.initializeProject g f now p w in
  fst r = Resolved tt
  /\ exists c,
       GitCommit.projectPath c = p /\ GitCommit.commitHash c = h
       /\ GitCommit.id c = Some (Database.commit_seq (db w) + 1)
       /\ Database.commit_seq (db (snd r)) = Database.commit_seq (db w) + 1
       /\ Database.git_commits (db (snd r)) = Database.git_commits (db w) ++ [c].
Proof.
  intros Hhead [d Hd] Hf r.
  pose proof (initializeProject_seeds g f now p h w Hhead) as (_ & _ & _ & H).
  fold r in H. rewrite Hd in H. destruct H as (b & H). simpl in H.
  rewrite Hf in H. destruct H as (Hr & Hdb).
  split; [exact Hr |].
  exists (GitCommit.with_id (Some (Database.commit_seq (db w) + 1))
            (GitTracker.make_commit p h d b)).
  rewrite Hdb. unfold Database.insertCommit. rewrite Hf. simpl. auto.
Qed.

Lemma revisions_of_app (p h : string) (c : GitCommit.t) (d d' : Database.t) :
  Database.git_commits d' = Database.git_commits d ++ [c] ->
  GitCommit.projectPath c = p -> GitCommit.commitHash c = h ->
  revisions_of p h d' = revisions_of p h d ++ [c].
Proof.
  intros Hrows Hp Hh. unfold revisions_of. rewrite Hrows, List.filter_app. simpl.
  now rewrite Hp, Hh, !bool_decide_eq_true_2 by reflexivity.
Qed.

(** X18: [initializeProject] does not look whether the revision is stored
    already: with the details fetched and the store accepting, every call
    appends a record for HEAD, so two calls with HEAD unchanged leave two
    records for the same project and hash, under different identifiers. *)
Theorem initializeProject_duplicates (g g' : GitTracker.Git)
    (f f' : Database.Faults) (now now' : Z) (p h : string) (w : World) :
  head_is g p h -> is_Some (details_of g p h) -> accepts_commits f ->
  head_is g' p h -> is_Some (details_of g' p h) -> accepts_commits f' ->
  let w2 := snd (GitTracker.initializeProject g' f' now' p
                   (snd (GitTracker.initializeProject g f now p w))) in
  exists c1 c2,
    revisions_of p h (db w2) = revisions_of p h (db w) ++ [c1; c2]
    /\ GitCommit.id c1 <> GitCommit.id c2.
Proof.
  intros Hhead Hd Hf Hhead' Hd' Hf' w2.
  destruct (initializeProject_stores g f now p h w Hhead Hd Hf)
    as (_ & c1 & Hp1 & Hh1 & Hid1 & Hseq1 & Hrows1).
  set (w1 := snd (GitTracker.initializeProject g f now p w)) in *.
  destruct (initializeProject_stores g' f' now' p h w1 Hhead' Hd' Hf')
    as (_ & c2 & Hp2 & Hh2 & Hid2 & Hseq2 & Hrows2).
  fold w2 in Hid2, Hseq2, Hrows2.
  exists c1, c2. split.
  - rewrite (revisions_of_app p h c2 (db w1) (db w2) Hrows2 Hp2 Hh2).
    rewrite (revisions_of_app p h c1 (db w) (db w1) Hrows1 Hp1 Hh1).
    now rewrite <- app_assoc.
  - rewrite Hid1, Hid2, Hseq1. intros E. injection E as E. lia.
Qed.

(** ** The logger *)

Lemma log_appends (message : string) (args : list string) (lg : Logger.t) :
  Logger.logLevel (Logger.log message args lg) = Logger.logLevel lg
  /\ Logger.outputChannel (Logger.log message args lg)
     = Logger.outputChannel lg ++ [Logger.mkLine message args].
Proof. split; reflexivity. Qed.

Lemma app_neq_self {A : Type} (l k : list A) : k <> [] -> l ++ k <> l.
Proof.
  intros Hk E. apply Hk. apply (f_equal length) in E.
  rewrite length_app in E. destruct k; [reflexivity | simpl in E; lia].
Qed.

(** What a call that passes the threshold writes. *)
Lemma Logger_call_lines (l : Logger.LogLevel) (message : string) (err : Error)
    (lg : Logger.t) :
  Logger.level (Logger.logLevel lg) <= Logger.level l ->
  exists line lines,
    Logger_call l message err lg
    = Logger.mk (Logger.logLevel lg)
                (Logger.outputChannel lg ++ line :: lines).
Proof.
  intros Hle. apply Z.leb_le in Hle.
  destruct l; simpl; unfold Logger.debug, Logger.info, Logger.warn, Logger.error;
    rewrite Hle; unfold Logger.log; simpl.
  1-3: eexists _, []; reflexivity.
  destruct (error_stack err) as [st |]; [destruct (Js.truthy st) |].
  - eexists _, [_]. simpl. now rewrite <- app_assoc.
  - eexists _, []; reflexivity.
  - eexists _, []; reflexivity.
Qed.

Lemma Logger_call_silent (l : Logger.LogLevel) (message : string) (err : Error)
    (lg : Logger.t) :
  Logger.level l < Logger.level (Logger.logLevel lg) ->
  Logger_call l message err lg = lg.
Proof.
  intros Hlt. apply Z.leb_gt in Hlt.
  destruct l; simpl; unfold Logger.debug, Logger.info, Logger.warn, Logger.error;
    now rewrite Hlt.
Qed.

(** X19: a call of [debug], [info], [warn] or [error] never changes the
    threshold and never removes a line; it leaves the channel as it was
    exactly when its level is below the threshold.  [error] is the highest
    level, so no threshold silences it. *)
Theorem logger_threshold (l : Logger.LogLevel) (message : string) (err : Error)
    (lg : Logger.t) :
  let lg' := Logger_call l message err lg in
  Logger.logLevel lg' = Logger.logLevel lg
  /\ Logger.outputChannel lg `prefix_of` Logger.outputChannel lg'
  /\ (Logger.outputChannel lg' = Logger.outputChannel lg
      <-> Logger.level l < Logger.level (Logger.logLevel lg))
  /\ Logger.outputChannel (Logger.error message err lg)
     <> Logger.outputChannel lg.
Proof.
  intros lg'.
  assert (Herr : Logger.outputChannel (Logger.error message err lg)
                 <> Logger.outputChannel lg).
  { destruct (Logger_call_lines Logger.ERROR message err lg)
      as (line & lines & E); [destruct (Logger.logLevel lg); simpl; lia |].
    simpl in E. rewrite E. simpl. now apply app_neq_self. }
  destruct (Z.lt_ge_cases (Logger.level l) (Logger.level (Logger.logLevel lg)))
    as [Hlt | Hge].
  - unfold lg'. rewrite (Logger_call_silent l message err lg Hlt).
    repeat split; auto.
  - destruct (Logger_call_lines l message err lg Hge) as (line & lines & E).
    unfold lg'. rewrite E. simpl.
    split; [reflexivity |]. split; [now eexists |].
    split; [| exact Herr]. split; [| lia].
    intros Heq. now apply app_neq_self in Heq.
Qed.

(** ** The sync loop when the store fails *)

Lemma with_db_same (w : World) : with_db (db w) w = w.
Proof. now destruct w. Qed.

(** X20: when the store cannot be read, the iteration stops at the first
    query: it logs the error once and re-arms the timer.  Neither submit call
    is made (the result is the same for every API client), no record is
    deleted and the status bar is not touched. *)
Theorem store_read_failure_skips_sync (env : SyncEnv) (w0 : World) (e : Error) :
  isTracking (tracker w0) = true ->
  Database.getUnsyncedLogs_fault (env_faults env) = Some e ->
  Tracker.syncLoop env w0
  = Tracker.syncLoop_reschedule
      (log_ (Logger.error "Sync loop error" e)
            (Tracker.syncLoop_flush (env_faults env) w0)).
Proof.
  intros Hon Hread. unfold Tracker.syncLoop. rewrite Hon. simpl.
  f_equal. unfold Tracker.syncLoop_sync. async_unfold. rewrite Hread. simpl.
  now rewrite with_db_same.
Qed.

(** X21: when the collector has acknowledged the batch of activity logs
    and the store then fails to delete it, the batch stays in the store (the
    next iteration reads it again and sends it a second time), the status
    bar does not change to Synced, and the commits are not looked at in this
    iteration. *)
Theorem failed_delete_resends_batch (env env2 : SyncEnv) (w0 : World) (e : Error) :
  isTracking (tracker w0) = true ->
  Database.getUnsyncedLogs_fault (env_faults env) = None ->
  Database.deleteLogs_fault (env_faults env) = Some e ->
  let w := Tracker.syncLoop_flush (env_faults env) w0 in
  let w' := Tracker.syncLoop env w0 in
  let logs := take 50 (Database.activity_logs (db w)) in
  logs <> [] ->
  acknowledged (fst (api_syncActivities (env_api env) logs)) ->
  db w' = db w
  /\ statusBarManager w' = statusBarManager w
  /\ (exists lg, logger w' = Logger.error "Sync loop error" e lg)
  /\ forall r, r ∈ logs ->
       r ∈ take 50 (Database.activity_logs
                      (db (Tracker.syncLoop_flush (env_faults env2) w'))).
Proof.
  intros Hon Hread Hdel w w' logs Hne Hack.
  assert (Hw' : w' = Tracker.syncLoop_reschedule (Tracker.syncLoop_sync env w))
    by (unfold w', Tracker.syncLoop; now rewrite Hon).
  assert (Hsync : db (Tracker.syncLoop_sync env w) = db w
                  /\ statusBarManager (Tracker.syncLoop_sync env w)
                     = statusBarManager w
                  /\ exists lg, logger (Tracker.syncLoop_sync env w)
                                = Logger.error "Sync loop error" e lg).
  { unfold Tracker.syncLoop_sync. async_unfold. rewrite Hread. simpl.
    fold logs. destruct logs as [| l logs']; [now contradiction Hne |]. simpl.
    unfold acknowledged in Hack.
    destruct (api_syncActivities (env_api env) (l :: logs')) as [res lf].
    simpl in Hack. subst res. simpl. rewrite Hdel. simpl.
    repeat split. eauto. }
  destruct Hsync as (Hdb & Hsb & lg & Hlg).
  assert (Hdb' : db w' = db w) by (rewrite Hw'; exact Hdb).
  split; [exact Hdb' |]. split; [rewrite Hw'; exact Hsb |].
  split; [exists lg; rewrite Hw'; exact Hlg |].
  intros r Hr.
  destruct (syncLoop_flush_spec (env_faults env2) w')
    as (_ & _ & _ & rows & Hrows & _).
  rewrite Hrows, Hdb', take_app. apply elem_of_app. now left.
Qed.

(** ** The properties above on the sample data *)

(** Three records pending, tracking stopped while the iteration is between
    flush and push, started again, and both timers fired. *)
Lemma restart_keeps_stale_loop_witness :
  let env := mkEnv Database.no_faults offline_api in
  let w1 := Tracker.syncLoop_resume env Tracker.BeforePush
              (Tracker.stopTracking three_pending) in
  let w2 := Tracker.startTracking env w1 in
  let w4 := Tracker.fire_timer env 1 (Tracker.fire_timer env 0 w2) in
  isTracking (tracker three_pending) = true
  /\ timers (host three_pending) = []
  /\ timers (host w2) = [0%nat; 1%nat]
  /\ timers (host w4) = [2%nat; 3%nat].
Proof.
  intros env w1 w2 w4.
  pose proof (restart_keeps_stale_loop env env env env Tracker.BeforePush
                three_pending eq_refl eq_refl) as (_ & H2 & _ & H4).
  split; [reflexivity |]. split; [reflexivity |].
  split; [exact H2 | exact H4].
Defined.

Lemma acknowledged_iteration_drops_oldest_witness :
  let env := mkEnv Database.no_faults online_api in
  let w := Tracker.syncLoop_flush Database.no_faults three_pending in
  let w' := Tracker.syncLoop env three_pending in
  isTracking (tracker three_pending) = true
  /\ store_wf (db three_pending)
  /\ store_answers Database.no_faults
  /\ map stamp (Database.activity_logs (db w))
     = [(10000, 0); (13000, 3000); (16000, 3000)]
  /\ Database.activity_logs (db w') = [].
Proof.
  intros env w w'.
  assert (Hup : store_answers Database.no_faults) by (repeat split).
  pose proof (acknowledged_iteration_drops_oldest env three_pending eq_refl
                store_wf_empty Hup eq_refl eq_refl) as [H _].
  split; [reflexivity |]. split; [exact store_wf_empty |].
  split; [exact Hup |]. split; [reflexivity | exact H].
Defined.

(** The client of the sources when the activity request fails and the commit
    request would succeed. *)
Lemma shipped_client_iteration_witness :
  let client := ApiClient.mkClient (fun _ => Some (mkError "fetch failed" None))
                                   (fun _ => None) in
  let env := mkEnv Database.no_faults (ApiClient.constructor client) in
  let w := Tracker.syncLoop_flush Database.no_faults three_pending in
  let w' := Tracker.syncLoop env three_pending in
  isTracking (tracker three_pending) = true
  /\ store_wf (db three_pending)
  /\ store_answers Database.no_faults
  /\ Database.activity_logs (db w') = Database.activity_logs (db w)
  /\ Database.git_commits (db w') = [].
Proof.
  intros client env w w'.
  assert (Hup : store_answers Database.no_faults) by (repeat split).
  pose proof (shipped_client_iteration client Database.no_faults three_pending
                eq_refl store_wf_empty Hup) as [Ha Hc].
  split; [reflexivity |]. split; [exact store_wf_empty |].
  split; [exact Hup |]. unfold w', env.
  split; [rewrite Ha | rewrite Hc]; reflexivity.
Defined.

Lemma sync_revisions_agree_witness :
  let env := mkEnv Database.no_faults online_api in
  store_wf (db three_pending)
  /\ same_but_log (Tracker.syncLoop env three_pending)
                  (CoreTracker.syncLoop env three_pending).
Proof.
  intros env. split; [exact store_wf_empty |].
  apply (sync_revisions_agree env three_pending). exact store_wf_empty.
Defined.

Lemma status_after_sync_witness :
  let w := Tracker.syncLoop_flush Database.no_faults three_pending in
  Database.getUnsyncedLogs_fault Database.no_faults = None
  /\ Database.deleteLogs_fault Database.no_faults = None
  /\ StatusBarManager.text
       (statusBarManager
          (Tracker.syncLoop_sync (mkEnv Database.no_faults offline_api) w))
     = "$(clock) CodeChrono: Offline"
  /\ StatusBarManager.text
       (statusBarManager
          (Tracker.syncLoop_sync (mkEnv Database.no_faults online_api) w))
     = "$(clock) CodeChrono: Synced".
Proof.
  intros w. split; [reflexivity |]. split; [reflexivity |]. split.
  - exact (status_after_sync (mkEnv Database.no_faults offline_api) w
             eq_refl eq_refl).
  - exact (status_after_sync (mkEnv Database.no_faults online_api) w
             eq_refl eq_refl).
Defined.

Lemma commit_counts_nonnegative_witness :
  let d := GitTracker.mkDetails "Fix the sync loop" "Ada" "ada@example.org"
             (Js.Num 1700000000000) 2 3 1 in
  details_of repo_at_b2 "/p" "b2" = Some d
  /\ 0 <= GitTracker.filesChanged d
  /\ 0 <= GitTracker.linesAdded d
  /\ 0 <= GitTracker.linesDeleted d.
Proof.
  intros d. split; [reflexivity |].
  apply (commit_counts_nonnegative repo_at_b2 "/p" "b2" d). reflexivity.
Defined.

(** A revision that adds three lines and deletes none is recorded with no
    line added. *)
Lemma one_sided_commit_counts_nothing_witness :
  let st := " a.ts | 3 +++" +:+ newline +:+
            " 1 file changed, 3 insertions(+)" +:+ newline in
  let d := GitTracker.mkDetails "Fix the sync loop" "Ada" "ada@example.org"
             (Js.Num 1700000000000) 2 0 0 in
  details_of repo_only_insertions "/p" "b2" = Some d
  /\ repo_only_insertions (stat_query "b2") "/p" = Resolved st
  /\ mentions " insertion" st = true
  /\ mentions " deletion" st = false
  /\ GitTracker.linesAdded d = 0 /\ GitTracker.linesDeleted d = 0.
Proof.
  intros st d. split; [reflexivity |]. split; [reflexivity |].
  split; [reflexivity |]. split; [reflexivity |].
  apply (one_sided_commit_counts_nothing repo_only_insertions "/p" "b2" st d);
    [reflexivity | reflexivity | right; reflexivity].
Defined.

Lemma blank_head_is_ignored_witness :
  repo_blank_head head_query "/p" = Resolved newline
  /\ Js.trim newline = EmptyString
  /\ GitTracker.trackCommitChange repo_blank_head Database.no_faults 5000 "/p"
       seen_at_a1
     = (Resolved tt, seen_at_a1)
  /\ GitTracker.initializeProject repo_blank_head Database.no_faults 5000 "/p"
       seen_at_a1
     = (Resolved tt, seen_at_a1).
Proof.
  split; [reflexivity |]. split; [reflexivity |].
  apply (blank_head_is_ignored repo_blank_head Database.no_faults 5000 "/p"
           newline seen_at_a1); reflexivity.
Defined.

Lemma details_of_b2 : is_Some (details_of repo_at_b2 "/p" "b2").
Proof. vm_compute. eauto. Qed.

(** The project /p at a1, HEAD at b2: the store refuses the record of the
    first detection and takes that of the second. *)
Lemma refused_record_is_retried_witness :
  let r1 := GitTracker.trackCommitChange repo_at_b2 refuses_commits 5000 "/p"
              seen_at_a1 in
  let r2 := GitTracker.trackCommitChange repo_at_b2 Database.no_faults 9000 "/p"
              (snd r1) in
  head_is repo_at_b2 "/p" "b2"
  /\ currentCommit (git seen_at_a1) !! "/p" <> Some "b2"
  /\ is_Some (details_of repo_at_b2 "/p" "b2")
  /\ accepts_commits Database.no_faults
  /\ fst r1 = Rejected (mkError "SQLITE_FULL" None)
  /\ GitTracker.getActiveCommit "/p" (snd r1) = Some "a1"
  /\ fst r2 = Resolved tt
  /\ GitTracker.getActiveCommit "/p" (snd r2) = Some "b2"
  /\ map GitCommit.commitHash (Database.git_commits (db (snd r2))) = ["b2"].
Proof.
  intros r1 r2.
  assert (Hacc : accepts_commits Database.no_faults) by (intros c; reflexivity).
  pose proof (refused_record_is_retried repo_at_b2 repo_at_b2 refuses_commits
                Database.no_faults 5000 9000 "/p" "b2" seen_at_a1
                (mkError "SQLITE_FULL" None)
                head_is_b2 seen_at_a1_not_b2 details_of_b2
                (fun _ => eq_refl) head_is_b2 details_of_b2 Hacc)
    as ((H1 & _ & _) & (H2 & H3 & _)).
  split; [exact head_is_b2 |]. split; [exact seen_at_a1_not_b2 |].
  split; [exact details_of_b2 |]. split; [exact Hacc |].
  split; [exact H1 |]. split; [reflexivity |].
  split; [exact H2 |]. split; [exact H3 |]. vm_compute. reflexivity.
Defined.

(** The store refuses the seed record: the call throws, the project is at
    b2 all the same, and the detection that follows stores nothing. *)
Lemma initializeProject_then_detect_witness :
  let r1 := GitTracker.initializeProject repo_at_b2 refuses_commits 5000 "/p"
              (initial_world true) in
  head_is repo_at_b2 "/p" "b2"
  /\ fst r1 = Rejected (mkError "SQLITE_FULL" None)
  /\ GitTracker.getActiveCommit "/p" (snd r1) = Some "b2"
  /\ GitTracker.trackCommitChange repo_at_b2 Database.no_faults 9000 "/p" (snd r1)
     = (Resolved tt, snd r1)
  /\ Database.git_commits (db (snd r1)) = [].
Proof.
  intros r1.
  pose proof (initializeProject_then_detect repo_at_b2 repo_at_b2
                refuses_commits Database.no_faults 5000 9000 "/p" "b2"
                (initial_world true) head_is_b2 head_is_b2) as (H1 & H2).
  split; [exact head_is_b2 |]. split; [reflexivity |].
  split; [exact H1 |]. split; [exact H2 | reflexivity].
Defined.

Lemma initializeProject_duplicates_witness :
  let w2 := snd (GitTracker.initializeProject repo_at_b2 Database.no_faults 9000
                   "/p"
                   (snd (GitTracker.initializeProject repo_at_b2
                           Database.no_faults 5000 "/p" (initial_world true)))) in
  head_is repo_at_b2 "/p" "b2"
  /\ is_Some (details_of repo_at_b2 "/p" "b2")
  /\ accepts_commits Database.no_faults
  /\ map GitCommit.id (revisions_of "/p" "b2" (db w2)) = [Some 1; Some 2]
  /\ exists c1 c2,
       revisions_of "/p" "b2" (db w2)
       = revisions_of "/p" "b2" (db (initial_world true)) ++ [c1; c2]
       /\ GitCommit.id c1 <> GitCommit.id c2.
Proof.
  intros w2.
  assert (Hacc : accepts_commits Database.no_faults) by (intros c; reflexivity).
  split; [exact head_is_b2 |]. split; [exact details_of_b2 |].
  split; [exact Hacc |]. split; [vm_compute; reflexivity |].
  exact (initializeProject_duplicates repo_at_b2 repo_at_b2 Database.no_faults
           Database.no_faults 5000 9000 "/p" "b2" (initial_world true)
           head_is_b2 details_of_b2 Hacc head_is_b2 details_of_b2 Hacc).
Defined.

(** Three records pending and a store that cannot be read: the records are
    stored by the flush and stay, and the error is logged. *)
Lemma store_read_failure_skips_sync_witness :
  let env := mkEnv unreadable_store online_api in
  let w' := Tracker.syncLoop env three_pending in
  isTracking (tracker three_pending) = true
  /\ Database.getUnsyncedLogs_fault unreadable_store
     = Some (mkError "SQLITE_BUSY" None)
  /\ w' = Tracker.syncLoop_reschedule
            (log_ (Logger.error "Sync loop error" (mkError "SQLITE_BUSY" None))
                  (Tracker.syncLoop_flush unreadable_store three_pending))
  /\ map stamp (Database.activity_logs (db w'))
     = [(10000, 0); (13000, 3000); (16000, 3000)].
Proof.
  intros env w'.
  split; [reflexivity |]. split; [reflexivity |]. split; [| reflexivity].
  exact (store_read_failure_skips_sync env three_pending
           (mkError "SQLITE_BUSY" None) eq_refl eq_refl).
Defined.

(** Three records, acknowledged by the collector, that the store cannot
    delete. *)
Lemma failed_delete_resends_batch_witness :
  let env := mkEnv undeletable_logs online_api in
  let w := Tracker.syncLoop_flush undeletable_logs three_pending in
  let w' := Tracker.syncLoop env three_pending in
  isTracking (tracker three_pending) = true
  /\ Database.getUnsyncedLogs_fault undeletable_logs = None
  /\ Database.deleteLogs_fault undeletable_logs
     = Some (mkError "SQLITE_BUSY" None)
  /\ take 50 (Database.activity_logs (db w)) <> []
  /\ acknowledged (fst (api_syncActivities online_api
                          (take 50 (Database.activity_logs (db w)))))
  /\ db w' = db w
  /\ statusBarManager w' = statusBarManager w.
Proof.
  intros env w w'.
  assert (Hne : take 50 (Database.activity_logs (db w)) <> [])
    by (vm_compute; discriminate).
  pose proof (failed_delete_resends_batch env env three_pending
                (mkError "SQLITE_BUSY" None) eq_refl eq_refl eq_refl Hne eq_refl)
    as (Hdb & Hsb & _).
  split; [reflexivity |]. split; [reflexivity |]. split; [reflexivity |].
  split; [exact Hne |]. split; [reflexivity |]. split; [exact Hdb | exact Hsb].
Defined.


(** Three records stored, the collector offline, and an event at 70000
    before the next iteration: that iteration reads the three records again,
    followed by the new one. *)
Lemma unacknowledged_batch_retried_witness :
  let env := mkEnv Database.no_faults offline_api in
  let w := Tracker.syncLoop_flush Database.no_faults three_pending in
  let w' := Tracker.syncLoop env three_pending in
  let next := take 50 (Database.activity_logs
                         (db (Tracker.syncLoop_flush Database.no_faults
                                (Tracker.handleAll (events_at editor_open [70000])
                                   w')))) in
  isTracking (tracker three_pending) = true
  /\ ~ acknowledged (fst (api_syncActivities offline_api
                            (take 50 (Database.activity_logs (db w)))))
  /\ map stamp (take 50 (Database.activity_logs (db w)))
     = [(10000, 0); (13000, 3000); (16000, 3000)]
  /\ map stamp next
     = [(10000, 0); (13000, 3000); (16000, 3000); (70000, 54000)]
  /\ take 50 (Database.activity_logs (db w)) `prefix_of` next.
Proof.
  intros env w w' next.
  assert (Hnack : ~ acknowledged (fst (api_syncActivities offline_api
                            (take 50 (Database.activity_logs (db w))))))
    by (vm_compute; discriminate).
  split; [reflexivity |]. split; [exact Hnack |].
  split; [vm_compute; reflexivity |]. split; [vm_compute; reflexivity |].
  exact (unacknowledged_batch_retried env env
           (events_at editor_open [70000]) three_pending eq_refl Hnack).
Defined.
